(** * TB2dic: the NPC dialog mapper

    A shallow embedding of the data reconciliation and tree-rendering
    engine of [npc_dialog_mapper_gui_fixed.pyw] (module [Fixed]) and of
    the loaders and metadata matcher of [npc_dialog_mapper_gui.pyw]
    (module [Original]), together with the search predicate of the
    script that the generated page embeds (module [Search]).

    Conventions.
    - Python [int] is [Z]; [str] is [string], read as the UTF-8 bytes of
      the text; [Optional[T]] is [option T].
    - A Python [dict] keeps insertion order, and the order is observable
      (iteration over [.values()], stable sorting), so dictionaries keyed
      by ids are association lists with unique keys ([dict]).
    - The path-scoped [visited] set of the renderer is a [gset Z].
    - Exceptions are an error monad ([result]).
    - Character classes ([str.lower], [str.strip], [\s], [\b], [int()])
      are the ASCII ones; bytes above 127 are letters of no case and no
      space. *)

From Stdlib Require Import Ascii.
From stdpp Require Import base numbers option list list_monad gmap strings pretty sorting.

Set Warnings "-register-all".
Local Open Scope Z_scope.

(** ** Strings *)

(** The double quote, kept out of the literals. *)
Definition dq : string := String "034"%char EmptyString.

(** [name="value"] *)
Definition attr (name value : string) : string :=
  name +:+ "=" +:+ dq +:+ value +:+ dq.

(** [str(n)] for an [int]. *)
Definition str_of_int (n : Z) : string := pretty n.

Fixpoint string_concat (l : list string) : string :=
  match l with
  | [] => EmptyString
  | s :: l' => s +:+ string_concat l'
  end.

(** [sep.join(l)] *)
Fixpoint join (sep : string) (l : list string) : string :=
  match l with
  | [] => EmptyString
  | [s] => s
  | s :: l' => s +:+ sep +:+ join sep l'
  end.

Definition byte_of (c : ascii) : N := Ascii.N_of_ascii c.

Definition is_upper (c : ascii) : bool :=
  bool_decide (65 ≤ byte_of c ≤ 90)%N.

Definition is_digit (c : ascii) : bool :=
  bool_decide (48 ≤ byte_of c ≤ 57)%N.

(** [str.isspace] on one ASCII character: TAB, LF, VT, FF, CR, the four
    separators 28..31 and the space. *)
Definition is_space (c : ascii) : bool :=
  bool_decide (9 ≤ byte_of c ≤ 13 ∨ 28 ≤ byte_of c ≤ 32)%N.

Definition lower_char (c : ascii) : ascii :=
  if is_upper c then Ascii.ascii_of_N (byte_of c + 32) else c.

(** [s.lower()] *)
Fixpoint lower (s : string) : string :=
  match s with
  | EmptyString => EmptyString
  | String c s' => String (lower_char c) (lower s')
  end.

(** [s.lstrip()] *)
Fixpoint lstrip (s : string) : string :=
  match s with
  | EmptyString => EmptyString
  | String c s' => if is_space c then lstrip s' else s
  end.

(** [s.rstrip()] *)
Fixpoint rstrip (s : string) : string :=
  match s with
  | EmptyString => EmptyString
  | String c s' =>
      match rstrip s' with
      | EmptyString => if is_space c then EmptyString else String c EmptyString
      | t => String c t
      end
  end.

(** [s.strip()] *)
Definition strip (s : string) : string := rstrip (lstrip s).

(** [s.replace(old, new)] for a one-character [old]. *)
Fixpoint replace_char (old : ascii) (new : string) (s : string) : string :=
  match s with
  | EmptyString => EmptyString
  | String c s' =>
      if decide (c = old) then new +:+ replace_char old new s'
      else String c (replace_char old new s')
  end.

(** [s.split(sep)] for a one-character [sep]. *)
Fixpoint split_on (sep : ascii) (s : string) : list string :=
  match s with
  | EmptyString => [EmptyString]
  | String c s' =>
      if decide (c = sep) then EmptyString :: split_on sep s'
      else match split_on sep s' with
           | [] => [String c EmptyString]
           | w :: ws => String c w :: ws
           end
  end.

(** [s.startswith(p)] *)
Fixpoint startswith (p s : string) : bool :=
  match p, s with
  | EmptyString, _ => true
  | String a p', String b s' => bool_decide (a = b) && startswith p' s'
  | String _ _, EmptyString => false
  end.

(** [sub in s] *)
Fixpoint includes (sub s : string) : bool :=
  startswith sub s ||
  match s with
  | EmptyString => false
  | String _ s' => includes sub s'
  end.

(** ** Exceptions *)

Inductive exn : Set :=
| FileNotFoundError
| JSONDecodeError
| KeyError
| TypeError
| IndexError
| AttributeError.

Inductive result (A : Type) : Type :=
| Ok (a : A)
| Raise (e : exn).
Arguments Ok {A} a.
Arguments Raise {A} e.

Global Instance result_ret : MRet result := λ A a, Ok a.
Global Instance result_bind : MBind result := λ A B k r,
  match r with
  | Ok a => k a
  | Raise e => Raise e
  end.

Definition is_ok {A} (r : result A) : bool :=
  match r with Ok _ => true | Raise _ => false end.

(** A [for] loop over [l] whose body updates the state [s] and may raise. *)
Fixpoint for_each {A S} (body : S → A → result S) (l : list A) (s : S) : result S :=
  match l with
  | [] => Ok s
  | x :: l' => s' ← body s x; for_each body l' s'
  end.

(** ** Insertion-ordered dictionaries keyed by ids *)

Definition dict (V : Type) : Type := list (Z * V).

Fixpoint dict_get {V} (k : Z) (d : dict V) : option V :=
  match d with
  | [] => None
  | (k', v) :: d' => if decide (k = k') then Some v else dict_get k d'
  end.

(** [k in d] *)
Definition dict_mem {V} (k : Z) (d : dict V) : bool :=
  match dict_get k d with Some _ => true | None => false end.

(** [d[k] = v]: an existing key keeps its place, a new one goes last. *)
Fixpoint dict_set {V} (k : Z) (v : V) (d : dict V) : dict V :=
  match d with
  | [] => [(k, v)]
  | (k', v') :: d' =>
      if decide (k = k') then (k, v) :: d' else (k', v') :: dict_set k v d'
  end.

Definition dict_keys {V} (d : dict V) : list Z := d.*1.
Definition dict_values {V} (d : dict V) : list V := d.*2.

(** [d[k].field = f(d[k].field)]: the object stored under [k] is changed
    in place; nothing happens when the key is absent. *)
Fixpoint dict_update {V} (k : Z) (f : V → V) (d : dict V) : dict V :=
  match d with
  | [] => []
  | (k', v) :: d' =>
      if decide (k = k') then (k', f v) :: d' else (k', v) :: dict_update k f d'
  end.

(** ** The data model (the dataclasses, identical in both variants) *)

Module NPCReply.
Record t : Type := mk {
  reply_id : Z;
  text_fr : string;
  text_en : option string;
  text_es : option string;
  text_pt : option string;
  context : option string;
  parent_message_id : Z;
  leads_to_message_id : option Z
}.
End NPCReply.

Module NPCMessage.
Record t : Type := mk {
  message_id : Z;
  text_fr : string;
  text_en : option string;
  text_es : option string;
  text_pt : option string;
  context : option string;
  replies : list NPCReply.t
}.
(** [message.replies.append(reply)] *)
Definition append_reply (r : NPCReply.t) (m : t) : t :=
  mk (message_id m) (text_fr m) (text_en m) (text_es m) (text_pt m)
     (context m) (replies m ++ [r]).
End NPCMessage.

Module NPCDialog.
Record t : Type := mk {
  dialog_id : Z;
  npc_id : Z;
  message_id : Z;
  check_order : Z
}.
End NPCDialog.

Module NPCMetadata.
Record t : Type := mk {
  index_id : Z;
  gender : Z;
  look : string;
  img_url : string;
  metadata_id : string;
  name_en : string;
  name_pt : string;
  name_es : string;
  name_fr : string;
  name_de : string
}.
End NPCMetadata.

Module NPC.
Record t : Type := mk {
  npc_id : Z;
  name_fr : string;
  name_en : option string;
  name_es : option string;
  name_pt : option string;
  context : option string;
  dialogs : list NPCDialog.t;
  genders : list Z;
  img_urls : list string
}.
Definition set_dialogs (ds : list NPCDialog.t) (n : t) : t :=
  mk (npc_id n) (name_fr n) (name_en n) (name_es n) (name_pt n) (context n)
     ds (genders n) (img_urls n).
Definition set_matches (gs : list Z) (us : list string) (n : t) : t :=
  mk (npc_id n) (name_fr n) (name_en n) (name_es n) (name_pt n) (context n)
     (dialogs n) gs us.
End NPC.

Global Instance NPCReply_eq_dec : EqDecision NPCReply.t.
Proof. solve_decision. Defined.
Global Instance NPCMessage_eq_dec : EqDecision NPCMessage.t.
Proof. solve_decision. Defined.
Global Instance NPCDialog_eq_dec : EqDecision NPCDialog.t.
Proof. solve_decision. Defined.
Global Instance NPCMetadata_eq_dec : EqDecision NPCMetadata.t.
Proof. solve_decision. Defined.
Global Instance NPC_eq_dec : EqDecision NPC.t.
Proof. solve_decision. Defined.

(** The four display languages. *)
Inductive lang : Set := fr | en | es | pt.
Global Instance lang_eq_dec : EqDecision lang.
Proof. solve_decision. Defined.

(** ** The generated markup

    [_generate_dialog_tree] builds its markup by string interpolation.
    The embedding keeps the element tree that the text spells out, with
    every interpolated attribute as a field, and [Fixed.html_text] writes
    the text. *)

(** The four [lang-row] lines of a message or reply, each already passed
    through [_format_text_with_null_check]. *)
Record lang_rows : Type := mk_rows {
  row_fr : string;
  row_en : string;
  row_es : string;
  row_pt : string
}.

(** [<div class="reply collapsible-nested depth-V" data-reply-id="I"
    data-depth="D">], its optional depth badge, its optional
    [→ Message ID: T] label, and the optional [nested-messages] child. *)
Record reply_div (T : Type) : Type := mk_reply_div {
  reply_visual_level : Z;
  data_reply_id : Z;
  reply_data_depth : Z;
  reply_depth_badge : option Z;
  leads_to_label : option Z;
  reply_rows : lang_rows;
  nested_messages : option T
}.
Arguments mk_reply_div {T}.
Arguments reply_visual_level {T}.
Arguments data_reply_id {T}.
Arguments reply_data_depth {T}.
Arguments reply_depth_badge {T}.
Arguments leads_to_label {T}.
Arguments reply_rows {T}.
Arguments nested_messages {T}.

(** Either the terminal marker
    [<div class="message-ref">↺ Reference to Message ID: T</div>], or
    [<div class="message collapsible depth-V" data-message-id="I"
    data-depth="D">] with its replies. *)
Inductive html : Type :=
| MessageRef (target : Z)
| MessageDiv (visual_level data_message_id data_depth : Z)
             (depth_badge : option Z) (rows : lang_rows)
             (replies : list (reply_div html)).

(** The checks that the claims about the tree are stated with. *)

(** No full message node repeats an id of its own ancestor chain (or of
    [path]), and every marker refers to an id of that chain. *)
Fixpoint cycle_safe (path : gset Z) (h : html) : bool :=
  match h with
  | MessageRef target => bool_decide (target ∈ path)
  | MessageDiv _ i _ _ _ rs =>
      bool_decide (i ∉ path) &&
      forallb (λ r, match nested_messages r with
                    | Some c => cycle_safe (path ∪ {[i]}) c
                    | None => true
                    end) rs
  end.

(** A message node at depth [d] stores [d], its replies store [d + 1],
    their continuation messages are at depth [d + 2], and each visual
    level is the stored depth capped at [cap]. *)
Fixpoint depths_from (cap d : Z) (h : html) : bool :=
  match h with
  | MessageRef _ => true
  | MessageDiv v _ dd _ _ rs =>
      bool_decide (dd = d) && bool_decide (v = Z.min d cap) &&
      forallb (λ r,
        bool_decide (reply_data_depth r = d + 1) &&
        bool_decide (reply_visual_level r = Z.min (d + 1) cap) &&
        match nested_messages r with
        | Some c => depths_from cap (d + 2) c
        | None => true
        end) rs
  end.

(** The number of marker nodes in a tree. *)
Fixpoint count_refs (h : html) : nat :=
  match h with
  | MessageRef _ => 1%nat
  | MessageDiv _ _ _ _ _ rs =>
      foldr (λ r n, (match nested_messages r with
                     | Some c => count_refs c
                     | None => 0
                     end + n)%nat) 0%nat rs
  end.

(** ** Input files *)

(** A decoded JSON document ([json.load]); numbers are integers. *)
Inductive json : Type :=
| JNull
| JBool (b : bool)
| JInt (n : Z)
| JStr (s : string)
| JList (l : list json)
| JDict (kv : list (string * json)).

(** What a path of the data folder holds: text that is not JSON, or a
    document. A name the folder does not map is a file that is absent. *)
Inductive file : Type :=
| Malformed
| Json (j : json).

Definition folder : Type := string → option file.

(** [os.path.exists(os.path.join(folder_path, name))] *)
Definition exists_ (dir : folder) (name : string) : bool :=
  match dir name with Some _ => true | None => false end.

(** [with open(path) as f: data = json.load(f)] *)
Definition open_json (dir : folder) (name : string) : result json :=
  match dir name with
  | None => Raise FileNotFoundError
  | Some Malformed => Raise JSONDecodeError
  | Some (Json j) => Ok j
  end.

(** [list(data.values())[0]] *)
Definition values_first (data : json) : result json :=
  match data with
  | JDict [] => Raise IndexError
  | JDict ((_, v) :: _) => Ok v
  | _ => Raise AttributeError
  end.

(** [len(x)]: only lists, dictionaries and strings have a length. *)
Definition py_len (x : json) : result Z :=
  match x with
  | JList l => Ok (Z.of_nat (length l))
  | JDict kv => Ok (Z.of_nat (length kv))
  | JStr s => Ok (Z.of_nat (String.length s))
  | _ => Raise TypeError
  end.

Fixpoint chars (s : string) : list json :=
  match s with
  | EmptyString => []
  | String c s' => JStr (String c EmptyString) :: chars s'
  end.

(** [for item in x]: a list yields its items, a dictionary its keys, a
    string its characters. *)
Definition py_iter (x : json) : result (list json) :=
  match x with
  | JList l => Ok l
  | JDict kv => Ok (JStr <$> kv.*1)
  | JStr s => Ok (chars s)
  | _ => Raise TypeError
  end.

Fixpoint assoc {V} (k : string) (kv : list (string * V)) : option V :=
  match kv with
  | [] => None
  | (k', v) :: kv' => if decide (k = k') then Some v else assoc k kv'
  end.

(** [item[key]] for a string key. *)
Definition getitem (item : json) (key : string) : result json :=
  match item with
  | JDict kv => match assoc key kv with Some v => Ok v | None => Raise KeyError end
  | _ => Raise TypeError
  end.

(** [item.get(key)] on a dictionary. *)
Definition get_or_null (kv : list (string * json)) (key : string) : json :=
  default JNull (assoc key kv).

(** Fields are read at the types the dataclasses declare. Python stores
    whatever the document holds; a value of another JSON type is outside
    the typed model and is made to fail like a missing key does. *)
Definition as_int (x : json) : result Z :=
  match x with JInt n => Ok n | _ => Raise TypeError end.
Definition as_str (x : json) : result string :=
  match x with JStr s => Ok s | _ => Raise TypeError end.
Definition as_opt_int (x : json) : result (option Z) :=
  match x with JInt n => Ok (Some n) | JNull => Ok None | _ => Raise TypeError end.
Definition as_opt_str (x : json) : result (option string) :=
  match x with JStr s => Ok (Some s) | JNull => Ok None | _ => Raise TypeError end.

(** One [<trans-unit>] of a translation file: its [id] attribute (the
    empty string when there is none) and the text of its [<source>] and
    [<target>] children; [None] is a missing element, [Some None] an
    element without text. *)
Record trans_unit : Type := mk_unit {
  unit_id : string;
  source_elem : option (option string);
  target_elem : option (option string)
}.

(** A translation file: not well-formed XML ([ET.ParseError]), or its
    trans-units in document order. *)
Inductive xliff_file : Type :=
| NotXml
| Xliff (trans_units : list trans_unit).

Definition xliff_folder : Type := string → option xliff_file.

(** [int(s)] on ASCII text: surrounding whitespace, an optional sign,
    decimal digits, single underscores between digits. *)
Fixpoint int_digits (acc : Z) (after_digit : bool) (s : string) : option Z :=
  match s with
  | EmptyString => if after_digit then Some acc else None
  | String c s' =>
      if is_digit c then
        int_digits (10 * acc + (Z.of_N (byte_of c) - 48)) true s'
      else if decide (c = "_"%char) then
        if after_digit then int_digits acc false s' else None
      else None
  end.

Definition py_int (s : string) : option Z :=
  match strip s with
  | String "+"%char r => int_digits 0 false r
  | String "-"%char r => Z.opp <$> int_digits 0 false r
  | r => int_digits 0 false r
  end.

(** ** Python's stable sort *)

(** [sorted(l, key=key)]: each element goes after the elements already
    placed whose key is not greater, so equal keys keep their order. *)
Fixpoint insert_by {A K} (lt : K → K → bool) (key : A → K) (x : A) (l : list A) : list A :=
  match l with
  | [] => [x]
  | y :: l' => if lt (key x) (key y) then x :: y :: l' else y :: insert_by lt key x l'
  end.

Definition sorted {A K} (lt : K → K → bool) (key : A → K) (l : list A) : list A :=
  foldl (λ acc x, insert_by lt key x acc) [] l.

(** ** Iteration order of a Python [set]

    [list(set(xs))] holds each distinct element of [xs] once, in an order
    the language leaves open. *)
Class SetOrder : Type := {
  list_of_set : ∀ {A} `{EqDecision A}, list A → list A;
  list_of_set_NoDup : ∀ {A} `{EqDecision A} (l : list A), NoDup (list_of_set l);
  elem_of_list_of_set : ∀ {A} `{EqDecision A} (l : list A) x, x ∈ list_of_set l ↔ x ∈ l
}.

(** One such order: first occurrence. *)
Definition first_occurrence : SetOrder :=
  {| list_of_set A _ l := remove_dups l;
     list_of_set_NoDup A _ l := NoDup_remove_dups l;
     elem_of_list_of_set A _ l x := elem_of_remove_dups l x |}.

(** ** Translation files (XLIFF mode, both variants) *)

Module Xliff.

(** The keys of [xliff_files]. Its only caller, [generate_html_threaded],
    builds the dictionary with the keys ['fr-en'], ['fr-es'], ['fr-pt'],
    in that order, and drops the entries without a file name. *)
Inductive lang_pair : Set := fr_en | fr_es | fr_pt.

(** [lang_pair.split('-')[1]] *)
Definition target_lang (p : lang_pair) : lang :=
  match p with fr_en => en | fr_es => es | fr_pt => pt end.

(** The inner dictionaries of [xliff_translations]: language code to text. *)
Definition translation : Type := list (lang * string).

Fixpoint tr_get (l : lang) (t : translation) : option string :=
  match t with
  | [] => None
  | (l', s) :: t' => if decide (l = l') then Some s else tr_get l t'
  end.

Fixpoint tr_set (l : lang) (s : string) (t : translation) : translation :=
  match t with
  | [] => [(l, s)]
  | (l', s') :: t' => if decide (l = l') then (l, s) :: t' else (l', s') :: tr_set l s t'
  end.

(** [self.xliff_translations], with its three keys as fields. *)
Record tables : Type := mk_tables {
  npc_names : dict translation;
  messages : dict translation;
  replies : dict translation
}.

Definition empty : tables := mk_tables [] [] [].

(** The three kinds of entry, [parts[2]] of a unit id. *)
Inductive entry_type : Set := name | message | reply.

Definition table (ty : entry_type) (t : tables) : dict translation :=
  match ty with
  | name => npc_names t
  | message => messages t
  | reply => replies t
  end.

Definition with_table (ty : entry_type) (v : dict translation) (t : tables) : tables :=
  match ty with
  | name => mk_tables v (messages t) (replies t)
  | message => mk_tables (npc_names t) v (replies t)
  | reply => mk_tables (npc_names t) (messages t) v
  end.

Definition entry_type_of (s : string) : option entry_type :=
  if decide (s = "name") then Some name
  else if decide (s = "message") then Some message
  else if decide (s = "reply") then Some reply
  else None.

(** What each of the three branches on [entry_type] does to its table:
    the first unit seen for an id records the French text, every unit
    records its target text under the file's language. *)
Definition store (entity_id : Z) (source_text target_text : string)
    (tl : lang) (d : dict translation) : dict translation :=
  let d :=
    if dict_mem entity_id d then d
    else dict_set entity_id [(fr, source_text)] d in
  dict_update entity_id (tr_set tl target_text) d.

(** What a trans-unit contributes, if anything: the kind of entry, the
    numeric id, the cleaned source text and the target text. *)
Definition parse_unit (clean : string → string) (u : trans_unit)
    : option (entry_type * Z * string * string) :=
  if startswith "npc." (unit_id u) then
    match source_elem u, target_elem u with
    | Some source, Some target =>
        let source_text := default EmptyString source in
        let target_text := default EmptyString target in
        let source_text := clean source_text in
        match split_on "."%char (unit_id u) with
        | _ :: entity_id :: entry_type :: _ =>
            match py_int entity_id with
            | None => None
            | Some entity_id_int =>
                ty ← entry_type_of entry_type;
                Some (ty, entity_id_int, source_text, target_text)
            end
        | _ => None
        end
    | _, _ => None
    end
  else None.

(** The body of the loop over the trans-units of one file. *)
Definition load_unit (clean : string → string) (tl : lang) (t : tables)
    (u : trans_unit) : tables :=
  match parse_unit clean u with
  | Some (ty, entity_id_int, source_text, target_text) =>
      with_table ty (store entity_id_int source_text target_text tl (table ty t)) t
  | None => t
  end.

(** The body of the loop over [xliff_files.items()]: a file that is
    absent or does not parse is passed over. *)
Definition load_file (clean : string → string) (dir : xliff_folder) (t : tables)
    (entry : lang_pair * string) : tables :=
  match dir entry.2 with
  | None => t
  | Some NotXml => t
  | Some (Xliff trans_units) => foldl (load_unit clean (target_lang entry.1)) t trans_units
  end.

Definition load (clean : string → string) (dir : xliff_folder)
    (xliff_files : list (lang_pair * string)) (t : tables) : tables :=
  foldl (load_file clean dir) t xliff_files.

End Xliff.

(** * The fixed variant: [npc_dialog_mapper_gui_fixed.pyw] *)

Module Fixed.

(** The values of [_reply_relationships]. *)
Record relationship : Type := mk_relationship {
  rel_parent_message_id : Z;
  rel_leads_to_message_id : option Z;
  rel_context : option string
}.

(** The fields of an [NPCDialogMapper]. [_reply_relationships] is [None]
    while the attribute does not exist. The two folders are arguments of
    the functions that read them. *)
Record mapper : Type := mk_mapper {
  use_xliff : bool;
  xliff_files : list (Xliff.lang_pair * string);
  npcs : dict NPC.t;
  messages : dict NPCMessage.t;
  replies : dict NPCReply.t;
  dialogs : list NPCDialog.t;
  metadata : list NPCMetadata.t;
  xliff_translations : Xliff.tables;
  _reply_relationships : option (dict relationship)
}.

(** [__init__] *)
Definition init (use_xliff : bool) (xliff_files : list (Xliff.lang_pair * string)) : mapper :=
  mk_mapper use_xliff xliff_files [] [] [] [] [] Xliff.empty None.

Definition with_npcs (v : dict NPC.t) (self : mapper) : mapper :=
  mk_mapper (use_xliff self) (xliff_files self) v (messages self) (replies self)
    (dialogs self) (metadata self) (xliff_translations self) (_reply_relationships self).
Definition with_messages (v : dict NPCMessage.t) (self : mapper) : mapper :=
  mk_mapper (use_xliff self) (xliff_files self) (npcs self) v (replies self)
    (dialogs self) (metadata self) (xliff_translations self) (_reply_relationships self).
Definition with_replies (v : dict NPCReply.t) (self : mapper) : mapper :=
  mk_mapper (use_xliff self) (xliff_files self) (npcs self) (messages self) v
    (dialogs self) (metadata self) (xliff_translations self) (_reply_relationships self).
Definition with_dialogs (v : list NPCDialog.t) (self : mapper) : mapper :=
  mk_mapper (use_xliff self) (xliff_files self) (npcs self) (messages self)
    (replies self) v (metadata self) (xliff_translations self) (_reply_relationships self).
Definition with_metadata (v : list NPCMetadata.t) (self : mapper) : mapper :=
  mk_mapper (use_xliff self) (xliff_files self) (npcs self) (messages self)
    (replies self) (dialogs self) v (xliff_translations self) (_reply_relationships self).
Definition with_xliff_translations (v : Xliff.tables) (self : mapper) : mapper :=
  mk_mapper (use_xliff self) (xliff_files self) (npcs self) (messages self)
    (replies self) (dialogs self) (metadata self) v (_reply_relationships self).
Definition with_reply_relationships (v : option (dict relationship)) (self : mapper) : mapper :=
  mk_mapper (use_xliff self) (xliff_files self) (npcs self) (messages self)
    (replies self) (dialogs self) (metadata self) (xliff_translations self) v.

(** *** [_clean_source_text]

    [re.sub(r'^\[wait_mod_[^\]]+\]\s*', '', text)], then [.strip()]. *)

(** [[^\]]+\]] at the head of [s]: the text after the first [']'], when
    at least one other character comes before it. *)
Fixpoint after_bracket (seen : bool) (s : string) : option string :=
  match s with
  | EmptyString => None
  | String c s' =>
      if decide (c = "]"%char) then (if seen then Some s' else None)
      else after_bracket true s'
  end.

Fixpoint drop_prefix (p s : string) : option string :=
  match p, s with
  | EmptyString, _ => Some s
  | String a p', String b s' => if decide (a = b) then drop_prefix p' s' else None
  | String _ _, EmptyString => None
  end.

Definition _clean_source_text (text : string) : string :=
  let cleaned :=
    match drop_prefix "[wait_mod_" text ≫= after_bracket false with
    | Some rest => lstrip rest
    | None => text
    end in
  strip cleaned.

(** *** [_load_xliff_translations] *)

Definition _load_xliff_translations (dir : xliff_folder) (self : mapper) : mapper :=
  with_xliff_translations
    (Xliff.load _clean_source_text dir (xliff_files self) (xliff_translations self)) self.

(** *** The JSON loaders *)

Definition dialog_of_json (dialog : json) : result NPCDialog.t :=
  dialog_id ← getitem dialog "dialog_id" ≫= as_int;
  npc_id ← getitem dialog "dialog_npc_id" ≫= as_int;
  message_id ← getitem dialog "dialog_message_id" ≫= as_int;
  check_order ← getitem dialog "dialog_message_check_order" ≫= as_int;
  Ok (NPCDialog.mk dialog_id npc_id message_id check_order).

Definition append_dialog (self : mapper) (dialog : json) : result mapper :=
  dialog_obj ← dialog_of_json dialog;
  Ok (with_dialogs (dialogs self ++ [dialog_obj]) self).

Definition add_relationship (rels : dict relationship) (reply : json)
    : result (dict relationship) :=
  parent ← getitem reply "reply_parent_id" ≫= as_int;
  leads_to ← getitem reply "reply_message_id" ≫= as_opt_int;
  context ← getitem reply "reply_i18n_context" ≫= as_opt_str;
  reply_id ← getitem reply "reply_id" ≫= as_int;
  Ok (dict_set reply_id (mk_relationship parent leads_to context) rels).

(** No file check and no handler here: every exception leaves the
    function. *)
Definition _load_structure_from_json (dir : folder) (self : mapper) : result mapper :=
  data ← open_json dir "export_npc_dialog_json.json";
  dialog_data ← values_first data;
  items ← py_iter dialog_data;
  self ← for_each append_dialog items self;
  data ← open_json dir "export_npc_reply_json.json";
  reply_data ← values_first data;
  items ← py_iter reply_data;
  rels ← for_each add_relationship items [];
  Ok (with_reply_relationships (Some rels) self).

Definition npc_of_translations (npc_id : Z) (translations : Xliff.translation) : NPC.t :=
  NPC.mk npc_id (default EmptyString (Xliff.tr_get fr translations))
    (Xliff.tr_get en translations) (Xliff.tr_get es translations)
    (Xliff.tr_get pt translations) None [] [] [].

Definition message_of_translations (msg_id : Z) (translations : Xliff.translation)
    : NPCMessage.t :=
  NPCMessage.mk msg_id (default EmptyString (Xliff.tr_get fr translations))
    (Xliff.tr_get en translations) (Xliff.tr_get es translations)
    (Xliff.tr_get pt translations) None [].

(** [relationship = self._reply_relationships.get(reply_id, {})] and the
    three [.get] on it. *)
Definition reply_of_translations (rels : dict relationship) (reply_id : Z)
    (translations : Xliff.translation) : NPCReply.t :=
  let relationship := dict_get reply_id rels in
  NPCReply.mk reply_id (default EmptyString (Xliff.tr_get fr translations))
    (Xliff.tr_get en translations) (Xliff.tr_get es translations)
    (Xliff.tr_get pt translations)
    (relationship ≫= rel_context)
    (default 0 (rel_parent_message_id <$> relationship))
    (relationship ≫= rel_leads_to_message_id).

Definition _merge_xliff_with_structure (self : mapper) : result mapper :=
  let self := foldl (λ self kv, with_npcs
                 (dict_set kv.1 (npc_of_translations kv.1 kv.2) (npcs self)) self)
               self (Xliff.npc_names (xliff_translations self)) in
  let self := foldl (λ self kv, with_messages
                 (dict_set kv.1 (message_of_translations kv.1 kv.2) (messages self)) self)
               self (Xliff.messages (xliff_translations self)) in
  match _reply_relationships self with
  | None => Raise AttributeError
  | Some rels =>
      let self := foldl (λ self kv, with_replies
                     (dict_set kv.1 (reply_of_translations rels kv.1 kv.2) (replies self)) self)
                   self (Xliff.replies (xliff_translations self)) in
      Ok (with_reply_relationships None self)
  end.

Definition metadata_of_json (item : json) : result NPCMetadata.t :=
  index_id ← getitem item "indexID" ≫= as_int;
  gender ← getitem item "gender" ≫= as_int;
  look ← getitem item "look" ≫= as_str;
  img_url ← getitem item "img" ≫= as_str;
  metadata_id ← getitem item "id" ≫= as_str;
  name_en ← getitem item "en" ≫= as_str;
  name_pt ← getitem item "pt" ≫= as_str;
  name_es ← getitem item "es" ≫= as_str;
  name_fr ← getitem item "fr" ≫= as_str;
  name_de ← getitem item "de" ≫= as_str;
  Ok (NPCMetadata.mk index_id gender look img_url metadata_id
        name_en name_pt name_es name_fr name_de).

(** The loop of [_load_metadata]: the handler around it swallows the
    first exception, and the entries appended before it stay. *)
Fixpoint append_metadata (items : list json) (acc : list NPCMetadata.t) : list NPCMetadata.t :=
  match items with
  | [] => acc
  | item :: items' =>
      match metadata_of_json item with
      | Ok m => append_metadata items' (acc ++ [m])
      | Raise _ => acc
      end
  end.

Definition _load_metadata (dir : folder) (self : mapper) : mapper :=
  if negb (exists_ dir "npcs_Dofus3-03_202508.json") then self
  else
    match open_json dir "npcs_Dofus3-03_202508.json" ≫= py_iter with
    | Ok items => with_metadata (append_metadata items (metadata self)) self
    | Raise _ => self
    end.

Definition npc_of_json (npc : json) : result NPC.t :=
  npc_id ← getitem npc "npc_id" ≫= as_int;
  name_fr ← getitem npc "npc_name_fr" ≫= as_str;
  name_en ← getitem npc "npc_name_en" ≫= as_opt_str;
  name_es ← getitem npc "npc_name_es" ≫= as_opt_str;
  name_pt ← getitem npc "npc_name_pt" ≫= as_opt_str;
  context ← getitem npc "context" ≫= as_opt_str;
  Ok (NPC.mk npc_id name_fr name_en name_es name_pt context [] [] []).

(** [try: ... except Exception as e: print(...); raise]: the handler
    re-raises, so each of the four loaders fails when its file is absent. *)
Definition _load_npcs (dir : folder) (self : mapper) : result mapper :=
  data ← open_json dir "export_npc_json.json";
  npc_data ← values_first data;
  _ ← py_len npc_data;
  items ← py_iter npc_data;
  for_each (λ self npc,
      n ← npc_of_json npc;
      Ok (with_npcs (dict_set (NPC.npc_id n) n (npcs self)) self))
    items self.

Definition message_of_json (msg : json) : result NPCMessage.t :=
  message_id ← getitem msg "message_id" ≫= as_int;
  text_fr ← getitem msg "message_text_fr" ≫= as_str;
  text_en ← getitem msg "message_text_en" ≫= as_opt_str;
  text_es ← getitem msg "message_text_es" ≫= as_opt_str;
  text_pt ← getitem msg "message_text_pt" ≫= as_opt_str;
  context ← getitem msg "message_i18n_context" ≫= as_opt_str;
  Ok (NPCMessage.mk message_id text_fr text_en text_es text_pt context []).

Definition _load_messages (dir : folder) (self : mapper) : result mapper :=
  data ← open_json dir "export_npc_message_json.json";
  message_data ← values_first data;
  _ ← py_len message_data;
  items ← py_iter message_data;
  for_each (λ self msg,
      m ← message_of_json msg;
      Ok (with_messages (dict_set (NPCMessage.message_id m) m (messages self)) self))
    items self.

Definition reply_of_json (reply : json) : result NPCReply.t :=
  reply_id ← getitem reply "reply_id" ≫= as_int;
  text_fr ← getitem reply "reply_text_fr" ≫= as_str;
  text_en ← getitem reply "reply_text_en" ≫= as_opt_str;
  text_es ← getitem reply "reply_text_es" ≫= as_opt_str;
  text_pt ← getitem reply "reply_text_pt" ≫= as_opt_str;
  context ← getitem reply "reply_i18n_context" ≫= as_opt_str;
  parent ← getitem reply "reply_parent_id" ≫= as_int;
  leads_to ← getitem reply "reply_message_id" ≫= as_opt_int;
  Ok (NPCReply.mk reply_id text_fr text_en text_es text_pt context parent leads_to).

Definition _load_replies (dir : folder) (self : mapper) : result mapper :=
  data ← open_json dir "export_npc_reply_json.json";
  reply_data ← values_first data;
  _ ← py_len reply_data;
  items ← py_iter reply_data;
  for_each (λ self reply,
      r ← reply_of_json reply;
      Ok (with_replies (dict_set (NPCReply.reply_id r) r (replies self)) self))
    items self.

Definition _load_dialogs (dir : folder) (self : mapper) : result mapper :=
  data ← open_json dir "export_npc_dialog_json.json";
  dialog_data ← values_first data;
  _ ← py_len dialog_data;
  items ← py_iter dialog_data;
  for_each append_dialog items self.

(** *** [_build_relationships] *)

Definition link_dialog (npcs : dict NPC.t) (dialog : NPCDialog.t) : dict NPC.t :=
  if dict_mem (NPCDialog.npc_id dialog) npcs then
    dict_update (NPCDialog.npc_id dialog)
      (λ n, NPC.set_dialogs (NPC.dialogs n ++ [dialog]) n) npcs
  else npcs.

(** [npc.dialogs.sort(key=lambda d: d.check_order)] *)
Definition sort_dialogs (n : NPC.t) : NPC.t :=
  NPC.set_dialogs (sorted Z.ltb NPCDialog.check_order (NPC.dialogs n)) n.

Definition link_reply (messages : dict NPCMessage.t) (reply : NPCReply.t) : dict NPCMessage.t :=
  if dict_mem (NPCReply.parent_message_id reply) messages then
    dict_update (NPCReply.parent_message_id reply) (NPCMessage.append_reply reply) messages
  else messages.

Definition _build_relationships (self : mapper) : mapper :=
  let self := with_npcs (foldl link_dialog (npcs self) (dialogs self)) self in
  let self := with_npcs (prod_map id sort_dialogs <$> npcs self) self in
  with_messages (foldl link_reply (messages self) (dict_values (replies self))) self.

(** *** [_match_metadata_with_npcs] *)

(** [metadata_by_name[name].append(meta)] on the [defaultdict(list)]. *)
Fixpoint group_append (name : string) (meta : NPCMetadata.t)
    (groups : list (string * list NPCMetadata.t)) : list (string * list NPCMetadata.t) :=
  match groups with
  | [] => [(name, [meta])]
  | (name', metas) :: groups' =>
      if decide (name = name') then (name', metas ++ [meta]) :: groups'
      else (name', metas) :: group_append name meta groups'
  end.

Definition metadata_by_name (metadata : list NPCMetadata.t)
    : list (string * list NPCMetadata.t) :=
  foldl (λ groups meta, group_append (NPCMetadata.name_fr meta) meta groups) [] metadata.

Section Matching.
Context `{SetOrder}.

Definition match_npc (groups : list (string * list NPCMetadata.t)) (npc : NPC.t) : NPC.t :=
  match assoc (NPC.name_fr npc) groups with
  | Some matches =>
      let unique_genders := list_of_set (NPCMetadata.gender <$> matches) in
      let unique_img_urls := list_of_set (NPCMetadata.img_url <$> matches) in
      NPC.set_matches unique_genders unique_img_urls npc
  | None => npc
  end.

Definition _match_metadata_with_npcs (self : mapper) : mapper :=
  let groups := metadata_by_name (metadata self) in
  with_npcs (prod_map id (match_npc groups) <$> npcs self) self.

(** *** [load_data] *)

Definition load_data (dir : folder) (xdir : xliff_folder) (self : mapper) : result mapper :=
  let self := _load_metadata dir self in
  self ←
    (if use_xliff self then
       let self := _load_xliff_translations xdir self in
       self ← _load_structure_from_json dir self;
       _merge_xliff_with_structure self
     else
       self ← _load_npcs dir self;
       self ← _load_messages dir self;
       self ← _load_replies dir self;
       _load_dialogs dir self);
  let self := _build_relationships self in
  Ok (_match_metadata_with_npcs self).

End Matching.

(** *** [_format_text_with_null_check] *)

Definition null_value : string :=
  "<span " +:+ attr "class" "null-value" +:+ ">NULL ⚠️</span>".

Definition _format_text_with_null_check (text : option string) : string :=
  match text with
  | None => null_value
  | Some EmptyString => null_value
  | Some text => replace_char "013"%char EmptyString (replace_char "010"%char "<br>" text)
  end.

(** *** [_generate_dialog_tree] *)

(** [max_level = 15  # Maximum visual indentation level] *)
Definition max_level : Z := 15.

(** [f'<span class="depth-badge">Depth: {level}</span>' if level > max_level else ''] *)
Definition badge (level : Z) : option Z :=
  if decide (level > max_level) then Some level else None.

(** [x if x else None] for [reply.leads_to_message_id]: [None] and [0]
    are false. *)
Definition truthy (x : option Z) : option Z :=
  match x with
  | Some 0 => None
  | _ => x
  end.

(** [reply.leads_to_message_id and reply.leads_to_message_id in
    self.messages], and then [self.messages[reply.leads_to_message_id]]. *)
Definition lookup_next (messages : dict NPCMessage.t) (reply : NPCReply.t)
    : option NPCMessage.t :=
  target ← truthy (NPCReply.leads_to_message_id reply);
  dict_get target messages.

(** [visited.copy()]: the callee works on a set of its own, and what it
    does to it is not seen by the caller. *)
Definition copy (visited : gset Z) : gset Z := visited.

Definition message_rows (message : NPCMessage.t) : lang_rows :=
  mk_rows (_format_text_with_null_check (Some (NPCMessage.text_fr message)))
          (_format_text_with_null_check (NPCMessage.text_en message))
          (_format_text_with_null_check (NPCMessage.text_es message))
          (_format_text_with_null_check (NPCMessage.text_pt message)).

Definition reply_rows_of (reply : NPCReply.t) : lang_rows :=
  mk_rows (_format_text_with_null_check (Some (NPCReply.text_fr reply)))
          (_format_text_with_null_check (NPCReply.text_en reply))
          (_format_text_with_null_check (NPCReply.text_es reply))
          (_format_text_with_null_check (NPCReply.text_pt reply)).

(** The recursion is on [fuel], the number of nested calls allowed; the
    result is [None] when they do not suffice. Besides the markup the
    function returns the [visited] set as the call leaves it, which is
    the caller's own set: the set is added to, handed down as a copy, and
    removed from before returning. *)
Fixpoint _generate_dialog_tree (fuel : nat) (messages : dict NPCMessage.t)
    (message : NPCMessage.t) (dialog : NPCDialog.t) (level : Z)
    (visited : gset Z) : option (html * gset Z) :=
  match fuel with
  | O => None
  | S fuel' =>
      if decide (NPCMessage.message_id message ∈ visited) then
        Some (MessageRef (NPCMessage.message_id message), visited)
      else
        let visited := visited ∪ {[NPCMessage.message_id message]} in
        let visual_level := Z.min level max_level in
        replies_html ← mapM (λ reply,
            let reply_visual_level := Z.min (level + 1) max_level in
            nested ←
              match lookup_next messages reply with
              | Some next_message =>
                  '(h, _) ← _generate_dialog_tree fuel' messages next_message dialog
                              (level + 2) (copy visited);
                  Some (Some h)
              | None => Some None
              end;
            Some (mk_reply_div reply_visual_level (NPCReply.reply_id reply)
                    (level + 1) (badge (level + 1))
                    (truthy (NPCReply.leads_to_message_id reply))
                    (reply_rows_of reply) nested))
          (NPCMessage.replies message);
        Some (MessageDiv visual_level (NPCMessage.message_id message) level
                (badge level) (message_rows message) replies_html,
              visited ∖ {[NPCMessage.message_id message]})
  end.

(** Nested calls that always suffice: two more than there are messages. *)
Definition enough_fuel (messages : dict NPCMessage.t) : nat :=
  S (S (length messages)).

(** A call from outside: [self._generate_dialog_tree(message, dialog,
    level, visited)], keeping the markup. *)
Definition dialog_tree (messages : dict NPCMessage.t) (message : NPCMessage.t)
    (dialog : NPCDialog.t) (level : Z) (visited : gset Z) : option html :=
  fst <$> _generate_dialog_tree (enough_fuel messages) messages message dialog level visited.

(** *** The text of the tree *)

Definition nl : string := String "010"%char EmptyString.

Fixpoint spaces (n : nat) : string :=
  match n with
  | O => EmptyString
  | S n' => String " "%char (spaces n')
  end.

(** One line of a template: indentation, text, end of line. *)
Definition ln (n : nat) (s : string) : string := spaces n +:+ s +:+ nl.

Definition div_open (class : string) : string :=
  "<div " +:+ attr "class" class +:+ ">".

Definition lang_row (n : nat) (label text : string) : string :=
  ln n (div_open "lang-row") +:+
  ln (n + 4) ("<span " +:+ attr "class" "lang-label" +:+ ">" +:+ label +:+ ":</span> " +:+ text) +:+
  ln n "</div>".

Definition lang_rows_text (n : nat) (rows : lang_rows) : string :=
  lang_row n "FR" (row_fr rows) +:+ lang_row n "EN" (row_en rows) +:+
  lang_row n "ES" (row_es rows) +:+ lang_row n "PT" (row_pt rows).

Definition badge_text (b : option Z) : string :=
  match b with
  | Some level => "<span " +:+ attr "class" "depth-badge" +:+ ">Depth: " +:+ str_of_int level +:+ "</span>"
  | None => EmptyString
  end.

Definition message_ref_text (target : Z) : string :=
  div_open "message-ref" +:+ "↺ Reference to Message ID: " +:+ str_of_int target +:+ "</div>".

Definition message_head_text (v i d : Z) (b : option Z) (rows : lang_rows) : string :=
  nl +:+
  ln 8 ("<div " +:+ attr "class" ("message collapsible depth-" +:+ str_of_int v) +:+ " " +:+
        attr "data-message-id" (str_of_int i) +:+ " " +:+
        attr "data-depth" (str_of_int d) +:+ ">") +:+
  ln 12 (div_open "message-header clickable-header") +:+
  ln 16 (badge_text b) +:+
  ln 16 ("<strong>💬 Message ID: " +:+ str_of_int i +:+ "</strong>") +:+
  ln 16 ("<span " +:+ attr "class" "collapse-indicator" +:+ ">−</span>") +:+
  ln 12 "</div>" +:+
  ln 12 (div_open "message-content collapsible-content") +:+
  lang_rows_text 16 rows +:+
  ln 12 "</div>" +:+
  spaces 8.

Definition reply_head_text (r : reply_div html) : string :=
  nl +:+
  ln 16 ("<div " +:+ attr "class" ("reply collapsible-nested depth-" +:+
                                   str_of_int (reply_visual_level r)) +:+ " " +:+
         attr "data-reply-id" (str_of_int (data_reply_id r)) +:+ " " +:+
         attr "data-depth" (str_of_int (reply_data_depth r)) +:+ ">") +:+
  ln 20 (div_open "reply-header") +:+
  ln 24 (badge_text (reply_depth_badge r)) +:+
  ln 24 ("<strong>↪️ Reply ID: " +:+ str_of_int (data_reply_id r) +:+ "</strong>") +:+
  ln 24 (match leads_to_label r with
         | Some target => " → Message ID: " +:+ str_of_int target
         | None => EmptyString
         end) +:+
  ln 20 "</div>" +:+
  ln 20 (div_open "reply-content") +:+
  lang_rows_text 24 (reply_rows r) +:+
  ln 20 "</div>" +:+
  spaces 16.

Fixpoint html_text (h : html) : string :=
  match h with
  | MessageRef target => message_ref_text target
  | MessageDiv v i d b rows rs =>
      message_head_text v i d b rows +:+
      match rs with
      | [] => EmptyString
      | _ =>
          div_open "replies collapsible-nested" +:+
          string_concat ((λ r,
            reply_head_text r +:+
            match nested_messages r with
            | Some c => div_open "nested-messages" +:+ html_text c +:+ "</div>"
            | None => EmptyString
            end +:+
            "</div>") <$> rs) +:+
          "</div>"
      end +:+
      "</div>"
  end.

(** *** [_generate_npc_card] *)

(** One [dialog-container] block. *)
Record dialog_container : Type := mk_container {
  container_dialog_id : Z;
  container_check_order : Z;
  container_tree : html
}.

(** One [npc-card] block. *)
Record npc_card : Type := mk_card {
  data_npc_id : Z;
  img_data_attr : string;
  card_name_fr : string;
  card_names : lang_rows;
  gender_info : string;
  card_context : option string;
  card_dialogs : list dialog_container
}.

Definition gender_item (gender : Z) : list string :=
  if decide (gender = 0) then ["<span " +:+ attr "class" "gender-male" +:+ ">Male</span>"]
  else if decide (gender = 1) then ["<span " +:+ attr "class" "gender-female" +:+ ">Female</span>"]
  else if decide (gender = 2) then ["<span " +:+ attr "class" "gender-undefined" +:+ ">Undefined</span>"]
  else [].

Definition gender_info_of (genders : list Z) : string :=
  match genders with
  | [] => EmptyString
  | _ => div_open "npc-gender" +:+ "<strong>Gender:</strong> " +:+
         join ", " (genders ≫= gender_item) +:+ "</div>"
  end.

Definition img_data_attr_of (img_urls : list string) : string :=
  match img_urls with
  | [] => EmptyString
  | _ => attr "data-img-urls" (join "|" img_urls)
  end.

(** The loop over [npc.dialogs]: a dialog whose message is not loaded
    adds nothing. *)
Definition dialog_containers (messages : dict NPCMessage.t) (npc : NPC.t)
    : option (list dialog_container) :=
  mjoin <$> mapM (λ dialog,
      match dict_get (NPCDialog.message_id dialog) messages with
      | Some message =>
          dialog_html ← dialog_tree messages message dialog 0 ∅;
          Some [mk_container (NPCDialog.dialog_id dialog)
                  (NPCDialog.check_order dialog) dialog_html]
      | None => Some []
      end) (NPC.dialogs npc).

Definition _generate_npc_card (self : mapper) (npc : NPC.t) : option npc_card :=
  dialogs_html ← dialog_containers (messages self) npc;
  Some (mk_card (NPC.npc_id npc) (img_data_attr_of (NPC.img_urls npc))
          (NPC.name_fr npc)
          (mk_rows (_format_text_with_null_check (Some (NPC.name_fr npc)))
                   (_format_text_with_null_check (NPC.name_en npc))
                   (_format_text_with_null_check (NPC.name_es npc))
                   (_format_text_with_null_check (NPC.name_pt npc)))
          (gender_info_of (NPC.genders npc))
          (match NPC.context npc with
           | Some EmptyString => None
           | c => c
           end)
          dialogs_html).

Definition container_text (c : dialog_container) : string :=
  nl +:+
  ln 16 (div_open "dialog-container collapsible") +:+
  ln 20 (div_open "dialog-header clickable-header") +:+
  ln 24 ("<strong>Dialog ID: " +:+ str_of_int (container_dialog_id c) +:+ "</strong> ") +:+
  ln 24 ("(Check Order: " +:+ str_of_int (container_check_order c) +:+ ")") +:+
  ln 24 ("<span " +:+ attr "class" "collapse-indicator" +:+ ">−</span>") +:+
  ln 20 "</div>" +:+
  ln 20 (div_open "collapsible-content") +:+
  ln 24 (html_text (container_tree c)) +:+
  ln 20 "</div>" +:+
  ln 16 "</div>" +:+
  spaces 16.

Definition card_text (c : npc_card) : string :=
  nl +:+
  ln 8 ("<div " +:+ attr "class" "npc-card collapsible" +:+ " " +:+
        attr "data-npc-id" (str_of_int (data_npc_id c)) +:+ " " +:+ img_data_attr c +:+ ">") +:+
  ln 12 (div_open "npc-header sticky-header") +:+
  ln 16 (div_open "header-content") +:+
  ln 20 ("<h2 " +:+ attr "class" "clickable-header" +:+ ">🧙‍♂️ " +:+ card_name_fr c +:+
         " <span " +:+ attr "class" "npc-id" +:+ ">(ID: " +:+ str_of_int (data_npc_id c) +:+
         ")</span> <span " +:+ attr "class" "collapse-indicator" +:+ ">−</span></h2>") +:+
  ln 20 (div_open "npc-info-grid collapsible-content") +:+
  ln 24 (div_open "npc-names") +:+
  lang_rows_text 28 (card_names c) +:+
  ln 24 "</div>" +:+
  ln 24 (div_open "npc-metadata") +:+
  ln 28 (gender_info c) +:+
  ln 28 (match card_context c with
         | Some context => div_open "npc-context" +:+ "<strong>Context:</strong> " +:+
                           context +:+ "</div>"
         | None => EmptyString
         end) +:+
  ln 24 "</div>" +:+
  ln 20 "</div>" +:+
  ln 16 "</div>" +:+
  ln 16 ("<div " +:+ attr "class" "npc-image-container" +:+ " " +:+
         attr "style" "display: none;" +:+ ">") +:+
  ln 20 ("<img " +:+ attr "class" "npc-image" +:+ " " +:+ attr "src" EmptyString +:+ " " +:+
         attr "alt" "NPC Image" +:+ " />") +:+
  ln 16 "</div>" +:+
  ln 12 "</div>" +:+
  ln 12 (div_open "dialogs collapsible-content") +:+
  ln 16 (string_concat (container_text <$> card_dialogs c)) +:+
  ln 12 "</div>" +:+
  ln 8 "</div>" +:+
  spaces 8.

(** *** [_generate_html_content] *)

(** [String.ltb], the order of [str] on the bytes of the text. *)
Definition str_lt (a b : string) : bool := String.ltb a b.

(** The NPCs that get a card, in the order of their cards:
    [sorted(self.npcs.values(), key=lambda x: x.name_fr.lower())] without
    those that have no dialog. *)
Definition card_npcs (self : mapper) : list NPC.t :=
  filter (λ npc, NPC.dialogs npc ≠ [])
    (sorted str_lt (λ x, lower (NPC.name_fr x)) (dict_values (npcs self))).

Definition npc_cards (self : mapper) : option (list npc_card) :=
  mapM (_generate_npc_card self) (card_npcs self).

(** The fixed text of the page template around its six interpolations,
    with the results of [_get_css_styles] and [_get_javascript]. None of
    it depends on the loaded data. *)
Record page_text : Type := mk_page_text {
  css_styles : string;
  javascript : string;
  before_css : string;
  before_npc_count : string;
  before_message_count : string;
  before_reply_count : string;
  before_cards : string;
  before_javascript : string;
  after_javascript : string
}.

Definition _generate_html_content (page : page_text) (self : mapper) : option string :=
  cards ← npc_cards self;
  let npc_cards_html := string_concat (card_text <$> cards) in
  Some (strip (
    before_css page +:+ css_styles page +:+
    before_npc_count page +:+
    str_of_int (Z.of_nat (length (filter (λ npc, NPC.dialogs npc ≠ []) (dict_values (npcs self))))) +:+
    before_message_count page +:+ str_of_int (Z.of_nat (length (messages self))) +:+
    before_reply_count page +:+ str_of_int (Z.of_nat (length (replies self))) +:+
    before_cards page +:+ npc_cards_html +:+
    before_javascript page +:+ javascript page +:+
    after_javascript page)).

End Fixed.

(** * The original variant: [npc_dialog_mapper_gui.pyw]

    Its loaders, relationship builder and metadata matcher. *)

Module Original.

(** The fields of an [NPCDialogMapper], and the lines starting with
    [Warning:] that its loaders have printed. *)
Record mapper : Type := mk_mapper {
  use_xliff : bool;
  xliff_files : list (Xliff.lang_pair * string);
  npcs : dict NPC.t;
  messages : dict NPCMessage.t;
  replies : dict NPCReply.t;
  dialogs : list NPCDialog.t;
  metadata : list NPCMetadata.t;
  xliff_translations : Xliff.tables;
  warnings : list string
}.

(** [__init__] *)
Definition init (use_xliff : bool) (xliff_files : list (Xliff.lang_pair * string)) : mapper :=
  mk_mapper use_xliff xliff_files [] [] [] [] [] Xliff.empty [].

Definition with_npcs (v : dict NPC.t) (self : mapper) : mapper :=
  mk_mapper (use_xliff self) (xliff_files self) v (messages self) (replies self)
    (dialogs self) (metadata self) (xliff_translations self) (warnings self).
Definition with_messages (v : dict NPCMessage.t) (self : mapper) : mapper :=
  mk_mapper (use_xliff self) (xliff_files self) (npcs self) v (replies self)
    (dialogs self) (metadata self) (xliff_translations self) (warnings self).
Definition with_replies (v : dict NPCReply.t) (self : mapper) : mapper :=
  mk_mapper (use_xliff self) (xliff_files self) (npcs self) (messages self) v
    (dialogs self) (metadata self) (xliff_translations self) (warnings self).
Definition with_dialogs (v : list NPCDialog.t) (self : mapper) : mapper :=
  mk_mapper (use_xliff self) (xliff_files self) (npcs self) (messages self)
    (replies self) v (metadata self) (xliff_translations self) (warnings self).
Definition with_metadata (v : list NPCMetadata.t) (self : mapper) : mapper :=
  mk_mapper (use_xliff self) (xliff_files self) (npcs self) (messages self)
    (replies self) (dialogs self) v (xliff_translations self) (warnings self).
Definition with_xliff_translations (v : Xliff.tables) (self : mapper) : mapper :=
  mk_mapper (use_xliff self) (xliff_files self) (npcs self) (messages self)
    (replies self) (dialogs self) (metadata self) v (warnings self).
(** [print("Warning: ...")] *)
Definition warn (line : string) (self : mapper) : mapper :=
  mk_mapper (use_xliff self) (xliff_files self) (npcs self) (messages self)
    (replies self) (dialogs self) (metadata self) (xliff_translations self)
    (warnings self ++ [line]).

(** *** [_clean_source_text]

    [re.sub(r'\[.*?\]', '', text)], then [.strip()]. A bracket opened
    and not closed on its line stays; [pending] is the text since the
    open bracket, last character first. *)
Fixpoint remove_bracketed (pending : option string) (s : string) : string :=
  match s with
  | EmptyString => default EmptyString (String.rev <$> pending)
  | String c s' =>
      match pending with
      | None =>
          if decide (c = "["%char) then remove_bracketed (Some (String c EmptyString)) s'
          else String c (remove_bracketed None s')
      | Some p =>
          if decide (c = "]"%char) then remove_bracketed None s'
          else if decide (c = "010"%char) then
            String.rev p +:+ String c (remove_bracketed None s')
          else remove_bracketed (Some (String c p)) s'
      end
  end.

Definition _clean_source_text (text : string) : string :=
  strip (remove_bracketed None text).

(** *** [_load_xliff_translations] *)

Definition _load_xliff_translations (dir : xliff_folder) (self : mapper) : mapper :=
  with_xliff_translations
    (Xliff.load _clean_source_text dir (xliff_files self) (xliff_translations self)) self.

(** *** The shape tests of the loaders *)

(** [not data], for a value that has a length. *)
Definition is_empty (data : json) : bool :=
  match data with
  | JList [] | JDict [] | JStr EmptyString => true
  | _ => false
  end.

(** [data[0]] *)
Definition first_entry (data : json) : result json :=
  match data with
  | JList (x :: _) => Ok x
  | JList [] => Raise IndexError
  | JDict _ => Raise KeyError
  | JStr (String c _) => Ok (JStr (String c EmptyString))
  | JStr EmptyString => Raise IndexError
  | _ => Raise TypeError
  end.

(** [isinstance(x, dict)] *)
Definition is_dict (x : json) : bool :=
  match x with JDict _ => true | _ => false end.

(** [item.get(key)] *)
Definition get (item : json) (key : string) : result json :=
  match item with
  | JDict kv => Ok (get_or_null kv key)
  | _ => Raise AttributeError
  end.

(** The common frame of [_load_npcs], [_load_messages], [_load_replies]
    and [_load_metadata]: an absent file is a warning; nothing that goes
    wrong while reading leaves the function; the records are read when
    the document is a list whose first entry is a dictionary, and a
    record that is not a dictionary or that fails is passed over. *)
Definition load_records (dir : folder) (file_name not_found empty : string)
    (add : mapper → json → result mapper) (self : mapper) : mapper :=
  if negb (exists_ dir file_name) then warn not_found self
  else
    let loaded :=
      data ← open_json dir file_name;
      _ ← py_len data;
      if is_empty data then Ok (warn empty self)
      else
        first ← first_entry data;
        if is_dict first then
          items ← py_iter data;
          Ok (foldl (λ self item,
                if negb (is_dict item) then self
                else match add self item with
                     | Ok self' => self'
                     | Raise _ => self
                     end) self items)
        else Ok self in
    match loaded with
    | Ok self' => self'
    | Raise _ => self
    end.

(** *** [_load_npcs], [_load_messages], [_load_replies] *)

Definition add_npc (self : mapper) (item : json) : result mapper :=
  npc_id ← getitem item "npc_id" ≫= as_int;
  name_fr ← getitem item "npc_name_fr" ≫= as_str;
  name_en ← get item "npc_name_en" ≫= as_opt_str;
  name_es ← get item "npc_name_es" ≫= as_opt_str;
  name_pt ← get item "npc_name_pt" ≫= as_opt_str;
  context ← get item "npc_contextual_speech" ≫= as_opt_str;
  Ok (with_npcs (dict_set npc_id
        (NPC.mk npc_id name_fr name_en name_es name_pt context [] [] []) (npcs self)) self).

Definition _load_npcs (dir : folder) (self : mapper) : mapper :=
  load_records dir "export_npc_json.json"
    "Warning: NPC file not found" "Warning: NPC file is empty" add_npc self.

Definition add_message (self : mapper) (item : json) : result mapper :=
  message_id ← getitem item "message_id" ≫= as_int;
  text_fr ← getitem item "message_fr" ≫= as_str;
  text_en ← get item "message_en" ≫= as_opt_str;
  text_es ← get item "message_es" ≫= as_opt_str;
  text_pt ← get item "message_pt" ≫= as_opt_str;
  context ← get item "message_criteria" ≫= as_opt_str;
  Ok (with_messages (dict_set message_id
        (NPCMessage.mk message_id text_fr text_en text_es text_pt context [])
        (messages self)) self).

Definition _load_messages (dir : folder) (self : mapper) : mapper :=
  load_records dir "export_npc_message_json.json"
    "Warning: Message file not found" "Warning: Message file is empty" add_message self.

Definition add_reply (self : mapper) (item : json) : result mapper :=
  reply_id ← getitem item "reply_id" ≫= as_int;
  text_fr ← getitem item "reply_fr" ≫= as_str;
  text_en ← get item "reply_en" ≫= as_opt_str;
  text_es ← get item "reply_es" ≫= as_opt_str;
  text_pt ← get item "reply_pt" ≫= as_opt_str;
  context ← get item "reply_criteria" ≫= as_opt_str;
  parent ← getitem item "reply_parent_id" ≫= as_int;
  leads_to ← get item "reply_message_id" ≫= as_opt_int;
  Ok (with_replies (dict_set reply_id
        (NPCReply.mk reply_id text_fr text_en text_es text_pt context parent leads_to)
        (replies self)) self).

Definition _load_replies (dir : folder) (self : mapper) : mapper :=
  load_records dir "export_npc_reply_json.json"
    "Warning: Reply file not found" "Warning: Reply file is empty" add_reply self.

(** *** [_load_dialogs] *)

Definition dialog_of_item (item : json) : result NPCDialog.t :=
  dialog_id ← getitem item "dialog_id" ≫= as_int;
  npc_id ← getitem item "dialog_npc_id" ≫= as_int;
  message_id ← getitem item "dialog_message_id" ≫= as_int;
  check_order ← getitem item "dialog_message_check_order" ≫= as_int;
  Ok (NPCDialog.mk dialog_id npc_id message_id check_order).

(** The loop over the items: one that fails is passed over. *)
Definition add_dialog (self : mapper) (item : json) : mapper :=
  match dialog_of_item item with
  | Ok dialog => with_dialogs (dialogs self ++ [dialog]) self
  | Raise _ => self
  end.

(** An absent file raises [FileNotFoundError]; what goes wrong while
    reading is raised again by the handler. *)
Definition _load_dialogs (dir : folder) (self : mapper) : result mapper :=
  if negb (exists_ dir "export_npc_dialog_json.json") then Raise FileNotFoundError
  else
    dialog_data ← open_json dir "export_npc_dialog_json.json";
    _ ← py_len dialog_data;
    items ← py_iter dialog_data;
    Ok (foldl add_dialog self items).

(** *** [_load_metadata] *)

Definition required_fields : list string :=
  ["index_id"; "gender"; "look"; "img_url"; "metadata_id";
   "name_en"; "name_pt"; "name_es"; "name_fr"; "name_de"].

Definition add_metadata (self : mapper) (item : json) : result mapper :=
  match item with
  | JDict kv =>
      if negb (forallb (λ field, bool_decide (is_Some (assoc field kv))) required_fields)
      then Ok self
      else
        index_id ← getitem item "index_id" ≫= as_int;
        gender ← getitem item "gender" ≫= as_int;
        look ← getitem item "look" ≫= as_str;
        img_url ← getitem item "img_url" ≫= as_str;
        metadata_id ← getitem item "metadata_id" ≫= as_str;
        name_en ← getitem item "name_en" ≫= as_str;
        name_pt ← getitem item "name_pt" ≫= as_str;
        name_es ← getitem item "name_es" ≫= as_str;
        name_fr ← getitem item "name_fr" ≫= as_str;
        name_de ← getitem item "name_de" ≫= as_str;
        Ok (with_metadata (metadata self ++
              [NPCMetadata.mk index_id gender look img_url metadata_id
                 name_en name_pt name_es name_fr name_de]) self)
  | _ => Raise TypeError
  end.

Definition _load_metadata (dir : folder) (self : mapper) : mapper :=
  load_records dir "npcs_Dofus3-03_202508.json"
    "Warning: Metadata file not found" "Warning: Metadata file is empty" add_metadata self.

(** *** [_load_structure_from_json] *)

Definition add_structure_reply (self : mapper) (item : json) : mapper :=
  let reply :=
    reply_id ← getitem item "reply_id" ≫= as_int;
    context ← get item "reply_criteria" ≫= as_opt_str;
    parent ← getitem item "reply_parent_id" ≫= as_int;
    leads_to ← get item "reply_message_id" ≫= as_opt_int;
    Ok (NPCReply.mk reply_id EmptyString None None None context parent leads_to) in
  match reply with
  | Ok reply => with_replies (dict_set (NPCReply.reply_id reply) reply (replies self)) self
  | Raise _ => self
  end.

Definition _load_structure_from_json (dir : folder) (self : mapper) : result mapper :=
  self ← _load_dialogs dir self;
  if negb (exists_ dir "export_npc_reply_json.json") then Raise FileNotFoundError
  else
    reply_data ← open_json dir "export_npc_reply_json.json";
    _ ← py_len reply_data;
    items ← py_iter reply_data;
    Ok (foldl add_structure_reply self items).

(** *** [_merge_xliff_with_structure] *)

Definition merge_reply (translations : dict Xliff.translation) (kv : Z * NPCReply.t)
    : Z * NPCReply.t :=
  match dict_get kv.1 translations with
  | Some tr =>
      (kv.1, NPCReply.mk (NPCReply.reply_id kv.2)
               (default EmptyString (Xliff.tr_get fr tr))
               (Xliff.tr_get en tr) (Xliff.tr_get es tr) (Xliff.tr_get pt tr)
               (NPCReply.context kv.2) (NPCReply.parent_message_id kv.2)
               (NPCReply.leads_to_message_id kv.2))
  | None => kv
  end.

Definition _merge_xliff_with_structure (self : mapper) : mapper :=
  let self := foldl (λ self kv, with_npcs
                 (dict_set kv.1
                    (NPC.mk kv.1 (default EmptyString (Xliff.tr_get fr kv.2))
                       (Xliff.tr_get en kv.2) (Xliff.tr_get es kv.2) (Xliff.tr_get pt kv.2)
                       None [] [] []) (npcs self)) self)
               self (Xliff.npc_names (xliff_translations self)) in
  let self := foldl (λ self kv, with_messages
                 (dict_set kv.1
                    (NPCMessage.mk kv.1 (default EmptyString (Xliff.tr_get fr kv.2))
                       (Xliff.tr_get en kv.2) (Xliff.tr_get es kv.2) (Xliff.tr_get pt kv.2)
                       None []) (messages self)) self)
               self (Xliff.messages (xliff_translations self)) in
  with_replies (merge_reply (Xliff.replies (xliff_translations self)) <$> replies self) self.

(** *** [_build_relationships] *)

Definition link_dialog (npcs : dict NPC.t) (dialog : NPCDialog.t) : dict NPC.t :=
  if dict_mem (NPCDialog.npc_id dialog) npcs then
    dict_update (NPCDialog.npc_id dialog)
      (λ n, NPC.set_dialogs (NPC.dialogs n ++ [dialog]) n) npcs
  else npcs.

Definition link_reply (messages : dict NPCMessage.t) (reply : NPCReply.t) : dict NPCMessage.t :=
  if dict_mem (NPCReply.parent_message_id reply) messages then
    dict_update (NPCReply.parent_message_id reply) (NPCMessage.append_reply reply) messages
  else messages.

Definition _build_relationships (self : mapper) : mapper :=
  let self := with_npcs (foldl link_dialog (npcs self) (dialogs self)) self in
  with_messages (foldl link_reply (messages self) (dict_values (replies self))) self.

(** *** [_match_metadata_with_npcs] *)

(** [npc.name_fr and metadata.name_fr and
    npc.name_fr.lower().strip() == metadata.name_fr.lower().strip()] *)
Definition names_match (npc_name meta_name : string) : bool :=
  bool_decide (npc_name ≠ EmptyString) && bool_decide (meta_name ≠ EmptyString) &&
  bool_decide (strip (lower npc_name) = strip (lower meta_name)).

Definition match_npc (metadata : list NPCMetadata.t) (npc : NPC.t) : NPC.t :=
  foldl (λ npc meta,
      if names_match (NPC.name_fr npc) (NPCMetadata.name_fr meta) then
        NPC.set_matches (NPC.genders npc ++ [NPCMetadata.gender meta])
                        (NPC.img_urls npc ++ [NPCMetadata.img_url meta]) npc
      else npc) npc metadata.

Definition _match_metadata_with_npcs (self : mapper) : mapper :=
  with_npcs (prod_map id (match_npc (metadata self)) <$> npcs self) self.

(** *** [load_data] *)

Definition load_data (dir : folder) (xdir : xliff_folder) (self : mapper) : result mapper :=
  let self := _load_metadata dir self in
  self ←
    (if use_xliff self then
       let self := _load_xliff_translations xdir self in
       self ← _load_structure_from_json dir self;
       Ok (_merge_xliff_with_structure self)
     else
       let self := _load_npcs dir self in
       let self := _load_messages dir self in
       let self := _load_replies dir self in
       _load_dialogs dir self);
  let self := _build_relationships self in
  Ok (_match_metadata_with_npcs self).

End Original.

(** * The search script of the generated page ([_get_javascript])

    The script is JavaScript text inside a Python string; the functions
    below are its [removeDiacritics], [wildcardToRegex], the matching
    block that [searchInNPCNames], [searchInText] and
    [dialogTreeContainsMatch] repeat, and [searchInText] itself. *)

Module Search.

(** Unicode canonical decomposition, [str.normalize('NFD')]. Its table
    belongs to the JavaScript engine; what is used of it is that text
    made of ASCII characters is its own decomposition. *)
Definition is_ascii (s : string) : Prop :=
  Forall (λ c, (byte_of c < 128)%N) (String.list_ascii_of_string s).

Class Normalizer : Type := {
  normalize_nfd : string → string;
  normalize_nfd_ascii : ∀ s, is_ascii s → normalize_nfd s = s
}.

(** A normalizer to compute with on ASCII text. *)
Definition ascii_normalizer : Normalizer :=
  {| normalize_nfd s := s; normalize_nfd_ascii s _ := eq_refl |}.

(** A combining mark U+0300..U+036F, in UTF-8 the two bytes
    [CC 80]..[CC BF] or [CD 80]..[CD AF]. *)
Definition is_mark (a b : ascii) : bool :=
  bool_decide ((byte_of a = 204 ∧ 128 ≤ byte_of b ≤ 191) ∨
               (byte_of a = 205 ∧ 128 ≤ byte_of b ≤ 175))%N.

(** [.replace(/[\u0300-\u036f]/g, '')] *)
Fixpoint remove_marks (s : string) : string :=
  match s with
  | EmptyString => EmptyString
  | String a t =>
      match t with
      | EmptyString => s
      | String b s' => if is_mark a b then remove_marks s' else String a (remove_marks t)
      end
  end.

Definition removeDiacritics `{Normalizer} (str : string) : string :=
  remove_marks (normalize_nfd str).

(** The regular expressions that the script builds, as the sequence of
    their atoms: a literal character (every character that means
    something to [RegExp] is escaped before use), [[^\s]*], and [\b]. *)
Inductive atom : Set :=
| Lit (c : ascii)
| NonSpaces
| WordBoundary.

(** [pattern.replace(/[.*+?^${}()|[\]\\]/g, '\\$&')] *)
Definition escaped (pattern : string) : list atom :=
  Lit <$> String.list_ascii_of_string pattern.

(** [wildcardToRegex]: escape, then turn each escaped [*] into [[^\s]*]. *)
Definition wildcardToRegex (pattern : string) : list atom :=
  (λ c, if decide (c = "*"%char) then NonSpaces else Lit c)
    <$> String.list_ascii_of_string pattern.

(** [\s] and [\w] on ASCII. *)
Definition js_space (c : ascii) : bool :=
  bool_decide (9 ≤ byte_of c ≤ 13 ∨ byte_of c = 32)%N.

Definition word_char (c : ascii) : bool :=
  bool_decide (48 ≤ byte_of c ≤ 57 ∨ 65 ≤ byte_of c ≤ 90 ∨
               byte_of c = 95 ∨ 97 ≤ byte_of c ≤ 122)%N.

Definition is_word (c : option ascii) : bool :=
  match c with Some c => word_char c | None => false end.

Definition head (s : string) : option ascii :=
  match s with String c _ => Some c | EmptyString => None end.

(** The [i] flag. *)
Definition same_letter (a b : ascii) : bool :=
  bool_decide (lower_char a = lower_char b).

(** Does the expression match at this place? [prev] is the character
    before it. *)
Fixpoint match_here (re : list atom) (prev : option ascii) (s : string) : bool :=
  match re with
  | [] => true
  | Lit c :: re' =>
      match s with
      | String d s' => same_letter c d && match_here re' (Some d) s'
      | EmptyString => false
      end
  | WordBoundary :: re' =>
      negb (eqb (is_word prev) (is_word (head s))) && match_here re' prev s
  | NonSpaces :: re' =>
      (fix more (prev : option ascii) (s : string) : bool :=
         match_here re' prev s ||
         match s with
         | String d s' => negb (js_space d) && more (Some d) s'
         | EmptyString => false
         end) prev s
  end.

Fixpoint test_from (re : list atom) (prev : option ascii) (s : string) : bool :=
  match_here re prev s ||
  match s with
  | String d s' => test_from re (Some d) s'
  | EmptyString => false
  end.

(** [new RegExp(re, 'i').test(text)] *)
Definition test (re : list atom) (text : string) : bool := test_from re None text.

Section Matching.
Context `{Normalizer}.

(** The block that decides whether one row matches: [textContent] is the
    lowercased text of the row. *)
Definition row_matches (textContent searchTerm : string)
    (ignoreDiacritics useWildcards exactMatch : bool) : bool :=
  let '(textContent, pattern) :=
    if ignoreDiacritics
    then (removeDiacritics textContent, removeDiacritics searchTerm)
    else (textContent, searchTerm) in
  if exactMatch then
    test ([WordBoundary] ++ escaped pattern ++ [WordBoundary]) textContent
  else if useWildcards && includes "*" pattern then
    test (wildcardToRegex pattern) textContent
  else includes pattern textContent.

(** A [lang-row]: the text of its [lang-label] child, if it has one, and
    its own text. *)
Record row : Type := mk_row {
  langLabel : option string;
  textContent : string
}.

(** What the two queries of [searchInText] select in a card: the rows
    under [.npc-names], and those under [.message-content] and
    [.reply-content]. *)
Record card : Type := mk_card {
  npc_names_rows : list row;
  message_reply_rows : list row
}.

(** [langLabel.textContent.toLowerCase().replace(':', '')]: the first
    colon goes. *)
Fixpoint remove_first_colon (s : string) : string :=
  match s with
  | EmptyString => EmptyString
  | String c s' => if decide (c = ":"%char) then s' else String c (remove_first_colon s')
  end.

(** The loop over rows, common to both queries. *)
Definition any_row_matches (rows : list row) (searchTerm : string)
    (searchLangs : list string) (ignoreDiacritics useWildcards exactMatch : bool) : bool :=
  existsb (λ r,
      match langLabel r with
      | Some label =>
          let lang := remove_first_colon (lower label) in
          bool_decide (lang ∈ searchLangs) &&
          row_matches (lower (textContent r)) searchTerm
            ignoreDiacritics useWildcards exactMatch
      | None => false
      end) rows.

Definition searchInNPCNames (c : card) (searchTerm : string) (searchLangs : list string)
    (ignoreDiacritics useWildcards exactMatch : bool) : bool :=
  any_row_matches (npc_names_rows c) searchTerm searchLangs
    ignoreDiacritics useWildcards exactMatch.

Definition searchInText (c : card) (searchTerm : string) (searchLangs : list string)
    (ignoreDiacritics useWildcards exactMatch : bool) : bool :=
  if searchInNPCNames c searchTerm searchLangs ignoreDiacritics useWildcards exactMatch
  then true
  else any_row_matches (message_reply_rows c) searchTerm searchLangs
         ignoreDiacritics useWildcards exactMatch.

(** *** [highlightText] *)

(** The length of the match at this place, each [[^\s]*] taking as much
    as leaves a match. *)
Fixpoint match_length (re : list atom) (prev : option ascii) (s : string) : option nat :=
  match re with
  | [] => Some 0%nat
  | Lit c :: re' =>
      match s with
      | String d s' => if same_letter c d then S <$> match_length re' (Some d) s' else None
      | EmptyString => None
      end
  | WordBoundary :: re' =>
      if negb (eqb (is_word prev) (is_word (head s))) then match_length re' prev s else None
  | NonSpaces :: re' =>
      (fix more (prev : option ascii) (s : string) : option nat :=
         let longer :=
           match s with
           | String d s' => if js_space d then None else S <$> more (Some d) s'
           | EmptyString => None
           end in
         match longer with
         | Some n => Some n
         | None => match_length re' prev s
         end) prev s
  end.

Definition highlight_open : string :=
  "<span " +:+ attr "class" "search-highlight" +:+ ">".

(** [text.replace(regex, '<span class="search-highlight">$&</span>')]
    with the [g] flag: [inside] is what is left of the match being
    copied. After an empty match the search resumes one character on. *)
Fixpoint replace_matches (re : list atom) (prev : option ascii) (inside : nat)
    (s : string) : string :=
  match s with
  | EmptyString =>
      match inside, match_length re prev s with
      | O, Some _ => highlight_open +:+ "</span>"
      | _, _ => EmptyString
      end
  | String d s' =>
      match inside with
      | S O => String d ("</span>" +:+ replace_matches re (Some d) 0 s')
      | S k => String d (replace_matches re (Some d) k s')
      | O =>
          match match_length re prev s with
          | Some (S O) =>
              highlight_open +:+ String d ("</span>" +:+ replace_matches re (Some d) 0 s')
          | Some (S k) => highlight_open +:+ String d (replace_matches re (Some d) k s')
          | Some O =>
              highlight_open +:+ "</span>" +:+ String d (replace_matches re (Some d) 0 s')
          | None => String d (replace_matches re (Some d) 0 s')
          end
      end
  end.

(** The expression is built from the pattern without its diacritics and
    applied to [text] itself. *)
Definition highlightText (text searchTerm : string)
    (ignoreDiacritics useWildcards exactMatch : bool) : string :=
  if bool_decide (searchTerm = EmptyString) || bool_decide (text = EmptyString) then text
  else
    let pattern := if ignoreDiacritics then removeDiacritics searchTerm else searchTerm in
    let regex :=
      if exactMatch then [WordBoundary] ++ escaped pattern ++ [WordBoundary]
      else if useWildcards && includes "*" pattern then wildcardToRegex pattern
      else escaped pattern in
    replace_matches regex None 0 text.

End Matching.

End Search.

(** * The page of the original variant

    [_generate_html_content], [_generate_npc_cards],
    [_generate_dialog_tree] and [_generate_replies_html] of
    [npc_dialog_mapper_gui.pyw]: one message and its replies for each
    dialog, without the continuations. *)

Module OriginalPage.

(** [{text or 'N/A'}] *)
Definition or_na (text : option string) : string :=
  match text with
  | Some (String c s) => String c s
  | _ => "N/A"
  end.

(** [<div class="lang-row"><span class="lang-label">L:</span> text</div>] *)
Definition lang_row (label text : string) : string :=
  "<div " +:+ attr "class" "lang-row" +:+ "><span " +:+ attr "class" "lang-label" +:+ ">" +:+
  label +:+ ":</span> " +:+ text +:+ "</div>".

Definition reply_text (reply : NPCReply.t) : string :=
  Fixed.nl +:+
  Fixed.ln 12 ("<div " +:+ attr "class" "reply" +:+ " " +:+
               attr "style" "margin: 5px 0; padding: 8px; border-left: 2px solid #28a745;" +:+
               ">") +:+
  Fixed.ln 16 ("<strong>Reply " +:+ str_of_int (NPCReply.reply_id reply) +:+ ":</strong>") +:+
  Fixed.ln 16 (lang_row "FR" (NPCReply.text_fr reply)) +:+
  Fixed.ln 16 (lang_row "EN" (or_na (NPCReply.text_en reply))) +:+
  Fixed.ln 16 (lang_row "ES" (or_na (NPCReply.text_es reply))) +:+
  Fixed.ln 16 (lang_row "PT" (or_na (NPCReply.text_pt reply))) +:+
  Fixed.ln 16 (match Fixed.truthy (NPCReply.leads_to_message_id reply) with
               | Some target => "<div><em>Leads to message: " +:+ str_of_int target +:+
                                "</em></div>"
               | None => EmptyString
               end) +:+
  Fixed.ln 12 "</div>" +:+
  Fixed.spaces 12.

(** The replies in the order they are written:
    [sorted(replies, key=lambda x: x.reply_id)]. *)
Definition written_replies (replies : list NPCReply.t) : list NPCReply.t :=
  sorted Z.ltb NPCReply.reply_id replies.

Definition _generate_replies_html (replies : list NPCReply.t) : string :=
  match replies with
  | [] => EmptyString
  | _ =>
      string_concat (
        ["<div class='replies' style='margin-left: 20px; margin-top: 10px;'>";
         "<strong>Replies:</strong>"] ++
        (reply_text <$> written_replies replies) ++
        ["</div>"])
  end.

Definition dialog_text (dialog : NPCDialog.t) (message : NPCMessage.t) : string :=
  Fixed.nl +:+
  Fixed.ln 16 ("<div " +:+ attr "class" "dialog" +:+ " " +:+
               attr "style" "margin: 10px 0; padding: 10px; border-left: 3px solid #007acc;" +:+
               ">") +:+
  Fixed.ln 20 ("<h4>Dialog " +:+ str_of_int (NPCDialog.dialog_id dialog) +:+ " (Order: " +:+
               str_of_int (NPCDialog.check_order dialog) +:+ ")</h4>") +:+
  Fixed.ln 20 ("<div " +:+ attr "class" "message" +:+ ">") +:+
  Fixed.ln 24 ("<strong>Message " +:+ str_of_int (NPCMessage.message_id message) +:+
               ":</strong>") +:+
  Fixed.ln 24 (lang_row "FR" (NPCMessage.text_fr message)) +:+
  Fixed.ln 24 (lang_row "EN" (or_na (NPCMessage.text_en message))) +:+
  Fixed.ln 24 (lang_row "ES" (or_na (NPCMessage.text_es message))) +:+
  Fixed.ln 24 (lang_row "PT" (or_na (NPCMessage.text_pt message))) +:+
  Fixed.ln 24 EmptyString +:+
  Fixed.ln 24 (_generate_replies_html (NPCMessage.replies message)) +:+
  Fixed.ln 20 "</div>" +:+
  Fixed.ln 16 "</div>" +:+
  Fixed.spaces 16.

(** The dialogs of an NPC that are written, each with its message, in
    the order they are written: by [check_order], without those whose
    message is not loaded. *)
Definition written_dialogs (messages : dict NPCMessage.t) (npc : NPC.t)
    : list (NPCDialog.t * NPCMessage.t) :=
  omap (λ dialog, (λ message, (dialog, message)) <$>
                  dict_get (NPCDialog.message_id dialog) messages)
    (sorted Z.ltb NPCDialog.check_order (NPC.dialogs npc)).

Definition _generate_dialog_tree (self : Original.mapper) (npc : NPC.t) : string :=
  string_concat (uncurry dialog_text <$> written_dialogs (Original.messages self) npc).

Definition card_text (self : Original.mapper) (npc : NPC.t) : string :=
  Fixed.nl +:+
  Fixed.ln 12 ("<div " +:+ attr "class" "npc-card" +:+ ">") +:+
  Fixed.ln 16 ("<div " +:+ attr "class" "npc-name" +:+ ">" +:+ NPC.name_fr npc +:+ " (ID: " +:+
               str_of_int (NPC.npc_id npc) +:+ ")</div>") +:+
  Fixed.ln 16 ("<div " +:+ attr "class" "npc-names" +:+ ">") +:+
  Fixed.ln 20 (lang_row "FR" (NPC.name_fr npc)) +:+
  Fixed.ln 20 (lang_row "EN" (or_na (NPC.name_en npc))) +:+
  Fixed.ln 20 (lang_row "ES" (or_na (NPC.name_es npc))) +:+
  Fixed.ln 20 (lang_row "PT" (or_na (NPC.name_pt npc))) +:+
  Fixed.ln 16 "</div>" +:+
  Fixed.ln 16 EmptyString +:+
  Fixed.ln 16 ("<div " +:+ attr "class" "dialogs" +:+ ">") +:+
  Fixed.ln 20 (_generate_dialog_tree self npc) +:+
  Fixed.ln 16 "</div>" +:+
  Fixed.ln 12 "</div>" +:+
  Fixed.spaces 12.

(** The NPCs that get a card, in the order of their cards:
    [sorted(self.npcs.values(), key=lambda x: x.name_fr)] without those
    that have no dialog. *)
Definition card_npcs (self : Original.mapper) : list NPC.t :=
  filter (λ npc, NPC.dialogs npc ≠ [])
    (sorted Fixed.str_lt NPC.name_fr (dict_values (Original.npcs self))).

Definition _generate_npc_cards (self : Original.mapper) : string :=
  string_concat (card_text self <$> card_npcs self).

Definition _generate_html_content (self : Original.mapper) : string :=
  Fixed.nl +:+
  Fixed.ln 0 "<!DOCTYPE html>" +:+
  Fixed.ln 0 ("<html " +:+ attr "lang" "en" +:+ ">") +:+
  Fixed.ln 0 "<head>" +:+
  Fixed.ln 4 ("<meta " +:+ attr "charset" "UTF-8" +:+ ">") +:+
  Fixed.ln 4 ("<meta " +:+ attr "name" "viewport" +:+ " " +:+
              attr "content" "width=device-width, initial-scale=1.0" +:+ ">") +:+
  Fixed.ln 4 "<title>NPC Dialog Mapping</title>" +:+
  Fixed.ln 4 "<style>" +:+
  Fixed.ln 8 "body { font-family: Arial, sans-serif; margin: 20px; }" +:+
  Fixed.ln 8 ".npc-card { border: 1px solid #ccc; margin: 10px 0; padding: 15px; border-radius: 5px; }" +:+
  Fixed.ln 8 ".npc-name { font-weight: bold; font-size: 1.2em; margin-bottom: 10px; }" +:+
  Fixed.ln 8 ".lang-row { margin: 5px 0; }" +:+
  Fixed.ln 8 ".lang-label { font-weight: bold; color: #666; }" +:+
  Fixed.ln 4 "</style>" +:+
  Fixed.ln 0 "</head>" +:+
  Fixed.ln 0 "<body>" +:+
  Fixed.ln 4 "<h1>NPC Dialog Mapping</h1>" +:+
  Fixed.ln 4 ("<p>Generated from " +:+
              (if Original.use_xliff self then "XLIFF bilingual files"
               else "JSON database exports") +:+ "</p>") +:+
  Fixed.ln 4 ("<p>Total NPCs: " +:+ str_of_int (Z.of_nat (length (Original.npcs self))) +:+
              " | Total Messages: " +:+ str_of_int (Z.of_nat (length (Original.messages self))) +:+
              " | Total Replies: " +:+ str_of_int (Z.of_nat (length (Original.replies self))) +:+
              "</p>") +:+
  Fixed.ln 4 EmptyString +:+
  Fixed.ln 4 ("<div " +:+ attr "class" "npc-container" +:+ ">") +:+
  Fixed.ln 8 (_generate_npc_cards self) +:+
  Fixed.ln 4 "</div>" +:+
  Fixed.ln 0 "</body>" +:+
  Fixed.ln 0 "</html>".

End OriginalPage.

(** * The statistics of the fixed variant: [analyze_statistics] *)

Module Statistics.

(** A percentage is the floating-point value of [n / total * 100]; it is
    kept as the two integers it is computed from. The other two values
    are the constants [0] and [0.0] of the branches for an empty total. *)
Inductive percentage : Set :=
| Int0
| Float0
| Percent (n total : Z).

(** [len([x for x in l if p(x)])], [sum(1 for x in l if p(x))] *)
Definition count_if {A} (p : A → bool) (l : list A) : Z :=
  Z.of_nat (length (filter (λ a, p a = true) l)).

(** [bool(l)] for a list. *)
Definition nonempty {A} (l : list A) : bool :=
  match l with [] => false | _ => true end.

Record basic : Type := mk_basic {
  total_npcs : Z;
  npcs_with_dialogs : Z;
  total_messages : Z;
  total_replies : Z;
  total_dialogs : Z;
  total_metadata : Z;
  data_source : string
}.

Record metadata : Type := mk_metadata {
  npcs_with_metadata : Z;
  npcs_with_images : Z;
  npcs_with_gender : Z;
  metadata_match_percentage : percentage;
  gender_match_percentage : percentage;
  images_match_percentage : percentage
}.

(** The counters of one language. *)
Record counters : Type := mk_counters {
  null : Z;
  x : Z;
  valid : Z;
  null_percentage : percentage;
  x_percentage : percentage;
  valid_percentage : percentage
}.

(** The three languages that are counted, as the keys ['en'], ['es'],
    ['pt']. *)
Record by_lang : Type := mk_by_lang {
  stats_en : counters;
  stats_es : counters;
  stats_pt : counters
}.

Record translation_quality : Type := mk_translation_quality {
  npc_names : by_lang;
  messages : by_lang;
  replies : by_lang
}.

Record xliff_mapping : Type := mk_xliff_mapping {
  total_xliff_messages : Z;
  total_xliff_replies : Z;
  mapped_messages : Z;
  mapped_replies : Z;
  unmapped_messages : Z;
  unmapped_replies : Z;
  message_mapping_percentage : percentage;
  reply_mapping_percentage : percentage
}.

(** The dictionary that [analyze_statistics] returns; the key
    ['xliff_mapping'] is there in XLIFF mode only. *)
Record stats : Type := mk_stats {
  stats_basic : basic;
  stats_metadata : metadata;
  stats_translation_quality : translation_quality;
  stats_xliff_mapping : option xliff_mapping
}.

(** [count_null_and_x]: the pair [(is_null, is_x)]. *)
Definition count_null_and_x (text : option string) : bool * bool :=
  match text with
  | None => (true, false)
  | Some EmptyString => (true, false)
  | Some text =>
      if decide (lower (strip text) = "x") then (false, true) else (false, false)
  end.

Definition zero : counters := mk_counters 0 0 0 Float0 Float0 Float0.

(** The body of the inner loop: one text of one language. *)
Definition count (c : counters) (text : option string) : counters :=
  let '(is_null, is_x) := count_null_and_x text in
  if is_null then
    mk_counters (null c + 1) (x c) (valid c)
      (null_percentage c) (x_percentage c) (valid_percentage c)
  else if is_x then
    mk_counters (null c) (x c + 1) (valid c)
      (null_percentage c) (x_percentage c) (valid_percentage c)
  else
    mk_counters (null c) (x c) (valid c + 1)
      (null_percentage c) (x_percentage c) (valid_percentage c).

(** The loop over the records of one kind, [texts] giving the English,
    Spanish and Portuguese text of a record. *)
Definition count_all {A} (texts : A → option string * option string * option string)
    (l : list A) : by_lang :=
  foldl (λ s a,
      let '(text_en, text_es, text_pt) := texts a in
      mk_by_lang (count (stats_en s) text_en) (count (stats_es s) text_es)
                 (count (stats_pt s) text_pt))
    (mk_by_lang zero zero zero) l.

(** [if total > 0: ... = (... / total * 100) else: ... = 0.0], for the
    three counters of one language. *)
Definition with_percentages (total : Z) (c : counters) : counters :=
  if decide (total > 0) then
    mk_counters (null c) (x c) (valid c)
      (Percent (null c) total) (Percent (x c) total) (Percent (valid c) total)
  else mk_counters (null c) (x c) (valid c) Float0 Float0 Float0.

Definition percentages (total : Z) (s : by_lang) : by_lang :=
  mk_by_lang (with_percentages total (stats_en s)) (with_percentages total (stats_es s))
             (with_percentages total (stats_pt s)).

(** [(n / total * 100) if total > 0 else 0] *)
Definition percentage_of (n total : Z) : percentage :=
  if decide (total > 0) then Percent n total else Int0.

(** [used_message_ids]: the messages that open a dialog. *)
Definition used_message_ids (self : Fixed.mapper) : gset Z :=
  list_to_set (NPCDialog.message_id <$> Fixed.dialogs self).

(** [used_reply_ids]: the replies whose parent opens a dialog. *)
Definition used_reply_ids (self : Fixed.mapper) : gset Z :=
  list_to_set (NPCReply.reply_id <$>
    filter (λ reply, NPCReply.parent_message_id reply ∈ used_message_ids self)
      (dict_values (Fixed.replies self))).

(** [len(used.intersection(d.keys()))] *)
Definition mapped {V} (used : gset Z) (d : dict V) : Z :=
  Z.of_nat (size (used ∩ list_to_set (dict_keys d))).

Definition py_dict_len {V} (d : dict V) : Z := Z.of_nat (length d).

Definition analyze_statistics (self : Fixed.mapper) : stats :=
  let total_npcs := py_dict_len (Fixed.npcs self) in
  let npcs_with_dialogs :=
    count_if (λ npc, nonempty (NPC.dialogs npc)) (dict_values (Fixed.npcs self)) in
  let total_messages := py_dict_len (Fixed.messages self) in
  let total_replies := py_dict_len (Fixed.replies self) in
  let total_dialogs := Z.of_nat (length (Fixed.dialogs self)) in
  let total_metadata := Z.of_nat (length (Fixed.metadata self)) in
  let npcs_with_metadata :=
    count_if (λ npc, nonempty (NPC.genders npc) || nonempty (NPC.img_urls npc))
      (dict_values (Fixed.npcs self)) in
  let npcs_with_images :=
    count_if (λ npc, nonempty (NPC.img_urls npc)) (dict_values (Fixed.npcs self)) in
  let npcs_with_gender :=
    count_if (λ npc, nonempty (NPC.genders npc)) (dict_values (Fixed.npcs self)) in
  let npc_name_stats :=
    count_all (λ npc, (NPC.name_en npc, NPC.name_es npc, NPC.name_pt npc))
      (dict_values (Fixed.npcs self)) in
  let message_stats :=
    count_all (λ m, (NPCMessage.text_en m, NPCMessage.text_es m, NPCMessage.text_pt m))
      (dict_values (Fixed.messages self)) in
  let reply_stats :=
    count_all (λ r, (NPCReply.text_en r, NPCReply.text_es r, NPCReply.text_pt r))
      (dict_values (Fixed.replies self)) in
  let xliff_messages := Xliff.messages (Fixed.xliff_translations self) in
  let xliff_replies := Xliff.replies (Fixed.xliff_translations self) in
  mk_stats
    (mk_basic total_npcs npcs_with_dialogs total_messages total_replies
       total_dialogs total_metadata
       (if Fixed.use_xliff self then "XLIFF Bilingual Files" else "JSON Database Export"))
    (mk_metadata npcs_with_metadata npcs_with_images npcs_with_gender
       (percentage_of npcs_with_metadata total_npcs)
       (percentage_of npcs_with_gender total_npcs)
       (percentage_of npcs_with_images total_npcs))
    (mk_translation_quality
       (percentages total_npcs npc_name_stats)
       (percentages total_messages message_stats)
       (percentages total_replies reply_stats))
    (if Fixed.use_xliff self then
       Some (mk_xliff_mapping
               (py_dict_len xliff_messages) (py_dict_len xliff_replies)
               (mapped (used_message_ids self) xliff_messages)
               (mapped (used_reply_ids self) xliff_replies)
               (py_dict_len xliff_messages - mapped (used_message_ids self) xliff_messages)
               (py_dict_len xliff_replies - mapped (used_reply_ids self) xliff_replies)
               (percentage_of (mapped (used_message_ids self) xliff_messages)
                  (py_dict_len xliff_messages))
               (percentage_of (mapped (used_reply_ids self) xliff_replies)
                  (py_dict_len xliff_replies)))
     else None).

End Statistics.

(** * The window: [NPCDialogMapperGUI]

    [validate_inputs] and [auto_load_xliff_files], which are the same
    text in both variants. *)

Module Gui.

(** What the functions ask of the operating system: [os.path.exists],
    [os.path.join], [os.listdir] (the names it returns, or [None] when it
    raises, as it does on a path that is not a directory), and whether
    [os.makedirs(path, exist_ok=True)] succeeds. *)
Record os : Type := mk_os {
  path_exists : string → bool;
  path_join : string → string → string;
  listdir : string → option (list string);
  makedirs : string → bool
}.

(** The variables of the form. *)
Record vars : Type := mk_vars {
  data_source_var : string;
  json_folder_var : string;
  xliff_folder_var : string;
  output_folder_var : string;
  xliff_fr_en_var : string;
  xliff_fr_es_var : string;
  xliff_fr_pt_var : string
}.

Inductive raised : Type :=
| ValueError (message : string)
| OSError.

(** What a piece of code did: the lines it passed to [log_message], and
    the exception that ended it, if one did. *)
Definition run : Type := list string * option raised.

Definition log_message (message : string) : run := ([message], None).
Definition raise (e : raised) : run := ([], Some e).

(** One piece after the other. *)
Fixpoint steps (l : list run) : run :=
  match l with
  | [] => ([], None)
  | (lines, Some e) :: _ => (lines, Some e)
  | (lines, None) :: l' => let '(lines', r) := steps l' in (lines ++ lines', r)
  end.

(** [bool(s)] for a string. *)
Definition nonempty (s : string) : bool :=
  match s with EmptyString => false | _ => true end.

(** The keys ['fr-en'], ['fr-es'], ['fr-pt']. *)
Definition pair_name (p : Xliff.lang_pair) : string :=
  match p with
  | Xliff.fr_en => "fr-en"
  | Xliff.fr_es => "fr-es"
  | Xliff.fr_pt => "fr-pt"
  end.

(** The dictionary of the three file variables without its empty
    entries, as [validate_inputs] and [generate_html_threaded] build it. *)
Definition xliff_files (v : vars) : list (Xliff.lang_pair * string) :=
  filter (λ kv, nonempty kv.2 = true)
    [(Xliff.fr_en, xliff_fr_en_var v); (Xliff.fr_es, xliff_fr_es_var v);
     (Xliff.fr_pt, xliff_fr_pt_var v)].

Definition use_xliff (v : vars) : bool := bool_decide (data_source_var v = "xliff").

Definition required_json_files (v : vars) : list string :=
  ["export_npc_dialog_json.json"; "npcs_Dofus3-03_202508.json"] ++
  (if use_xliff v then ["export_npc_reply_json.json"]
   else ["export_npc_json.json"; "export_npc_message_json.json";
         "export_npc_reply_json.json"]).

(** The body of the loop over the required files. *)
Definition check_json_file (o : os) (json_folder filename : string) : run :=
  let file_path := path_join o json_folder filename in
  steps [
    log_message ("  Checking: " +:+ filename);
    if negb (path_exists o file_path) then
      steps [log_message ("  ❌ NOT FOUND: " +:+ file_path);
             raise (ValueError ("Required file not found: " +:+ filename +:+ Fixed.nl +:+
                                "Full path: " +:+ file_path))]
    else log_message ("  ✅ Found: " +:+ filename)].

(** The body of the loop over the translation files. *)
Definition check_xliff_file (o : os) (xliff_folder : string)
    (entry : Xliff.lang_pair * string) : run :=
  let file_path := path_join o xliff_folder entry.2 in
  steps [
    log_message ("  Checking " +:+ pair_name entry.1 +:+ ": " +:+ entry.2);
    if negb (path_exists o file_path) then
      steps [log_message ("  ❌ NOT FOUND: " +:+ file_path);
             raise (ValueError ("XLIFF file not found: " +:+ entry.2 +:+ Fixed.nl +:+
                                "Full path: " +:+ file_path))]
    else log_message ("  ✅ Found: " +:+ entry.2)].

(** [validate_inputs]: it returns [True] or raises. *)
Definition validate_inputs (o : os) (v : vars) : run :=
  let json_folder := json_folder_var v in
  let xliff_folder := xliff_folder_var v in
  let output_folder := output_folder_var v in
  steps [
    log_message ("Validating inputs for " +:+ (if use_xliff v then "XLIFF" else "JSON") +:+
                 " mode...");
    log_message ("JSON folder: " +:+ json_folder);
    if negb (nonempty json_folder) || negb (path_exists o json_folder) then
      raise (ValueError ("JSON data folder is required and must exist. Current path: " +:+
                         json_folder))
    else steps [];
    log_message ("Checking " +:+ str_of_int (Z.of_nat (length (required_json_files v))) +:+
                 " required JSON files...");
    steps (check_json_file o json_folder <$> required_json_files v);
    if use_xliff v then
      steps [
        log_message ("XLIFF folder: " +:+ xliff_folder);
        if negb (nonempty xliff_folder) || negb (path_exists o xliff_folder) then
          raise (ValueError ("XLIFF folder is required and must exist when using XLIFF mode." +:+
                             Fixed.nl +:+ "Current path: " +:+ xliff_folder))
        else steps [];
        match xliff_files v with
        | [] => log_message "Warning: No XLIFF files specified, continuing anyway..."
        | files =>
            steps [
              log_message ("Checking " +:+ str_of_int (Z.of_nat (length files)) +:+
                           " XLIFF files...");
              steps (check_xliff_file o xliff_folder <$> files)]
        end]
    else steps [];
    log_message ("Output folder: " +:+ output_folder);
    if negb (nonempty output_folder) then raise (ValueError "Output folder is required.")
    else steps [];
    if makedirs o output_folder then steps [] else raise OSError;
    log_message "✅ All validation checks passed!"].

(** *** [auto_load_xliff_files] *)

(** [s.endswith(suffix)] *)
Definition endswith (suffix s : string) : bool :=
  startswith (String.rev suffix) (String.rev s).

Definition patterns : list (Xliff.lang_pair * list string) :=
  [(Xliff.fr_en, [".fr-fr.en-gb.xliff"; ".fr.en.xliff"; "fr-en.xliff"]);
   (Xliff.fr_es, [".fr-fr.es-es.xliff"; ".fr.es.xliff"; "fr-es.xliff"]);
   (Xliff.fr_pt, [".fr-fr.pt-br.xliff"; ".fr.pt.xliff"; "fr-pt.xliff"])].

(** [lang_pair.split('-')] *)
Definition lang_codes (p : Xliff.lang_pair) : list string :=
  match p with
  | Xliff.fr_en => ["fr"; "en"]
  | Xliff.fr_es => ["fr"; "es"]
  | Xliff.fr_pt => ["fr"; "pt"]
  end.

(** The loop over the patterns: the first file that holds the first
    pattern some file holds. *)
Fixpoint pattern_match (xliff_files file_patterns : list string) : option string :=
  match file_patterns with
  | [] => None
  | pattern :: file_patterns' =>
      match filter (λ f, includes pattern (lower f) = true) xliff_files with
      | f :: _ => Some f
      | [] => pattern_match xliff_files file_patterns'
      end
  end.

(** The loop of the fuzzy matching: the first file that holds both
    language codes. *)
Definition fuzzy_match (xliff_files lang_codes : list string) : option string :=
  head (filter (λ f, forallb (λ code, includes code (lower f)) lang_codes = true) xliff_files).

(** [bool(found_file)], where [found_file] is [None] or a string. *)
Definition found (found_file : option string) : bool :=
  match found_file with Some f => nonempty f | None => false end.

Definition find_file (xliff_files : list string) (lang_pair : Xliff.lang_pair)
    (file_patterns : list string) : option string :=
  let found_file := pattern_match xliff_files file_patterns in
  if negb (found found_file) then fuzzy_match xliff_files (lang_codes lang_pair)
  else found_file.

Definition set_var (lang_pair : Xliff.lang_pair) (f : string) (v : vars) : vars :=
  match lang_pair with
  | Xliff.fr_en =>
      mk_vars (data_source_var v) (json_folder_var v) (xliff_folder_var v)
        (output_folder_var v) f (xliff_fr_es_var v) (xliff_fr_pt_var v)
  | Xliff.fr_es =>
      mk_vars (data_source_var v) (json_folder_var v) (xliff_folder_var v)
        (output_folder_var v) (xliff_fr_en_var v) f (xliff_fr_pt_var v)
  | Xliff.fr_pt =>
      mk_vars (data_source_var v) (json_folder_var v) (xliff_folder_var v)
        (output_folder_var v) (xliff_fr_en_var v) (xliff_fr_es_var v) f
  end.

Definition get_var (lang_pair : Xliff.lang_pair) (v : vars) : string :=
  match lang_pair with
  | Xliff.fr_en => xliff_fr_en_var v
  | Xliff.fr_es => xliff_fr_es_var v
  | Xliff.fr_pt => xliff_fr_pt_var v
  end.

(** The loop over [patterns.items()]. *)
Definition assign_found (xliff_files : list string) (v : vars) : vars :=
  foldl (λ v entry,
      let found_file := find_file xliff_files entry.1 entry.2 in
      match found_file with
      | Some f => if nonempty f then set_var entry.1 f v else v
      | None => v
      end) v patterns.

(** The variables after the call, and what the call did. *)
Definition auto_load_xliff_files (o : os) (folder_path : string) (v : vars)
    : vars * run :=
  if negb (nonempty folder_path) || negb (path_exists o folder_path) then (v, steps [])
  else
    match listdir o folder_path with
    | None => (v, raise OSError)
    | Some names =>
        let xliff_files := filter (λ f, endswith ".xliff" (lower f) = true) names in
        let v := assign_found xliff_files v in
        let found_count :=
          length (filter (λ s, nonempty s = true)
                    [xliff_fr_en_var v; xliff_fr_es_var v; xliff_fr_pt_var v]) in
        (v, if (0 <? found_count)%nat
            then log_message ("Auto-loaded " +:+ str_of_int (Z.of_nat found_count) +:+
                              " XLIFF files from folder")
            else log_message "No XLIFF files auto-detected. Please select manually.")
    end.

End Gui.

(** * Definitions that the statements use *)

(** ** The renderer *)

(** The ids of the loaded messages. *)
Definition message_ids (messages : dict NPCMessage.t) : gset Z :=
  list_to_set (NPCMessage.message_id <$> dict_values messages).

(** The reply node that [_generate_dialog_tree] emits for [reply] under a
    message at [level], given the markup of its continuation. *)
Definition reply_node (level : Z) (reply : NPCReply.t) (nested : option html)
    : reply_div html :=
  mk_reply_div (Z.min (level + 1) Fixed.max_level) (NPCReply.reply_id reply)
    (level + 1) (Fixed.badge (level + 1))
    (Fixed.truthy (NPCReply.leads_to_message_id reply))
    (Fixed.reply_rows_of reply) nested.

(** One iteration of the loop over [message.replies], with [rec] for the
    recursive call. *)
Definition reply_step (rec : NPCMessage.t → Z → gset Z → option (html * gset Z))
    (messages : dict NPCMessage.t) (level : Z) (visited : gset Z)
    (reply : NPCReply.t) : option (reply_div html) :=
  nested ←
    match Fixed.lookup_next messages reply with
    | Some next_message =>
        '(h, _) ← rec next_message (level + 2) (Fixed.copy visited);
        Some (Some h)
    | None => Some None
    end;
  Some (reply_node level reply nested).

(** The reply node for [reply] under a message at [level] on path
    [path]: its continuation is rendered by a call of its own. *)
Definition rendered_reply (messages : dict NPCMessage.t) (dialog : NPCDialog.t)
    (level : Z) (path : gset Z) (reply : NPCReply.t) : reply_div html :=
  reply_node level reply
    (x ← Fixed.lookup_next messages reply;
     Fixed.dialog_tree messages x dialog (level + 2) path).

(** A two-message loop: message 1 has two replies that both lead to
    message 2, whose reply leads back to message 1. *)
Definition loop_message_1 : NPCMessage.t :=
  NPCMessage.mk 1 "Halte!" None None None None
    [NPCReply.mk 10 "Oui" None None None None 1 (Some 2);
     NPCReply.mk 11 "Non" None None None None 1 (Some 2)].
Definition loop_message_2 : NPCMessage.t :=
  NPCMessage.mk 2 "Passez." None None None None
    [NPCReply.mk 20 "Encore" None None None None 2 (Some 1)].
Definition loop_messages : dict NPCMessage.t :=
  [(1, loop_message_1); (2, loop_message_2)].
Definition loop_dialog : NPCDialog.t := NPCDialog.mk 5 7 1 0.

(** ** Translation files *)

(** The three loops of [_merge_xliff_with_structure]. *)
Definition merged_npcs (self : Fixed.mapper) : dict NPC.t :=
  foldl (λ d kv, dict_set kv.1 (Fixed.npc_of_translations kv.1 kv.2) d)
    (Fixed.npcs self) (Xliff.npc_names (Fixed.xliff_translations self)).
Definition merged_messages (self : Fixed.mapper) : dict NPCMessage.t :=
  foldl (λ d kv, dict_set kv.1 (Fixed.message_of_translations kv.1 kv.2) d)
    (Fixed.messages self) (Xliff.messages (Fixed.xliff_translations self)).
Definition merged_replies (rels : dict Fixed.relationship) (self : Fixed.mapper)
    : dict NPCReply.t :=
  foldl (λ d kv, dict_set kv.1 (Fixed.reply_of_translations rels kv.1 kv.2) d)
    (Fixed.replies self) (Xliff.replies (Fixed.xliff_translations self)).

(** What the spec calls a pair being seen in a file: a unit of that file
    that is read, with the language pair of the file. *)
Record seen_unit : Type := mk_seen {
  seen_pair : Xliff.lang_pair;
  seen_type : Xliff.entry_type;
  seen_id : Z;
  seen_source : string;
  seen_target : string
}.

Global Instance entry_type_eq_dec : EqDecision Xliff.entry_type.
Proof. solve_decision. Defined.

(** The units read from one file, in document order. *)
Definition seen_in_file (clean : string → string) (dir : xliff_folder)
    (entry : Xliff.lang_pair * string) : list seen_unit :=
  match dir entry.2 with
  | Some (Xliff trans_units) =>
      omap (λ u, (λ '(ty, i, s, t), mk_seen entry.1 ty i s t) <$> Xliff.parse_unit clean u)
        trans_units
  | _ => []
  end.

(** The units read for one [(entityId, entryType)] pair, first file
    first. *)
Definition seen (clean : string → string) (dir : xliff_folder)
    (xliff_files : list (Xliff.lang_pair * string))
    (ty : Xliff.entry_type) (i : Z) : list seen_unit :=
  filter (λ u, seen_type u = ty ∧ seen_id u = i)
    (xliff_files ≫= seen_in_file clean dir).


(** What one seen unit does to the tables. *)
Definition apply_seen (t : Xliff.tables) (u : seen_unit) : Xliff.tables :=
  Xliff.with_table (seen_type u)
    (Xliff.store (seen_id u) (seen_source u) (seen_target u)
       (Xliff.target_lang (seen_pair u)) (Xliff.table (seen_type u) t)) t.


(** The four texts of a merged record. *)
Definition texts : Type := string * option string * option string * option string.


(** ** Inputs of the examples *)

(** A card with one message row, labelled [FR:], whose text is
    "category". *)
Definition category_card : Search.card :=
  Search.mk_card [] [Search.mk_row (Some "FR:") "category"].

(** The four files of the JSON mode. *)
Definition npc_file : string := "export_npc_json.json".
Definition message_file : string := "export_npc_message_json.json".
Definition reply_file : string := "export_npc_reply_json.json".
Definition dialog_file : string := "export_npc_dialog_json.json".

(** A document of the fixed variant: one key over the list of rows. *)
Definition wrapped (rows : list json) : json := JDict [("rows", JList rows)].

(** The translation files of the spec's merge example. *)
Definition bonjour_en : trans_unit :=
  mk_unit "npc.42.message" (Some (Some "Bonjour")) (Some (Some "Hello")).
Definition bonjour_es : trans_unit :=
  mk_unit "npc.42.message" (Some (Some "Bonjour")) (Some (Some "Hola")).
Definition bonjour_xliff : xliff_folder := λ name,
  if decide (name = "en.xliff") then Some (Xliff [bonjour_en])
  else if decide (name = "es.xliff") then Some (Xliff [bonjour_es])
  else None.
Definition bonjour_files : list (Xliff.lang_pair * string) :=
  [(Xliff.fr_en, "en.xliff"); (Xliff.fr_es, "es.xliff")].
Definition structure_folder : folder := λ name,
  if decide (name = dialog_file) then Some (Json (wrapped []))
  else if decide (name = reply_file) then Some (Json (wrapped []))
  else None.

(** Tables with a reply that has no structural record, beside a
    message 0 and a message 5. *)
Definition orphan_tables : Xliff.tables :=
  Xliff.mk_tables []
    [(0, [(fr, "Zéro")]); (5, [(fr, "Cinq")])]
    [(300, [(fr, "Oui"); (en, "Yes")])].
Definition orphan_mapper : Fixed.mapper :=
  Fixed.mk_mapper true [] [] [] [] [] [] orphan_tables (Some []).

(** Two mappers with the same five collections and different other
    fields. *)
Definition garde : NPC.t :=
  NPC.mk 7 "Garde" None None None None [NPCDialog.mk 1 7 100 0] [] [].
Definition halte : NPCMessage.t :=
  NPCMessage.mk 100 "Halte!" None None None None
    [NPCReply.mk 200 "Qui êtes-vous?" None None None None 100 (Some 101)].
Definition un_ami : NPCMessage.t :=
  NPCMessage.mk 101 "Un ami." None None None None [].


(** Metadata for the matcher. *)
Definition meta (name : string) (gender : Z) (img : string) : NPCMetadata.t :=
  NPCMetadata.mk 1 gender "look" img "id" "en" "pt" "es" name "de".

(** Folders without the NPC file, in the format of each variant. *)
Definition original_folder_without_npcs : folder := λ name,
  if decide (name = dialog_file) then
    Some (Json (JList [JDict [("dialog_id", JInt 1); ("dialog_npc_id", JInt 7);
                              ("dialog_message_id", JInt 100);
                              ("dialog_message_check_order", JInt 0)]]))
  else if decide (name = message_file) then
    Some (Json (JList [JDict [("message_id", JInt 100); ("message_fr", JStr "Halte!")]]))
  else if decide (name = reply_file) then
    Some (Json (JList [JDict [("reply_id", JInt 200); ("reply_fr", JStr "Qui êtes-vous?");
                              ("reply_parent_id", JInt 100)]]))
  else None.
Definition fixed_folder_without_npcs : folder := λ name,
  if decide (name = dialog_file) then Some (Json (wrapped []))
  else if decide (name = message_file) then Some (Json (wrapped []))
  else if decide (name = reply_file) then Some (Json (wrapped []))
  else None.
Definition no_xliff : xliff_folder := λ _, None.

(** The end-to-end scenario of the spec. *)
Definition scenario_folder : folder := λ name,
  if decide (name = npc_file) then
    Some (Json (wrapped [JDict [("npc_id", JInt 7); ("npc_name_fr", JStr "Garde");
                                ("npc_name_en", JNull); ("npc_name_es", JNull);
                                ("npc_name_pt", JNull); ("context", JNull)]]))
  else if decide (name = message_file) then
    Some (Json (wrapped [
      JDict [("message_id", JInt 100); ("message_text_fr", JStr "Halte!");
             ("message_text_en", JNull); ("message_text_es", JNull);
             ("message_text_pt", JNull); ("message_i18n_context", JNull)];
      JDict [("message_id", JInt 101); ("message_text_fr", JStr "Un ami.");
             ("message_text_en", JNull); ("message_text_es", JNull);
             ("message_text_pt", JNull); ("message_i18n_context", JNull)]]))
  else if decide (name = reply_file) then
    Some (Json (wrapped [
      JDict [("reply_id", JInt 200); ("reply_text_fr", JStr "Qui êtes-vous?");
             ("reply_text_en", JNull); ("reply_text_es", JNull);
             ("reply_text_pt", JNull); ("reply_i18n_context", JNull);
             ("reply_parent_id", JInt 100); ("reply_message_id", JInt 101)]]))
  else if decide (name = dialog_file) then
    Some (Json (wrapped [
      JDict [("dialog_id", JInt 1); ("dialog_npc_id", JInt 7);
             ("dialog_message_id", JInt 100); ("dialog_message_check_order", JInt 0)]]))
  else None.

(** ** The loaded data *)

(** Every record of a dictionary is stored under its own id, and no key
    comes twice. *)
Definition keyed {V} (id_of : V → Z) (d : dict V) : Prop :=
  NoDup (dict_keys d) ∧ Forall (λ kv, id_of kv.2 = kv.1) d.

(** Before [_build_relationships]: ids are keys, and no record is linked
    or matched yet. *)
Definition unlinked (self : Fixed.mapper) : Prop :=
  keyed NPC.npc_id (Fixed.npcs self) ∧
  keyed NPCMessage.message_id (Fixed.messages self) ∧
  keyed NPCReply.reply_id (Fixed.replies self) ∧
  Forall (λ n, NPC.dialogs n = [] ∧ NPC.genders n = [] ∧ NPC.img_urls n = [])
    (dict_values (Fixed.npcs self)) ∧
  Forall (λ m, NPCMessage.replies m = []) (dict_values (Fixed.messages self)).

(** ** Statistics *)

(** The three counters of each language are counts, and add up to
    [total]. *)
Definition adds_up (total : Z) (s : Statistics.by_lang) : Prop :=
  Forall (λ c, 0 ≤ Statistics.null c ∧ 0 ≤ Statistics.x c ∧ 0 ≤ Statistics.valid c ∧
               Statistics.null c + Statistics.x c + Statistics.valid c = total)
    [Statistics.stats_en s; Statistics.stats_es s; Statistics.stats_pt s].

(** ** Text *)

(** The line feed, the carriage return and the two square brackets. *)
Definition LF : ascii := "010"%char.
Definition CR : ascii := "013"%char.

(** ** Highlights *)

(** [out] is [text] with highlights: the characters of [text], all of
    them and in their order, some stretches of them between the opening
    and the closing tag of a highlight, no stretch inside another. *)
Inductive highlighted : string → string → Prop :=
| highlighted_end : highlighted EmptyString EmptyString
| highlighted_char c text out :
    highlighted text out → highlighted (String c text) (String c out)
| highlighted_span stretch text out :
    highlighted text out →
    highlighted (stretch +:+ text)
      (Search.highlight_open +:+ stretch +:+ "</span>" +:+ out).

(** ** Translation units *)

(** [parts[2]] of the id of each kind of entry. *)
Definition entry_type_name (ty : Xliff.entry_type) : string :=
  match ty with
  | Xliff.name => "name"
  | Xliff.message => "message"
  | Xliff.reply => "reply"
  end.

(** The id of the trans-unit of an entry: [npc.<id>.<kind>]. *)
Definition unit_id_of (ty : Xliff.entry_type) (i : Z) : string :=
  "npc." +:+ str_of_int i +:+ "." +:+ entry_type_name ty.

(** ** Inputs of further examples *)

(** A row of the NPC file of the fixed variant, for NPC 7. *)
Definition garde_row (name : string) : json :=
  JDict [("npc_id", JInt 7); ("npc_name_fr", JStr name); ("npc_name_en", JNull);
         ("npc_name_es", JNull); ("npc_name_pt", JNull); ("context", JNull)].

(** An NPC file with two rows for NPC 7, and one with a row that has no
    key at all between them. *)
Definition two_gardes_folder : folder := λ name,
  if decide (name = npc_file) then
    Some (Json (wrapped [garde_row "Garde"; garde_row "Garde royal"]))
  else None.



(** An operating system for the examples: the folder [data] holds the
    files of [dir], and every path outside it exists. *)
Definition os_of (dir : folder) : Gui.os :=
  Gui.mk_os
    (λ path, match Fixed.drop_prefix "data/" path with
             | Some name => exists_ dir name
             | None => true
             end)
    (λ folder_path name, folder_path +:+ "/" +:+ name)
    (λ _, Some [])
    (λ _, true).

(** The form filled in for JSON mode. *)
Definition json_vars : Gui.vars :=
  Gui.mk_vars "json" "data" EmptyString "out" EmptyString EmptyString EmptyString.

(** The folder of the scenario with an empty metadata file. *)
Definition complete_folder : folder := λ name,
  if decide (name = "npcs_Dofus3-03_202508.json") then Some (Json (JList []))
  else scenario_folder name.

(** * Proofs *)

Set Warnings "-clear-no-such-hyp".
Local Arguments Fixed._generate_dialog_tree : simpl never.
Local Arguments Fixed.dialog_tree : simpl never.

(** ** The renderer *)

Lemma generate_dialog_tree_S fuel messages message dialog level visited :
  Fixed._generate_dialog_tree (S fuel) messages message dialog level visited =
  if decide (NPCMessage.message_id message ∈ visited) then
    Some (MessageRef (NPCMessage.message_id message), visited)
  else
    replies_html ← mapM (reply_step
        (λ m l v, Fixed._generate_dialog_tree fuel messages m dialog l v)
        messages level (visited ∪ {[NPCMessage.message_id message]}))
      (NPCMessage.replies message);
    Some (MessageDiv (Z.min level Fixed.max_level) (NPCMessage.message_id message)
            level (Fixed.badge level) (Fixed.message_rows message) replies_html,
          (visited ∪ {[NPCMessage.message_id message]}) ∖ {[NPCMessage.message_id message]}).
Proof. reflexivity. Qed.

Lemma dict_get_elem_of {V} (k : Z) (d : dict V) v :
  dict_get k d = Some v → v ∈ dict_values d.
Proof.
  induction d as [|[k' v'] d IH]; simpl; [done|].
  case_decide; intros ?; simplify_eq; [left | right; auto].
Qed.

Lemma lookup_next_ids messages reply x :
  Fixed.lookup_next messages reply = Some x →
  NPCMessage.message_id x ∈ message_ids messages.
Proof.
  unfold Fixed.lookup_next. intros Hx.
  destruct (Fixed.truthy _) as [t|]; simplify_eq/=.
  apply dict_get_elem_of in Hx.
  apply elem_of_list_to_set, list_elem_of_fmap. eauto.
Qed.

Lemma size_message_ids messages :
  (size (message_ids messages) ≤ length messages)%nat.
Proof.
  unfold message_ids, dict_values.
  induction messages as [|[k m] l IH].
  - done.
  - rewrite !fmap_cons, list_to_set_cons, size_union_alt, size_singleton. simpl.
    assert (size (list_to_set (NPCMessage.message_id <$> l.*2) ∖ {[NPCMessage.message_id m]} : gset Z)
            ≤ size (list_to_set (NPCMessage.message_id <$> l.*2) : gset Z))%nat
      by (apply subseteq_size; set_solver).
    lia.
Qed.

(** With the ids still unvisited as the measure, a message of the
    dictionary is rendered within one call more than the measure. *)
Lemma generate_dialog_tree_fuel fuel messages message dialog level visited :
  NPCMessage.message_id message ∈ message_ids messages →
  (size (message_ids messages ∖ visited) < fuel)%nat →
  ∃ h, Fixed._generate_dialog_tree fuel messages message dialog level visited
       = Some (h, visited).
Proof.
  revert message level visited.
  induction fuel as [|fuel IH]; intros message level visited Hin Hsize; [lia|].
  rewrite generate_dialog_tree_S.
  case_decide as Hvis; [eauto|].
  set (visited' := visited ∪ {[NPCMessage.message_id message]}).
  assert (size (message_ids messages ∖ visited') < fuel)%nat as Hlt.
  { assert (message_ids messages ∖ visited' ⊂ message_ids messages ∖ visited) as Hsub
      by (subst visited'; set_solver).
    apply subset_size in Hsub. lia. }
  assert (is_Some (mapM (reply_step
            (λ m l v, Fixed._generate_dialog_tree fuel messages m dialog l v)
            messages level visited') (NPCMessage.replies message))) as [rs Hrs].
  { apply mapM_is_Some_2, Forall_forall. intros reply _. unfold reply_step, compose.
    destruct (Fixed.lookup_next messages reply) as [x|] eqn:Hx; simpl; [|eauto].
    destruct (IH x (level + 2) (Fixed.copy visited')) as [h Hh];
      [by eapply lookup_next_ids | done |].
    rewrite Hh. simpl. eauto. }
  rewrite Hrs. simpl. eexists. do 2 f_equal. subst visited'. set_solver.
Qed.

(** More fuel does not change a result. *)
Lemma generate_dialog_tree_mono fuel fuel' messages message dialog level visited r :
  (fuel ≤ fuel')%nat →
  Fixed._generate_dialog_tree fuel messages message dialog level visited = Some r →
  Fixed._generate_dialog_tree fuel' messages message dialog level visited = Some r.
Proof.
  revert fuel' message level visited r.
  induction fuel as [|fuel IH]; intros fuel' message level visited r Hle; [done|].
  destruct fuel' as [|fuel']; [lia|].
  rewrite !generate_dialog_tree_S.
  case_decide; [done|].
  intros Hr. apply bind_Some in Hr as (rs & Hrs & Hr).
  apply bind_Some. exists rs. split; [|done].
  apply mapM_Some in Hrs. apply mapM_Some.
  eapply Forall2_impl; [exact Hrs|].
  intros reply rd. unfold reply_step.
  destruct (Fixed.lookup_next messages reply) as [x|]; simpl; [|done].
  intros Hn. apply bind_Some in Hn as (nested & Hn & Hrd).
  apply bind_Some in Hn as ([h V'] & Hh & Hn).
  apply bind_Some. exists nested. split; [|done].
  apply bind_Some. exists (h, V'). split; [|done].
  apply IH; [lia | done].
Qed.


Lemma reply_step_enough messages dialog level path reply :
  reply_step (λ m l v, Fixed._generate_dialog_tree (S (length messages)) messages m dialog l v)
    messages level path reply
  = Some (rendered_reply messages dialog level path reply).
Proof.
  unfold reply_step, rendered_reply.
  destruct (Fixed.lookup_next messages reply) as [x|] eqn:Hx; simpl; [|done].
  destruct (generate_dialog_tree_fuel (S (length messages)) messages x dialog
              (level + 2) (Fixed.copy path)) as [h Hh];
    [by eapply lookup_next_ids | |].
  { pose proof (size_message_ids messages).
    assert (size (message_ids messages ∖ Fixed.copy path)
            ≤ size (message_ids messages))%nat by (apply subseteq_size; set_solver).
    lia. }
  rewrite Hh. simpl. unfold Fixed.dialog_tree, Fixed.copy in *.
  change (Fixed.enough_fuel messages) with (S (S (length messages))).
  rewrite (generate_dialog_tree_mono (S (length messages)) (S (S (length messages)))
             _ _ _ _ _ _ ltac:(lia) Hh).
  reflexivity.
Qed.

(** The equation of the renderer, without fuel. *)
Lemma dialog_tree_unfold messages message dialog level visited :
  Fixed.dialog_tree messages message dialog level visited =
  if decide (NPCMessage.message_id message ∈ visited) then
    Some (MessageRef (NPCMessage.message_id message))
  else
    Some (MessageDiv (Z.min level Fixed.max_level) (NPCMessage.message_id message)
            level (Fixed.badge level) (Fixed.message_rows message)
            (rendered_reply messages dialog level
               (visited ∪ {[NPCMessage.message_id message]})
             <$> NPCMessage.replies message)).
Proof.
  unfold Fixed.dialog_tree.
  change (Fixed.enough_fuel messages) with (S (S (length messages))).
  rewrite generate_dialog_tree_S.
  case_decide as Hvis; [done|].
  erewrite mapM_Some_2; [reflexivity|].
  apply Forall2_fmap_r, Forall_Forall2_diag, Forall_forall. intros reply _.
  apply reply_step_enough.
Qed.

Lemma forallb_Forall2_r {A B} (P : A → B → Prop) (f : B → bool) l k :
  Forall2 P l k → (∀ x y, P x y → f y = true) → forallb f k = true.
Proof.
  induction 1 as [|x y l k Hxy _ IH]; intros Hf; simpl; [done|].
  rewrite (Hf _ _ Hxy), IH; auto.
Qed.

(** What a call returns is cycle-safe for the set it was given, and it
    leaves that set as it found it. *)
Lemma generate_dialog_tree_cycle_safe fuel messages message dialog level visited h visited' :
  Fixed._generate_dialog_tree fuel messages message dialog level visited = Some (h, visited') →
  cycle_safe visited h = true ∧ visited' = visited.
Proof.
  revert message level visited h visited'.
  induction fuel as [|fuel IH]; intros message level visited h visited'; [done|].
  rewrite generate_dialog_tree_S.
  case_decide as Hvis.
  - intros [= <- <-]. simpl. by rewrite bool_decide_eq_true_2.
  - intros Hr. apply bind_Some in Hr as (rs & Hrs & [= <- <-]).
    split; [|set_solver].
    simpl. rewrite bool_decide_eq_true_2 by done. simpl.
    apply mapM_Some in Hrs. eapply forallb_Forall2_r; [exact Hrs|].
    intros reply rd. unfold reply_step.
    destruct (Fixed.lookup_next messages reply) as [x|]; simpl.
    + intros Hn. apply bind_Some in Hn as (nested & Hn & [= <-]).
      apply bind_Some in Hn as ([h' V'] & Hh & [= <-]). simpl.
      by apply IH in Hh as [? _].
    + by intros [= <-].
Qed.

Lemma generate_dialog_tree_depths fuel messages message dialog level visited h visited' :
  Fixed._generate_dialog_tree fuel messages message dialog level visited = Some (h, visited') →
  depths_from Fixed.max_level level h = true.
Proof.
  revert message level visited h visited'.
  induction fuel as [|fuel IH]; intros message level visited h visited'; [done|].
  rewrite generate_dialog_tree_S.
  case_decide as Hvis.
  - by intros [= <- <-].
  - intros Hr. apply bind_Some in Hr as (rs & Hrs & [= <- <-]).
    simpl. rewrite !bool_decide_eq_true_2 by done. simpl.
    apply mapM_Some in Hrs. eapply forallb_Forall2_r; [exact Hrs|].
    intros reply rd. unfold reply_step.
    destruct (Fixed.lookup_next messages reply) as [x|]; simpl.
    + intros Hn. apply bind_Some in Hn as (nested & Hn & [= <-]).
      apply bind_Some in Hn as ([h' V'] & Hh & [= <-]). simpl.
      rewrite !bool_decide_eq_true_2 by done. simpl. by apply IH in Hh.
    + intros [= <-]. simpl. by rewrite !bool_decide_eq_true_2.
Qed.


Lemma dialog_tree_is_Some messages message dialog level visited :
  is_Some (Fixed.dialog_tree messages message dialog level visited).
Proof. rewrite dialog_tree_unfold. case_decide; eauto. Qed.

Lemma dialog_tree_depths messages message dialog level visited h :
  Fixed.dialog_tree messages message dialog level visited = Some h →
  depths_from Fixed.max_level level h = true.
Proof.
  unfold Fixed.dialog_tree. intros Hh.
  apply fmap_Some in Hh as ([h' V'] & Hh & ->).
  by eapply generate_dialog_tree_depths.
Qed.

(** C6. The visited set is scoped to the path: a call leaves the set it
    was given unchanged, and every reply of a message is rendered from
    the same set, the path down to that message (the callee works on a
    copy). So two sibling replies that lead to one message [x] outside
    the path both carry the full subtree of [x], the same in both
    branches, while a reply that leads to a message of the path carries
    the marker only. *)
Theorem visited_is_path_scoped
    (messages : dict NPCMessage.t) (message : NPCMessage.t) (dialog : NPCDialog.t)
    (level : Z) (visited : gset Z) :
  NPCMessage.message_id message ∉ visited →
  let path := visited ∪ {[NPCMessage.message_id message]} in
  (∀ fuel h visited',
     Fixed._generate_dialog_tree fuel messages message dialog level visited
       = Some (h, visited') →
     visited' = visited ∧ cycle_safe visited h = true) ∧
  Fixed.dialog_tree messages message dialog level visited =
    Some (MessageDiv (Z.min level Fixed.max_level) (NPCMessage.message_id message)
            level (Fixed.badge level) (Fixed.message_rows message)
            (rendered_reply messages dialog level path <$> NPCMessage.replies message)) ∧
  (∀ r1 r2 x,
     r1 ∈ NPCMessage.replies message → r2 ∈ NPCMessage.replies message →
     Fixed.lookup_next messages r1 = Some x →
     Fixed.lookup_next messages r2 = Some x →
     NPCMessage.message_id x ∉ path →
     ∃ rs,
       nested_messages (rendered_reply messages dialog level path r1) =
         Some (MessageDiv (Z.min (level + 2) Fixed.max_level) (NPCMessage.message_id x)
                 (level + 2) (Fixed.badge (level + 2)) (Fixed.message_rows x) rs) ∧
       nested_messages (rendered_reply messages dialog level path r2) =
         nested_messages (rendered_reply messages dialog level path r1)) ∧
  (∀ r x,
     r ∈ NPCMessage.replies message →
     Fixed.lookup_next messages r = Some x →
     NPCMessage.message_id x ∈ path →
     nested_messages (rendered_reply messages dialog level path r) =
       Some (MessageRef (NPCMessage.message_id x))).
Proof.
  intros Hvis path. split; [|split; [|split]].
  - intros fuel h visited' Hh.
    by apply generate_dialog_tree_cycle_safe in Hh as [? ?].
  - rewrite dialog_tree_unfold. by rewrite decide_False.
  - intros r1 r2 x _ _ H1 H2 Hx. unfold rendered_reply. simpl.
    rewrite H1, H2. simpl. rewrite dialog_tree_unfold, decide_False by done. eauto.
  - intros r x _ Hr Hx. unfold rendered_reply. simpl.
    rewrite Hr. simpl. by rewrite dialog_tree_unfold, decide_True.
Qed.

(** C7. The cap is 15. A message rendered at [level] stores depth
    [level], each of its replies stores [level + 1], the continuation
    message of a reply is at [level + 2], and every visual level is the
    stored depth capped at 15 ([depths_from]); the entry message of each
    dialog of a card is at depth 0; and a message at a depth past the
    cap keeps its depth (with a depth badge) at visual level 15. *)
Theorem depth_grows_by_one_and_indent_is_capped
    (messages : dict NPCMessage.t) (message : NPCMessage.t) (dialog : NPCDialog.t)
    (level : Z) (visited : gset Z) (npc : NPC.t) (k : nat) :
  Fixed.max_level = 15 ∧
  (∃ h, Fixed.dialog_tree messages message dialog level visited = Some h ∧
        depths_from 15 level h = true) ∧
  (∃ containers, Fixed.dialog_containers messages npc = Some containers ∧
        Forall (λ c, depths_from 15 0 (Fixed.container_tree c) = true) containers) ∧
  (∃ rs, Fixed.dialog_tree messages message dialog (16 + Z.of_nat k) ∅ =
        Some (MessageDiv 15 (NPCMessage.message_id message) (16 + Z.of_nat k)
                (Some (16 + Z.of_nat k)) (Fixed.message_rows message) rs)).
Proof.
  split; [done|]. split; [|split].
  - destruct (dialog_tree_is_Some messages message dialog level visited) as [h Hh].
    exists h. split; [done|]. by apply dialog_tree_depths in Hh.
  - unfold Fixed.dialog_containers.
    induction (NPC.dialogs npc) as [|d ds IH]; [by exists []|].
    destruct IH as (cs & Hcs & Hall).
    apply fmap_Some in Hcs as (css & Hcss & ->).
    simpl.
    destruct (dict_get (NPCDialog.message_id d) messages) as [m|]; simpl.
    + destruct (dialog_tree_is_Some messages m d 0 ∅) as [h Hh].
      rewrite Hh. simpl. rewrite Hcss. simpl.
      eexists. split; [done|]. constructor; [|done].
      simpl. by apply dialog_tree_depths in Hh.
    + rewrite Hcss. simpl. eauto.
  - rewrite dialog_tree_unfold, decide_False by set_solver.
    unfold Fixed.badge, Fixed.max_level.
    rewrite decide_True by lia. rewrite Z.min_r by lia. eauto.
Qed.

Lemma visited_is_path_scoped_witness :
  ∃ rs,
    nested_messages (rendered_reply loop_messages loop_dialog 0 {[1]}
                       (NPCReply.mk 10 "Oui" None None None None 1 (Some 2))) =
      Some (MessageDiv 2 2 2 None (Fixed.message_rows loop_message_2) rs) ∧
    nested_messages (rendered_reply loop_messages loop_dialog 0 {[1]}
                       (NPCReply.mk 11 "Non" None None None None 1 (Some 2))) =
    nested_messages (rendered_reply loop_messages loop_dialog 0 {[1]}
                       (NPCReply.mk 10 "Oui" None None None None 1 (Some 2))).
Proof.
  pose proof (visited_is_path_scoped loop_messages loop_message_1 loop_dialog 0 ∅
                ltac:(set_solver)) as (_ & _ & Hsiblings & _).
  replace ({[1]} : gset Z) with (∅ ∪ {[NPCMessage.message_id loop_message_1]} : gset Z)
    by set_solver.
  apply (Hsiblings _ _ loop_message_2).
  - simpl. set_solver.
  - simpl. set_solver.
  - reflexivity.
  - reflexivity.
  - simpl. set_solver.
Defined.

(** ** The stable sort *)

Section Sorted.
Context {A K : Type} (lt : K → K → bool) (le : relation K) (key : A → K).
Context `{!Transitive le, !Total le}.
Hypothesis lt_false : ∀ a b, lt a b = false ↔ le b a.

Lemma insert_by_Permutation x l : insert_by lt key x l ≡ₚ x :: l.
Proof.
  induction l as [|y l IH]; simpl; [done|].
  destruct (lt (key x) (key y)); [done|].
  rewrite IH. apply Permutation_swap.
Qed.

Lemma sorted_Permutation l : sorted lt key l ≡ₚ l.
Proof.
  unfold sorted. rewrite <-(app_nil_l l) at 2.
  generalize (@nil A). induction l as [|x l IH]; intros acc; simpl.
  - by rewrite app_nil_r.
  - rewrite IH, insert_by_Permutation. simpl. apply Permutation_middle.
Qed.

Lemma insert_by_StronglySorted x l :
  StronglySorted (λ a b, le (key a) (key b)) l →
  StronglySorted (λ a b, le (key a) (key b)) (insert_by lt key x l).
Proof.
  induction 1 as [|y l Hl IH Hy]; simpl.
  - repeat constructor.
  - destruct (lt (key x) (key y)) eqn:Hxy.
    + assert (le (key x) (key y)) as Hle.
      { destruct (total le (key x) (key y)) as [?|Hyx]; [done|].
        apply lt_false in Hyx. congruence. }
      constructor; [by constructor|].
      constructor; [done|].
      eapply Forall_impl; [exact Hy|]. intros z ?. by etrans.
    + apply lt_false in Hxy.
      constructor; [done|].
      rewrite insert_by_Permutation. by constructor.
Qed.

Lemma sorted_StronglySorted l :
  StronglySorted (λ a b, le (key a) (key b)) (sorted lt key l).
Proof.
  unfold sorted.
  assert (StronglySorted (λ a b, le (key a) (key b)) (@nil A)) as Hnil by constructor.
  revert Hnil. generalize (@nil A).
  induction l as [|x l IH]; intros acc Hacc; simpl; [done|].
  by apply IH, insert_by_StronglySorted.
Qed.

End Sorted.

Lemma filter_StronglySorted {A} (R : relation A) (P : A → Prop) `{!∀ x, Decision (P x)} l :
  StronglySorted R l → StronglySorted R (filter P l).
Proof.
  induction 1 as [|x l Hl IH Hx]; [constructor|].
  rewrite filter_cons. case_decide; [|done].
  constructor; [done|]. apply Forall_forall. intros y Hy.
  apply list_elem_of_filter in Hy as [_ Hy].
  rewrite Forall_forall in Hx. auto.
Qed.

Lemma str_lt_false a b : Fixed.str_lt a b = false ↔ String.le b a.
Proof.
  unfold Fixed.str_lt, String.le, String.ltb, String.leb.
  rewrite (String.compare_antisym a b).
  destruct (String.compare b a); simpl; split; done.
Qed.

Lemma Z_ltb_false a b : Z.ltb a b = false ↔ (b ≤ a)%Z.
Proof. apply Z.ltb_ge. Qed.

(** ** The page *)






(** ** Dictionaries *)

Section Dict.
Context {V : Type}.
Implicit Types (d : dict V) (k : Z) (v : V).

Lemma dict_mem_spec k d : dict_mem k d = true ↔ is_Some (dict_get k d).
Proof.
  unfold dict_mem. destruct (dict_get k d); split; intros H; eauto; try done.
Qed.

Lemma dict_get_set k k' v d :
  dict_get k' (dict_set k v d) = if decide (k = k') then Some v else dict_get k' d.
Proof.
  induction d as [|[k0 v0] d IH]; simpl.
  - repeat case_decide; simplify_eq; done.
  - repeat (case_decide; simpl; simplify_eq); try done.
    all: rewrite IH; by repeat case_decide.
Qed.

Lemma dict_get_update k k' (f : V → V) d :
  dict_get k' (dict_update k f d) =
  if decide (k = k') then f <$> dict_get k d else dict_get k' d.
Proof.
  induction d as [|[k0 v0] d IH]; simpl.
  - by case_decide.
  - repeat (case_decide; simpl; simplify_eq); try done.
    all: rewrite IH; by repeat case_decide.
Qed.

Lemma dict_keys_set k v d :
  dict_keys (dict_set k v d) = if dict_mem k d then dict_keys d else dict_keys d ++ [k].
Proof.
  unfold dict_keys, dict_mem.
  induction d as [|[k0 v0] d IH]; simpl; [done|].
  case_decide; simplify_eq/=; [done|].
  destruct (dict_get k d); simpl in *; by f_equal.
Qed.

Lemma dict_keys_update k (f : V → V) d : dict_keys (dict_update k f d) = dict_keys d.
Proof.
  unfold dict_keys. induction d as [|[k0 v0] d IH]; simpl; [done|].
  case_decide; simpl; [done|]. by f_equal.
Qed.

Lemma dict_get_None k d : dict_get k d = None ↔ k ∉ dict_keys d.
Proof.
  unfold dict_keys. induction d as [|[k0 v0] d IH]; simpl.
  - split; [|done]. intros _. apply not_elem_of_nil.
  - rewrite not_elem_of_cons. case_decide; simplify_eq; [naive_solver|].
    rewrite IH. naive_solver.
Qed.

Lemma dict_set_NoDup k v d : NoDup (dict_keys d) → NoDup (dict_keys (dict_set k v d)).
Proof.
  intros Hd. rewrite dict_keys_set. unfold dict_mem.
  destruct (dict_get k d) eqn:Hk; [done|].
  apply dict_get_None in Hk.
  apply NoDup_app. split; [done|]. split; [|apply NoDup_singleton].
  intros x Hx ->%list_elem_of_singleton. done.
Qed.

(** With distinct keys, [dict_get] finds every entry. *)
Lemma dict_get_Some_NoDup k v d :
  NoDup (dict_keys d) → (k, v) ∈ d → dict_get k d = Some v.
Proof.
  unfold dict_keys. induction d as [|[k0 v0] d IH]; simpl.
  - intros _ ?%elem_of_nil. done.
  - rewrite NoDup_cons. intros [Hk0 Hd] [?|Hin]%elem_of_cons; simplify_eq.
    + by rewrite decide_True.
    + rewrite decide_False; [auto|]. intros ->. apply Hk0.
      apply list_elem_of_fmap. by exists (k0, v).
Qed.

Lemma dict_get_Some_elem_of k v d : dict_get k d = Some v → (k, v) ∈ d.
Proof.
  induction d as [|[k0 v0] d IH]; simpl; [done|].
  case_decide; intros ?; simplify_eq; [left|right; auto].
Qed.

(** What a loop of [d[key] = value] leaves under a key. *)
Lemma dict_get_foldl_set {A} (key : A → Z) (value : A → V) (l : list A) d k :
  dict_get k (foldl (λ d a, dict_set (key a) (value a) d) d l) =
  match last (filter (λ a, key a = k) l) with
  | Some a => Some (value a)
  | None => dict_get k d
  end.
Proof.
  revert d. induction l as [|a l IH] using rev_ind; intros d; [done|].
  rewrite foldl_app, filter_app. simpl. rewrite dict_get_set.
  rewrite filter_cons, filter_nil.
  case_decide; [by rewrite last_snoc|].
  by rewrite app_nil_r, IH.
Qed.

End Dict.

(** ** Merging and linking in the fixed variant *)

Lemma merge_xliff_with_structure_eq self rels :
  Fixed._reply_relationships self = Some rels →
  Fixed._merge_xliff_with_structure self =
  Ok (Fixed.mk_mapper (Fixed.use_xliff self) (Fixed.xliff_files self)
        (merged_npcs self) (merged_messages self) (merged_replies rels self)
        (Fixed.dialogs self) (Fixed.metadata self) (Fixed.xliff_translations self) None).
Proof.
  intros Hrels. unfold Fixed._merge_xliff_with_structure, merged_npcs, merged_messages,
    merged_replies.
  destruct self as [ux xf ns ms rs ds md [tn tm tr] rl]. simpl in *. subst rl.
  assert (∀ (l : dict Xliff.translation) ns0 ms0 rs0 rl0,
    foldl (λ self kv, Fixed.with_npcs
             (dict_set kv.1 (Fixed.npc_of_translations kv.1 kv.2) (Fixed.npcs self)) self)
      (Fixed.mk_mapper ux xf ns0 ms0 rs0 ds md (Xliff.mk_tables tn tm tr) rl0) l =
    Fixed.mk_mapper ux xf
      (foldl (λ d kv, dict_set kv.1 (Fixed.npc_of_translations kv.1 kv.2) d) ns0 l)
      ms0 rs0 ds md (Xliff.mk_tables tn tm tr) rl0) as Hn.
  { induction l as [|kv l IH]; intros; simpl; [done|]. by rewrite <-IH. }
  assert (∀ (l : dict Xliff.translation) ns0 ms0 rs0 rl0,
    foldl (λ self kv, Fixed.with_messages
             (dict_set kv.1 (Fixed.message_of_translations kv.1 kv.2) (Fixed.messages self)) self)
      (Fixed.mk_mapper ux xf ns0 ms0 rs0 ds md (Xliff.mk_tables tn tm tr) rl0) l =
    Fixed.mk_mapper ux xf ns0
      (foldl (λ d kv, dict_set kv.1 (Fixed.message_of_translations kv.1 kv.2) d) ms0 l)
      rs0 ds md (Xliff.mk_tables tn tm tr) rl0) as Hm.
  { induction l as [|kv l IH]; intros; simpl; [done|]. by rewrite <-IH. }
  assert (∀ (l : dict Xliff.translation) ns0 ms0 rs0 rl0,
    foldl (λ self kv, Fixed.with_replies
             (dict_set kv.1 (Fixed.reply_of_translations rels kv.1 kv.2) (Fixed.replies self)) self)
      (Fixed.mk_mapper ux xf ns0 ms0 rs0 ds md (Xliff.mk_tables tn tm tr) rl0) l =
    Fixed.mk_mapper ux xf ns0 ms0
      (foldl (λ d kv, dict_set kv.1 (Fixed.reply_of_translations rels kv.1 kv.2) d) rs0 l)
      ds md (Xliff.mk_tables tn tm tr) rl0) as Hr.
  { induction l as [|kv l IH]; intros; simpl; [done|]. by rewrite <-IH. }
  rewrite Hn, Hm. simpl. by rewrite Hr.
Qed.

Lemma build_relationships_messages self :
  Fixed.messages (Fixed._build_relationships self) =
  foldl Fixed.link_reply (Fixed.messages self) (dict_values (Fixed.replies self)).
Proof. reflexivity. Qed.

Lemma dict_get_link_reply messages reply mid :
  dict_get mid (Fixed.link_reply messages reply) =
  (if decide (NPCReply.parent_message_id reply = mid)
   then NPCMessage.append_reply reply else id) <$> dict_get mid messages.
Proof.
  unfold Fixed.link_reply.
  destruct (dict_mem _ messages) eqn:Hmem.
  - rewrite dict_get_update. case_decide; [by subst|]. by rewrite option_fmap_id.
  - case_decide; [subst|by rewrite option_fmap_id].
    unfold dict_mem in Hmem. by destruct (dict_get _ messages).
Qed.

(** A message gets the replies whose parent it is, in the order of
    [self.replies], after the replies it had. *)
Lemma dict_get_link_replies messages replies mid :
  dict_get mid (foldl Fixed.link_reply messages replies) =
  (λ m, NPCMessage.mk (NPCMessage.message_id m) (NPCMessage.text_fr m)
          (NPCMessage.text_en m) (NPCMessage.text_es m) (NPCMessage.text_pt m)
          (NPCMessage.context m)
          (NPCMessage.replies m ++
           filter (λ r, NPCReply.parent_message_id r = mid) replies))
  <$> dict_get mid messages.
Proof.
  revert messages. induction replies as [|r rs IH]; intros messages; simpl.
  - destruct (dict_get mid messages) as [[]|]; simpl; [|done]. by rewrite app_nil_r.
  - rewrite IH, dict_get_link_reply, filter_cons.
    destruct (dict_get mid messages) as [[]|]; simpl; [|done].
    case_decide; simpl; [|done]. by rewrite <-app_assoc.
Qed.

Lemma merged_messages_no_replies self :
  Forall (λ m, NPCMessage.replies m = []) (dict_values (Fixed.messages self)) →
  Forall (λ m, NPCMessage.replies m = []) (dict_values (merged_messages self)).
Proof.
  unfold merged_messages.
  generalize (Xliff.messages (Fixed.xliff_translations self)). intros l.
  generalize (Fixed.messages self). clear self.
  induction l as [|kv l IH]; intros d Hd; simpl; [done|].
  apply IH. clear IH. unfold dict_values in *.
  induction d as [|[k0 m0] d IHd]; simpl.
  - by repeat constructor.
  - apply Forall_cons in Hd as [? ?]. case_decide; simpl; constructor; auto.
Qed.

(** C9. In XLIFF mode (no message loaded before the merge), a reply
    whose id has a translation entry and no structural record is still
    created, with [parent_message_id] 0 and [leads_to_message_id]
    [None]; after [_build_relationships] it is among the replies of the
    message stored under a key exactly when that key is 0, so without a
    message 0 it is under no message. *)
Theorem xliff_reply_without_structure_defaults
    (self : Fixed.mapper) (rels : dict Fixed.relationship)
    (reply_id : Z) (translations : Xliff.translation) :
  Fixed.messages self = [] →
  Fixed._reply_relationships self = Some rels →
  dict_get reply_id (Xliff.replies (Fixed.xliff_translations self)) = Some translations →
  dict_get reply_id rels = None →
  ∃ merged reply,
    Fixed._merge_xliff_with_structure self = Ok merged ∧
    dict_get reply_id (Fixed.replies merged) = Some reply ∧
    NPCReply.reply_id reply = reply_id ∧
    NPCReply.parent_message_id reply = 0 ∧
    NPCReply.leads_to_message_id reply = None ∧
    ∀ mid m,
      dict_get mid (Fixed.messages (Fixed._build_relationships merged)) = Some m →
      (reply ∈ NPCMessage.replies m ↔ mid = 0).
Proof.
  intros Hfresh Hrels Htr Hnone.
  rewrite (merge_xliff_with_structure_eq self rels Hrels).
  set (merged := Fixed.mk_mapper _ _ _ _ _ _ _ _ _).
  assert (∃ tr', dict_get reply_id (merged_replies rels self)
                 = Some (Fixed.reply_of_translations rels reply_id tr')) as [tr' Hget].
  { unfold merged_replies.
    rewrite (dict_get_foldl_set (λ kv, kv.1) (λ kv, Fixed.reply_of_translations rels kv.1 kv.2)).
    destruct (last _) as [[k tr']|] eqn:Hlast.
    - apply last_Some_elem_of, list_elem_of_filter in Hlast as [Hk _].
      simpl in *. subst. eauto.
    - apply last_None in Hlast.
      apply dict_get_Some_elem_of in Htr.
      match type of Hlast with
      | ?l = [] => assert ((reply_id, translations) ∈ l) as Hin
                     by (by apply list_elem_of_filter)
      end.
      rewrite Hlast in Hin. by apply elem_of_nil in Hin. }
  set (reply := Fixed.reply_of_translations rels reply_id tr').
  assert (NPCReply.parent_message_id reply = 0) as Hparent
    by (unfold reply, Fixed.reply_of_translations; simpl; by rewrite Hnone).
  assert (NPCReply.leads_to_message_id reply = None) as Hleads
    by (unfold reply, Fixed.reply_of_translations; simpl; by rewrite Hnone).
  exists merged, reply.
  split; [done|]. split; [exact Hget|]. do 3 (split; [done|]).
  intros mid m. rewrite build_relationships_messages, dict_get_link_replies.
  change (Fixed.messages merged) with (merged_messages self).
  change (Fixed.replies merged) with (merged_replies rels self).
  intros Hm. apply fmap_Some in Hm as (m0 & Hm0 & ->). simpl.
  assert (NPCMessage.replies m0 = []) as ->.
  { pose proof (merged_messages_no_replies self) as Hall.
    rewrite Hfresh in Hall. specialize (Hall (Forall_nil_2 _)).
    rewrite Forall_forall in Hall. apply Hall.
    apply dict_get_Some_elem_of in Hm0.
    apply list_elem_of_fmap. by exists (mid, m0). }
  simpl. rewrite list_elem_of_filter, Hparent. split; [by intros [<- _]|].
  intros ->. split; [done|].
  apply dict_get_Some_elem_of in Hget.
  apply list_elem_of_fmap. by exists (reply_id, reply).
Qed.

(** ** Translation files *)

Lemma load_file_seen clean dir t entry :
  Xliff.load_file clean dir t entry = foldl apply_seen t (seen_in_file clean dir entry).
Proof.
  unfold Xliff.load_file, seen_in_file.
  destruct (dir entry.2) as [[|us]|]; [done| |done].
  revert t. induction us as [|u us IH]; intros t; simpl; [done|].
  rewrite IH. unfold Xliff.load_unit.
  destruct (Xliff.parse_unit clean u) as [[[[ty i] s] tg]|]; done.
Qed.

Lemma load_seen clean dir xliff_files t :
  Xliff.load clean dir xliff_files t =
  foldl apply_seen t (xliff_files ≫= seen_in_file clean dir).
Proof.
  unfold Xliff.load. revert t.
  induction xliff_files as [|entry l IH]; intros t; simpl; [done|].
  by rewrite IH, load_file_seen, foldl_app.
Qed.

Lemma table_with_table ty ty' v t :
  Xliff.table ty' (Xliff.with_table ty v t) = if decide (ty = ty') then v else Xliff.table ty' t.
Proof. by destruct ty, ty', t. Qed.







Lemma store_NoDup i s tg tl d :
  NoDup (dict_keys d) → NoDup (dict_keys (Xliff.store i s tg tl d)).
Proof.
  intros Hd. unfold Xliff.store. rewrite dict_keys_update.
  destruct (dict_mem i d); [done|]. by apply dict_set_NoDup.
Qed.

Lemma load_NoDup clean dir xliff_files t ty :
  (∀ ty, NoDup (dict_keys (Xliff.table ty t))) →
  NoDup (dict_keys (Xliff.table ty (Xliff.load clean dir xliff_files t))).
Proof.
  rewrite load_seen. generalize (xliff_files ≫= seen_in_file clean dir). intros units.
  revert t ty. induction units as [|u us IH]; intros t ty Ht; simpl; [done|].
  apply IH. intros ty'. unfold apply_seen. rewrite table_with_table.
  case_decide; [|done]. by apply store_NoDup.
Qed.





Lemma load_metadata_keeps dir self :
  let self' := Fixed._load_metadata dir self in
  Fixed.use_xliff self' = Fixed.use_xliff self ∧
  Fixed.xliff_files self' = Fixed.xliff_files self ∧
  Fixed.npcs self' = Fixed.npcs self ∧
  Fixed.messages self' = Fixed.messages self ∧
  Fixed.replies self' = Fixed.replies self ∧
  Fixed.xliff_translations self' = Fixed.xliff_translations self.
Proof.
  unfold Fixed._load_metadata.
  destruct (negb _); [done|]. by destruct (_ ≫= _).
Qed.

Lemma for_each_append_dialog_keeps items self self' :
  for_each Fixed.append_dialog items self = Ok self' →
  Fixed.npcs self' = Fixed.npcs self ∧
  Fixed.messages self' = Fixed.messages self ∧
  Fixed.replies self' = Fixed.replies self ∧
  Fixed.xliff_translations self' = Fixed.xliff_translations self.
Proof.
  revert self. induction items as [|item items IH]; intros self; simpl.
  - by intros [= ->].
  - destruct (Fixed.append_dialog self item) as [self1|] eqn:Happ; simpl; [|done].
    intros Hrest. apply IH in Hrest as (-> & -> & -> & ->).
    unfold Fixed.append_dialog in Happ.
    destruct (Fixed.dialog_of_json item) as [d|]; simpl in Happ; [|done].
    by injection Happ as <-.
Qed.

Lemma bind_Ok {A B} (r : result A) (k : A → result B) b :
  r ≫= k = Ok b → ∃ a, r = Ok a ∧ k a = Ok b.
Proof. destruct r; simpl; [eauto|done]. Qed.

Lemma load_structure_from_json_keeps dir self self' :
  Fixed._load_structure_from_json dir self = Ok self' →
  Fixed.npcs self' = Fixed.npcs self ∧
  Fixed.messages self' = Fixed.messages self ∧
  Fixed.replies self' = Fixed.replies self ∧
  Fixed.xliff_translations self' = Fixed.xliff_translations self ∧
  ∃ rels, Fixed._reply_relationships self' = Some rels.
Proof.
  unfold Fixed._load_structure_from_json. intros Hload.
  apply bind_Ok in Hload as (data & _ & Hload).
  apply bind_Ok in Hload as (dialog_data & _ & Hload).
  apply bind_Ok in Hload as (items & _ & Hload).
  apply bind_Ok in Hload as (self1 & Hdialogs & Hload).
  apply bind_Ok in Hload as (data2 & _ & Hload).
  apply bind_Ok in Hload as (reply_data & _ & Hload).
  apply bind_Ok in Hload as (items2 & _ & Hload).
  apply bind_Ok in Hload as (rels & _ & [= <-]).
  apply for_each_append_dialog_keeps in Hdialogs as (<- & <- & <- & <-).
  repeat split; eauto.
Qed.

Section Loaded.
Context `{SetOrder}.


End Loaded.





(** ** The metadata matcher *)






(** ** The search script *)

Lemma removeDiacritics_ascii `{Search.Normalizer} (s : string) :
  Search.is_ascii s → Search.removeDiacritics s = Search.remove_marks s.
Proof. intros Hs. unfold Search.removeDiacritics. by rewrite Search.normalize_nfd_ascii. Qed.

Lemma is_ascii_category : Search.is_ascii "category".
Proof. unfold Search.is_ascii. simpl. repeat constructor. Qed.
Lemma is_ascii_cat : Search.is_ascii "cat".
Proof. unfold Search.is_ascii. simpl. repeat constructor. Qed.
Lemma is_ascii_cat_star : Search.is_ascii "cat*".
Proof. unfold Search.is_ascii. simpl. repeat constructor. Qed.

(** C4, as amended. For the text "category": the term "cat" does not
    match with [exactMatch] and matches without it; the term "cat*" with
    [useWildcards] matches without [exactMatch]; with [exactMatch] the
    whole-word expression is used and the star is a literal character,
    so "cat*" does not match. The same holds for [searchInText] on a
    card whose only row holds that text, and [highlightText] leaves the
    text unmarked in the two cases without a match. *)
Theorem exact_match_takes_precedence_over_wildcards `{Search.Normalizer}
    (ignoreDiacritics useWildcards : bool) :
  Search.row_matches "category" "cat" ignoreDiacritics useWildcards true = false ∧
  Search.row_matches "category" "cat" ignoreDiacritics useWildcards false = true ∧
  Search.row_matches "category" "cat*" ignoreDiacritics true false = true ∧
  Search.row_matches "category" "cat*" ignoreDiacritics true true = false ∧
  Search.searchInText category_card "cat" ["fr"] ignoreDiacritics useWildcards true = false ∧
  Search.searchInText category_card "cat" ["fr"] ignoreDiacritics useWildcards false = true ∧
  Search.searchInText category_card "cat*" ["fr"] ignoreDiacritics true false = true ∧
  Search.searchInText category_card "cat*" ["fr"] ignoreDiacritics true true = false ∧
  Search.highlightText "category" "cat" ignoreDiacritics useWildcards true = "category" ∧
  Search.highlightText "category" "cat*" ignoreDiacritics true true = "category".
Proof.
  unfold Search.searchInText, Search.searchInNPCNames, Search.any_row_matches,
    Search.row_matches, Search.highlightText, category_card.
  simpl.
  change (lower "category") with "category".
  destruct ignoreDiacritics;
    rewrite ?(removeDiacritics_ascii _ is_ascii_category),
            ?(removeDiacritics_ascii _ is_ascii_cat),
            ?(removeDiacritics_ascii _ is_ascii_cat_star);
    destruct useWildcards; vm_compute; done.
Qed.

Lemma wildcard_with_exact_match_counterexample :
  @Search.row_matches Search.ascii_normalizer "category" "cat*" false true true = false ∧
  @Search.searchInText Search.ascii_normalizer category_card "cat*" ["fr"] false true true
    = false.
Proof. by vm_compute. Qed.

(** ** Absent files *)

Lemma open_json_absent dir name : dir name = None → open_json dir name = Raise FileNotFoundError.
Proof. unfold open_json. by intros ->. Qed.

Lemma load_records_absent dir name not_found empty add self :
  dir name = None →
  Original.load_records dir name not_found empty add self = Original.warn not_found self.
Proof. unfold Original.load_records, exists_. by intros ->. Qed.

(** A loader built on [load_records] changes no field that neither
    [warn] nor its [add] changes. *)
Lemma load_records_keeps {X} (p : Original.mapper → X) dir name not_found empty add self :
  (∀ line s, p (Original.warn line s) = p s) →
  (∀ s item s', add s item = Ok s' → p s' = p s) →
  p (Original.load_records dir name not_found empty add self) = p self.
Proof.
  intros Hwarn Hadd. unfold Original.load_records.
  destruct (negb _); [done|].
  destruct (open_json dir name) as [data|]; simpl; [|done].
  destruct (py_len data); simpl; [|done].
  destruct (Original.is_empty data); [done|].
  destruct (Original.first_entry data) as [first|]; simpl; [|done].
  destruct (Original.is_dict first); [|done].
  destruct (py_iter data) as [items|]; simpl; [|done].
  revert self. induction items as [|item items IH]; intros self; simpl; [done|].
  rewrite IH. destruct (negb _); [done|].
  destruct (add self item) eqn:Hitem; [|done]. by eapply Hadd.
Qed.

Ltac ok_fields H :=
  repeat (apply bind_Ok in H as (? & _ & H)); by injection H as <-.

Lemma add_npc_keeps s item s' :
  Original.add_npc s item = Ok s' →
  Original.use_xliff s' = Original.use_xliff s ∧
  Original.messages s' = Original.messages s ∧
  Original.replies s' = Original.replies s.
Proof. unfold Original.add_npc. intros H. ok_fields H. Qed.

Lemma add_message_keeps s item s' :
  Original.add_message s item = Ok s' →
  Original.use_xliff s' = Original.use_xliff s ∧
  Original.npcs s' = Original.npcs s ∧
  Original.replies s' = Original.replies s.
Proof. unfold Original.add_message. intros H. ok_fields H. Qed.

Lemma add_reply_keeps s item s' :
  Original.add_reply s item = Ok s' →
  Original.use_xliff s' = Original.use_xliff s ∧
  Original.npcs s' = Original.npcs s ∧
  Original.messages s' = Original.messages s.
Proof. unfold Original.add_reply. intros H. ok_fields H. Qed.

Lemma add_metadata_keeps s item s' :
  Original.add_metadata s item = Ok s' →
  Original.use_xliff s' = Original.use_xliff s ∧
  Original.npcs s' = Original.npcs s ∧
  Original.messages s' = Original.messages s ∧
  Original.replies s' = Original.replies s.
Proof.
  unfold Original.add_metadata. destruct item; try done.
  destruct (negb _); [by intros [= ->]|]. intros H. ok_fields H.
Qed.

Lemma original_load_dialogs_eq dir self :
  Original._load_dialogs dir self =
  items ← (if negb (exists_ dir dialog_file) then Raise FileNotFoundError
           else dialog_data ← open_json dir dialog_file;
                _ ← py_len dialog_data; py_iter dialog_data);
  Ok (foldl Original.add_dialog self items).
Proof.
  unfold Original._load_dialogs, dialog_file.
  destruct (negb _); [done|].
  destruct (open_json _ _) as [data|]; simpl; [|done].
  destruct (py_len data); simpl; [|done]. by destruct (py_iter data).
Qed.

Lemma foldl_add_dialog_keeps items self :
  Original.use_xliff (foldl Original.add_dialog self items) = Original.use_xliff self ∧
  Original.npcs (foldl Original.add_dialog self items) = Original.npcs self ∧
  Original.messages (foldl Original.add_dialog self items) = Original.messages self ∧
  Original.replies (foldl Original.add_dialog self items) = Original.replies self.
Proof.
  revert self. induction items as [|item items IH]; intros self; simpl; [done|].
  destruct (IH (Original.add_dialog self item)) as (-> & -> & -> & ->).
  unfold Original.add_dialog. by destruct (Original.dialog_of_item item).
Qed.

Lemma foldl_link_dialog_nil dialogs : foldl Original.link_dialog [] dialogs = [].
Proof. by induction dialogs. Qed.

Lemma foldl_link_reply_nil replies : foldl Original.link_reply [] replies = [].
Proof. by induction replies. Qed.

(** In JSON mode the original [load_data] succeeds when its
    [_load_dialogs] does. *)
Lemma original_load_data_json dir xdir self d :
  Original.use_xliff self = false →
  Original._load_dialogs dir self = Ok d →
  ∃ loaded,
    Original.load_data dir xdir self = Ok loaded ∧
    ∃ s3 items,
      s3 = Original._load_replies dir
             (Original._load_messages dir
                (Original._load_npcs dir (Original._load_metadata dir self))) ∧
      loaded = Original._match_metadata_with_npcs
                 (Original._build_relationships (foldl Original.add_dialog s3 items)).
Proof.
  intros Hux Hd. unfold Original.load_data.
  assert (Original.use_xliff (Original._load_metadata dir self) = false) as ->.
  { unfold Original._load_metadata. rewrite load_records_keeps; [done|done|].
    intros s item s' Hadd. by apply add_metadata_keeps in Hadd as (? & _). }
  rewrite original_load_dialogs_eq in Hd |- *.
  apply bind_Ok in Hd as (items & -> & _). simpl. eauto 10.
Qed.

Lemma original_loaders_keep dir self :
  (Original.npcs (Original._load_metadata dir self) = Original.npcs self ∧
   Original.messages (Original._load_metadata dir self) = Original.messages self ∧
   Original.replies (Original._load_metadata dir self) = Original.replies self) ∧
  (Original.messages (Original._load_npcs dir self) = Original.messages self ∧
   Original.replies (Original._load_npcs dir self) = Original.replies self) ∧
  (Original.npcs (Original._load_messages dir self) = Original.npcs self ∧
   Original.replies (Original._load_messages dir self) = Original.replies self) ∧
  (Original.npcs (Original._load_replies dir self) = Original.npcs self ∧
   Original.messages (Original._load_replies dir self) = Original.messages self).
Proof.
  unfold Original._load_metadata, Original._load_npcs, Original._load_messages,
    Original._load_replies.
  repeat split.
  - apply (load_records_keeps Original.npcs); [done|].
    intros ??? Hadd. by apply add_metadata_keeps in Hadd as (? & ? & ? & ?).
  - apply (load_records_keeps Original.messages); [done|].
    intros ??? Hadd. by apply add_metadata_keeps in Hadd as (? & ? & ? & ?).
  - apply (load_records_keeps Original.replies); [done|].
    intros ??? Hadd. by apply add_metadata_keeps in Hadd as (? & ? & ? & ?).
  - apply (load_records_keeps Original.messages); [done|].
    intros ??? Hadd. by apply add_npc_keeps in Hadd as (? & ? & ?).
  - apply (load_records_keeps Original.replies); [done|].
    intros ??? Hadd. by apply add_npc_keeps in Hadd as (? & ? & ?).
  - apply (load_records_keeps Original.npcs); [done|].
    intros ??? Hadd. by apply add_message_keeps in Hadd as (? & ? & ?).
  - apply (load_records_keeps Original.replies); [done|].
    intros ??? Hadd. by apply add_message_keeps in Hadd as (? & ? & ?).
  - apply (load_records_keeps Original.npcs); [done|].
    intros ??? Hadd. by apply add_reply_keeps in Hadd as (? & ? & ?).
  - apply (load_records_keeps Original.messages); [done|].
    intros ??? Hadd. by apply add_reply_keeps in Hadd as (? & ? & ?).
Qed.

(** C2, as amended. In the original variant an absent Dialogs file
    fails the whole load with [FileNotFoundError]; an absent NPCs,
    Messages or Replies file only adds a warning; and the load succeeds
    whenever [_load_dialogs] does, with an empty collection for each of
    these three files that is absent. In the fixed variant the handler
    of every loader raises again: in JSON mode the load fails when any
    of the four files is absent, with [FileNotFoundError] when it is the
    NPCs file. *)
Theorem missing_file_policy_by_variant `{SetOrder}
    (dir : folder) (xdir : xliff_folder)
    (xliff_files : list (Xliff.lang_pair * string)) :
  (dir dialog_file = None →
   ∀ self, Original.load_data dir xdir self = Raise FileNotFoundError) ∧
  (dir npc_file = None →
   ∀ self, Original._load_npcs dir self =
           Original.warn "Warning: NPC file not found" self) ∧
  (dir message_file = None →
   ∀ self, Original._load_messages dir self =
           Original.warn "Warning: Message file not found" self) ∧
  (dir reply_file = None →
   ∀ self, Original._load_replies dir self =
           Original.warn "Warning: Reply file not found" self) ∧
  (∀ d, Original._load_dialogs dir (Original.init false xliff_files) = Ok d →
   ∃ loaded,
     Original.load_data dir xdir (Original.init false xliff_files) = Ok loaded ∧
     (dir npc_file = None → Original.npcs loaded = []) ∧
     (dir message_file = None → Original.messages loaded = []) ∧
     (dir reply_file = None → Original.replies loaded = [])) ∧
  (∀ self, Fixed.use_xliff self = false →
   dir npc_file = None ∨ dir message_file = None ∨
   dir reply_file = None ∨ dir dialog_file = None →
   is_ok (Fixed.load_data dir xdir self) = false) ∧
  (∀ self, Fixed.use_xliff self = false → dir npc_file = None →
   Fixed.load_data dir xdir self = Raise FileNotFoundError).
Proof.
  assert (∀ self, Fixed.use_xliff (Fixed._load_metadata dir self) = Fixed.use_xliff self)
    as Hfixed_ux by (intros self; apply load_metadata_keeps).
  split; [|split; [|split; [|split; [|split; [|split]]]]].
  - intros Hnone self. unfold Original.load_data.
    assert (∀ s, Original._load_dialogs dir s = Raise FileNotFoundError) as Hd.
    { intros s. unfold Original._load_dialogs, exists_. fold dialog_file. by rewrite Hnone. }
    destruct (Original.use_xliff _); simpl.
    + unfold Original._load_structure_from_json. by rewrite Hd.
    + by rewrite Hd.
  - intros Hnone self. by apply load_records_absent.
  - intros Hnone self. by apply load_records_absent.
  - intros Hnone self. by apply load_records_absent.
  - intros d Hd.
    destruct (original_load_data_json dir xdir (Original.init false xliff_files) d
                eq_refl Hd)
      as (loaded & Hloaded & s3 & items & Hs3 & ->).
    eexists. split; [exact Hloaded|].
    unfold Original._match_metadata_with_npcs, Original._build_relationships. simpl.
    destruct (foldl_add_dialog_keeps items s3) as (_ & -> & -> & ->). subst s3.
    set (s0 := Original._load_metadata dir (Original.init false xliff_files)).
    set (s1 := Original._load_npcs dir s0).
    set (s2 := Original._load_messages dir s1).
    destruct (original_loaders_keep dir (Original.init false xliff_files))
      as ((Hn0 & Hm0 & Hr0) & _).
    destruct (original_loaders_keep dir s0) as (_ & (Hm1 & Hr1) & _).
    destruct (original_loaders_keep dir s1) as (_ & _ & (Hn2 & Hr2) & _).
    destruct (original_loaders_keep dir s2) as (_ & _ & _ & (Hn3 & Hm3)).
    fold s0 in Hn0, Hm0, Hr0. fold s1 in Hm1, Hr1. fold s2 in Hn2, Hr2.
    split; [|split].
    + intros Hnone. rewrite Hn3, Hn2.
      unfold s1, Original._load_npcs. rewrite load_records_absent by done.
      change (Original.npcs (Original.warn _ s0)) with (Original.npcs s0).
      rewrite Hn0. simpl. by rewrite foldl_link_dialog_nil.
    + intros Hnone. rewrite Hm3.
      unfold s2, Original._load_messages. rewrite load_records_absent by done.
      change (Original.messages (Original.warn _ s1)) with (Original.messages s1).
      rewrite Hm1, Hm0. simpl. by rewrite foldl_link_reply_nil.
    + intros Hnone.
      unfold Original._load_replies. rewrite load_records_absent by done.
      change (Original.replies (Original.warn _ s2)) with (Original.replies s2).
      by rewrite Hr2, Hr1, Hr0.
  - intros self Hux Habsent. unfold Fixed.load_data.
    rewrite Hfixed_ux, Hux. cbn zeta iota.
    set (s0 := Fixed._load_metadata dir self).
    destruct (Fixed._load_npcs dir s0) as [s1|] eqn:H1; simpl; [|done].
    destruct (Fixed._load_messages dir s1) as [s2|] eqn:H2; simpl; [|done].
    destruct (Fixed._load_replies dir s2) as [s3|] eqn:H3; simpl; [|done].
    destruct (Fixed._load_dialogs dir s3) as [s4|] eqn:H4; simpl; [|done].
    unfold Fixed._load_npcs, Fixed._load_messages, Fixed._load_replies,
      Fixed._load_dialogs in *.
    fold npc_file message_file reply_file dialog_file in *.
    destruct Habsent as [Ha|[Ha|[Ha|Ha]]];
      apply open_json_absent in Ha;
      [rewrite Ha in H1|rewrite Ha in H2|rewrite Ha in H3|rewrite Ha in H4]; done.
  - intros self Hux Hnone. unfold Fixed.load_data.
    rewrite Hfixed_ux, Hux. cbn zeta iota.
    unfold Fixed._load_npcs. fold npc_file. by rewrite open_json_absent.
Qed.

(** ** The theorems at the inputs of the examples *)


Lemma xliff_reply_without_structure_defaults_witness :
  ∃ merged reply,
    Fixed._merge_xliff_with_structure orphan_mapper = Ok merged ∧
    dict_get 300 (Fixed.replies merged) = Some reply ∧
    NPCReply.reply_id reply = 300 ∧
    NPCReply.parent_message_id reply = 0 ∧
    NPCReply.leads_to_message_id reply = None ∧
    ∀ mid m,
      dict_get mid (Fixed.messages (Fixed._build_relationships merged)) = Some m →
      (reply ∈ NPCMessage.replies m ↔ mid = 0).
Proof.
  exact (xliff_reply_without_structure_defaults orphan_mapper [] 300
           [(fr, "Oui"); (en, "Yes")] eq_refl eq_refl eq_refl eq_refl).
Defined.




Lemma missing_npc_file_is_fatal_in_fixed_counterexample :
  fixed_folder_without_npcs npc_file = None ∧
  @Fixed.load_data first_occurrence fixed_folder_without_npcs no_xliff (Fixed.init false [])
    = Raise FileNotFoundError.
Proof. split; reflexivity. Qed.

Lemma missing_file_policy_by_variant_witness :
  (∃ loaded,
     Original.load_data original_folder_without_npcs no_xliff (Original.init false [])
       = Ok loaded ∧
     Original.npcs loaded = [] ∧
     Original.warnings loaded = ["Warning: Metadata file not found";
                                 "Warning: NPC file not found"]) ∧
  @Fixed.load_data first_occurrence original_folder_without_npcs no_xliff (Fixed.init false [])
    = Raise FileNotFoundError.
Proof.
  pose proof (@missing_file_policy_by_variant first_occurrence
                original_folder_without_npcs no_xliff [])
    as (_ & _ & _ & _ & Hloads & _ & Hfixed).
  destruct (Hloads _ eq_refl) as (loaded & Hloaded & Hnpcs & _).
  split.
  - exists loaded. split; [exact Hloaded|]. split; [exact (Hnpcs eq_refl)|].
    vm_compute in Hloaded. injection Hloaded as <-. reflexivity.
  - exact (Hfixed (Fixed.init false []) eq_refl eq_refl).
Defined.

Example end_to_end_scenario :
  ∃ loaded card container rs,
    @Fixed.load_data first_occurrence scenario_folder no_xliff (Fixed.init false [])
      = Ok loaded ∧
    Fixed.npc_cards loaded = Some [card] ∧
    Fixed.data_npc_id card = 7 ∧
    Fixed.card_dialogs card = [container] ∧
    Fixed.container_tree container = MessageDiv 0 100 0 None (Fixed.message_rows halte) rs ∧
    (data_reply_id <$> rs) = [200] ∧
    ((λ r, match nested_messages r with
           | Some (MessageDiv _ i d _ _ []) => Some (i, d)
           | _ => None
           end) <$> rs) = [Some (101, 2)] ∧
    count_refs (Fixed.container_tree container) = 0%nat.
Proof. vm_compute. do 4 eexists. repeat split; reflexivity. Qed.

(** The loop of [loop_messages] ends in one marker per branch. *)
Example loop_is_cut :
  ∃ h, Fixed.dialog_tree loop_messages loop_message_1 loop_dialog 0 ∅ = Some h ∧
       count_refs h = 2%nat ∧ cycle_safe ∅ h = true.
Proof. vm_compute. eexists. repeat split; reflexivity. Qed.

(** * Further properties of the code *)

(** ** What [load_data] leaves (fixed variant) *)

Section Keyed.
Context {V : Type} (id_of : V → Z).
Implicit Types (d : dict V).

Lemma keyed_nil : keyed id_of [].
Proof. split; [apply NoDup_nil_2|constructor]. Qed.

Lemma Forall_dict_set (P : Z * V → Prop) k v d :
  Forall P d → P (k, v) → Forall P (dict_set k v d).
Proof.
  intros Hd Hv. induction Hd as [|[k0 v0] d H0 Hd IH]; simpl.
  - by repeat constructor.
  - case_decide; constructor; auto.
Qed.

Lemma Forall_dict_update (P : Z * V → Prop) k (f : V → V) d :
  Forall P d → (∀ k v, P (k, v) → P (k, f v)) → Forall P (dict_update k f d).
Proof.
  intros Hd Hf. induction Hd as [|[k0 v0] d H0 Hd IH]; simpl; [constructor|].
  case_decide; constructor; auto.
Qed.

Lemma keyed_set k v d : keyed id_of d → id_of v = k → keyed id_of (dict_set k v d).
Proof.
  intros [Hk Hid] Hv. split; [by apply dict_set_NoDup|].
  by apply Forall_dict_set.
Qed.

Lemma keyed_update k (f : V → V) d :
  keyed id_of d → (∀ v, id_of (f v) = id_of v) → keyed id_of (dict_update k f d).
Proof.
  intros [Hk Hid] Hf. split; [by rewrite dict_keys_update|].
  apply Forall_dict_update; [done|]. intros k0 v0. simpl. by rewrite Hf.
Qed.

Lemma keyed_fmap (f : V → V) d :
  keyed id_of d → (∀ v, id_of (f v) = id_of v) → keyed id_of (prod_map id f <$> d).
Proof.
  intros [Hk Hid] Hf. split.
  - unfold dict_keys in *. rewrite <-list_fmap_compose.
    erewrite list_fmap_ext; [exact Hk|]. by intros _ [k v] _.
  - apply Forall_fmap. eapply Forall_impl; [exact Hid|].
    intros [k v]. simpl. by rewrite Hf.
Qed.

Lemma keyed_get k v d : keyed id_of d → dict_get k d = Some v → id_of v = k.
Proof.
  intros [_ Hid] Hget%dict_get_Some_elem_of.
  rewrite Forall_forall in Hid. exact (Hid _ Hget).
Qed.

Lemma keyed_foldl_set {A} (key : A → Z) (value : A → V) (l : list A) d :
  keyed id_of d → (∀ a, id_of (value a) = key a) →
  keyed id_of (foldl (λ d a, dict_set (key a) (value a) d) d l).
Proof.
  intros Hd Hv. revert d Hd. induction l as [|a l IH]; intros d Hd; simpl; [done|].
  apply IH. by apply keyed_set.
Qed.

End Keyed.

Lemma Forall_values_set {V} (P : V → Prop) k v (d : dict V) :
  Forall P (dict_values d) → P v → Forall P (dict_values (dict_set k v d)).
Proof.
  unfold dict_values. rewrite !Forall_fmap. intros Hd Hv.
  by apply Forall_dict_set.
Qed.

Lemma Forall_values_foldl_set {V A} (P : V → Prop) (key : A → Z) (value : A → V)
    (l : list A) (d : dict V) :
  Forall P (dict_values d) → (∀ a, P (value a)) →
  Forall P (dict_values (foldl (λ d a, dict_set (key a) (value a) d) d l)).
Proof.
  intros Hd Hv. revert d Hd. induction l as [|a l IH]; intros d Hd; simpl; [done|].
  apply IH. by apply Forall_values_set.
Qed.

(** What holds of a loop that may raise, when it ends. *)
Lemma for_each_inv {A S} (P : S → Prop) (body : S → A → result S) l s s' :
  (∀ s a s', P s → body s a = Ok s' → P s') →
  P s → for_each body l s = Ok s' → P s'.
Proof.
  intros Hbody. revert s. induction l as [|a l IH]; intros s Hs; simpl.
  - by intros [= <-].
  - intros (s1 & Hs1 & Hrest)%bind_Ok. eauto.
Qed.

Lemma unlinked_init use_xliff xliff_files : unlinked (Fixed.init use_xliff xliff_files).
Proof.
  repeat split; try apply NoDup_nil_2; constructor.
Qed.

Lemma unlinked_load_metadata dir self :
  unlinked self → unlinked (Fixed._load_metadata dir self).
Proof.
  unfold unlinked. pose proof (load_metadata_keeps dir self) as (_ & _ & -> & -> & -> & _).
  done.
Qed.

Lemma npc_of_json_fresh item n :
  Fixed.npc_of_json item = Ok n →
  NPC.dialogs n = [] ∧ NPC.genders n = [] ∧ NPC.img_urls n = [].
Proof.
  unfold Fixed.npc_of_json. intros Hn.
  repeat (apply bind_Ok in Hn as (? & _ & Hn)). by injection Hn as <-.
Qed.

Lemma message_of_json_fresh item m :
  Fixed.message_of_json item = Ok m → NPCMessage.replies m = [].
Proof.
  unfold Fixed.message_of_json. intros Hm.
  repeat (apply bind_Ok in Hm as (? & _ & Hm)). by injection Hm as <-.
Qed.

Lemma unlinked_load_npcs dir self self' :
  unlinked self → Fixed._load_npcs dir self = Ok self' → unlinked self'.
Proof.
  intros Hself Hload. unfold Fixed._load_npcs in Hload.
  repeat (apply bind_Ok in Hload as (? & _ & Hload)).
  revert Hload. apply for_each_inv; [|done].
  clear. intros s item s' (Hn & Hm & Hr & Hd & Hrs) (n & Hitem & [= <-])%bind_Ok.
  repeat split; simpl; try done; try apply Hm; try apply Hr.
  - by apply dict_set_NoDup, Hn.
  - apply Forall_dict_set; [apply Hn|done].
  - apply Forall_values_set; [done|]. by eapply npc_of_json_fresh.
Qed.

Lemma unlinked_load_messages dir self self' :
  unlinked self → Fixed._load_messages dir self = Ok self' → unlinked self'.
Proof.
  intros Hself Hload. unfold Fixed._load_messages in Hload.
  repeat (apply bind_Ok in Hload as (? & _ & Hload)).
  revert Hload. apply for_each_inv; [|done].
  clear. intros s item s' (Hn & Hm & Hr & Hd & Hrs) (m & Hitem & [= <-])%bind_Ok.
  repeat split; simpl; try done; try apply Hn; try apply Hr.
  - by apply dict_set_NoDup, Hm.
  - apply Forall_dict_set; [apply Hm|done].
  - apply Forall_values_set; [done|]. by eapply message_of_json_fresh.
Qed.

Lemma unlinked_load_replies dir self self' :
  unlinked self → Fixed._load_replies dir self = Ok self' → unlinked self'.
Proof.
  intros Hself Hload. unfold Fixed._load_replies in Hload.
  repeat (apply bind_Ok in Hload as (? & _ & Hload)).
  revert Hload. apply for_each_inv; [|done].
  clear. intros s item s' (Hn & Hm & Hr & Hd & Hrs) (r & Hitem & [= <-])%bind_Ok.
  repeat split; simpl; try done; try apply Hn; try apply Hm.
  - by apply dict_set_NoDup, Hr.
  - apply Forall_dict_set; [apply Hr|done].
Qed.

Lemma unlinked_load_dialogs dir self self' :
  unlinked self → Fixed._load_dialogs dir self = Ok self' → unlinked self'.
Proof.
  intros Hself Hload. unfold Fixed._load_dialogs in Hload.
  repeat (apply bind_Ok in Hload as (? & _ & Hload)).
  apply for_each_append_dialog_keeps in Hload as (Hn & Hm & Hr & _).
  unfold unlinked. by rewrite Hn, Hm, Hr.
Qed.

Lemma unlinked_merge self rels :
  Fixed.npcs self = [] → Fixed.messages self = [] → Fixed.replies self = [] →
  keyed NPC.npc_id (merged_npcs self) ∧
  keyed NPCMessage.message_id (merged_messages self) ∧
  keyed NPCReply.reply_id (merged_replies rels self) ∧
  Forall (λ n, NPC.dialogs n = [] ∧ NPC.genders n = [] ∧ NPC.img_urls n = [])
    (dict_values (merged_npcs self)) ∧
  Forall (λ m, NPCMessage.replies m = []) (dict_values (merged_messages self)).
Proof.
  intros Hn Hm Hr. unfold merged_npcs, merged_messages, merged_replies.
  rewrite Hn, Hm, Hr. repeat split.
  - apply (keyed_foldl_set NPC.npc_id (λ kv, kv.1)
             (λ kv, Fixed.npc_of_translations kv.1 kv.2)); [apply keyed_nil|done].
  - apply (keyed_foldl_set NPC.npc_id (λ kv, kv.1)
             (λ kv, Fixed.npc_of_translations kv.1 kv.2)); [apply keyed_nil|done].
  - apply (keyed_foldl_set NPCMessage.message_id (λ kv, kv.1)
             (λ kv, Fixed.message_of_translations kv.1 kv.2)); [apply keyed_nil|done].
  - apply (keyed_foldl_set NPCMessage.message_id (λ kv, kv.1)
             (λ kv, Fixed.message_of_translations kv.1 kv.2)); [apply keyed_nil|done].
  - apply (keyed_foldl_set NPCReply.reply_id (λ kv, kv.1)
             (λ kv, Fixed.reply_of_translations rels kv.1 kv.2)); [apply keyed_nil|done].
  - apply (keyed_foldl_set NPCReply.reply_id (λ kv, kv.1)
             (λ kv, Fixed.reply_of_translations rels kv.1 kv.2)); [apply keyed_nil|done].
  - apply (Forall_values_foldl_set _ (λ kv, kv.1)
             (λ kv, Fixed.npc_of_translations kv.1 kv.2)); [constructor|done].
  - apply (Forall_values_foldl_set _ (λ kv, kv.1)
             (λ kv, Fixed.message_of_translations kv.1 kv.2)); [constructor|done].
Qed.

Section LoadedShape.
Context `{SetOrder}.

(** [load_data] on a new mapper, in either mode: what it returns went
    through [_build_relationships] and [_match_metadata_with_npcs] from a
    state where nothing was linked. *)
Lemma load_data_shape dir xdir use_xliff xliff_files loaded :
  Fixed.load_data dir xdir (Fixed.init use_xliff xliff_files) = Ok loaded →
  ∃ pre, unlinked pre ∧
         loaded = Fixed._match_metadata_with_npcs (Fixed._build_relationships pre).
Proof.
  unfold Fixed.load_data.
  pose proof (load_metadata_keeps dir (Fixed.init use_xliff xliff_files))
    as (Hux & Hxf & Hn & Hm & Hr & Ht).
  pose proof (unlinked_load_metadata dir _ (unlinked_init use_xliff xliff_files)) as Hun.
  cbn zeta in *. set (self1 := Fixed._load_metadata dir _) in *.
  rewrite Hux. simpl Fixed.use_xliff.
  intros (pre & Hload & [= <-])%bind_Ok. exists pre. split; [|done].
  destruct use_xliff.
  - apply bind_Ok in Hload as (self3 & Hstruct & Hmerge).
    apply load_structure_from_json_keeps in Hstruct
      as (Hn3 & Hm3 & Hr3 & Ht3 & rels & Hrels).
    rewrite (merge_xliff_with_structure_eq _ _ Hrels) in Hmerge.
    injection Hmerge as <-.
    apply (unlinked_merge self3 rels).
    + by rewrite Hn3.
    + by rewrite Hm3.
    + by rewrite Hr3.
  - apply bind_Ok in Hload as (s1 & H1 & Hload).
    apply bind_Ok in Hload as (s2 & H2 & Hload).
    apply bind_Ok in Hload as (s3 & H3 & Hload).
    eapply unlinked_load_dialogs; [|exact Hload].
    eapply unlinked_load_replies; [|exact H3].
    eapply unlinked_load_messages; [|exact H2].
    eapply unlinked_load_npcs; [|exact H1]. done.
Qed.

End LoadedShape.



Lemma keyed_link_dialogs npcs dialogs :
  keyed NPC.npc_id npcs → keyed NPC.npc_id (foldl Fixed.link_dialog npcs dialogs).
Proof.
  revert npcs. induction dialogs as [|d ds IH]; intros npcs Hk; simpl; [done|].
  apply IH. unfold Fixed.link_dialog. destruct (dict_mem _ _); [|done].
  by apply keyed_update.
Qed.

Lemma keyed_link_replies messages replies :
  keyed NPCMessage.message_id messages →
  keyed NPCMessage.message_id (foldl Fixed.link_reply messages replies).
Proof.
  revert messages. induction replies as [|r rs IH]; intros messages Hk; simpl; [done|].
  apply IH. unfold Fixed.link_reply. destruct (dict_mem _ _); [|done].
  by apply keyed_update.
Qed.

Lemma dict_get_values {V} (d : dict V) k v : dict_get k d = Some v → v ∈ dict_values d.
Proof.
  intros Hget%dict_get_Some_elem_of. apply list_elem_of_fmap. by exists (k, v).
Qed.

Section Loaded2.
Context `{SetOrder}.


Lemma match_npc_id groups npc :
  NPC.npc_id (Fixed.match_npc groups npc) = NPC.npc_id npc.
Proof. unfold Fixed.match_npc. by destruct (assoc _ _). Qed.

(** X1. After [load_data] on a new mapper, in either mode, the replies
    listed under the message stored under [mid] are the loaded replies
    whose [parent_message_id] is [mid], in the order of [self.replies];
    a reply whose parent is not a key of [self.messages] is under no
    message. *)
Theorem loaded_replies_are_grouped_by_parent
    (dir : folder) (xdir : xliff_folder) (use_xliff : bool)
    (xliff_files : list (Xliff.lang_pair * string)) (loaded : Fixed.mapper)
    (mid : Z) (m : NPCMessage.t) :
  Fixed.load_data dir xdir (Fixed.init use_xliff xliff_files) = Ok loaded →
  dict_get mid (Fixed.messages loaded) = Some m →
  NPCMessage.replies m =
    filter (λ r, NPCReply.parent_message_id r = mid) (dict_values (Fixed.replies loaded)).
Proof.
  intros (pre & (_ & _ & _ & _ & Hfresh) & ->)%load_data_shape.
  unfold Fixed._match_metadata_with_npcs, Fixed._build_relationships. simpl.
  rewrite dict_get_link_replies.
  intros (m0 & Hm0 & ->)%fmap_Some. simpl.
  rewrite Forall_forall in Hfresh.
  by rewrite (Hfresh m0 (dict_get_values _ _ _ Hm0)).
Qed.


(** X3. After [load_data] on a new mapper, in either mode, no key comes
    twice in [self.npcs], [self.messages] and [self.replies], and every
    record is stored under its own id. *)
Theorem loaded_records_are_keyed_by_id
    (dir : folder) (xdir : xliff_folder) (use_xliff : bool)
    (xliff_files : list (Xliff.lang_pair * string)) (loaded : Fixed.mapper) :
  Fixed.load_data dir xdir (Fixed.init use_xliff xliff_files) = Ok loaded →
  keyed NPC.npc_id (Fixed.npcs loaded) ∧
  keyed NPCMessage.message_id (Fixed.messages loaded) ∧
  keyed NPCReply.reply_id (Fixed.replies loaded).
Proof.
  intros (pre & (Hn & Hm & Hr & _ & _) & ->)%load_data_shape.
  unfold Fixed._match_metadata_with_npcs, Fixed._build_relationships. simpl.
  split; [|split; [|done]].
  - apply keyed_fmap; [|apply match_npc_id].
    apply keyed_fmap; [|done]. by apply keyed_link_dialogs.
  - by apply keyed_link_replies.
Qed.

End Loaded2.

(** ** Rows that repeat an id, rows that do not decode *)

(** The loop of [_load_npcs] over rows that all decode. *)
Lemma for_each_npcs rows ns self :
  Forall2 (λ row n, Fixed.npc_of_json row = Ok n) rows ns →
  for_each (λ self npc,
      n ← Fixed.npc_of_json npc;
      Ok (Fixed.with_npcs (dict_set (NPC.npc_id n) n (Fixed.npcs self)) self)) rows self =
  Ok (Fixed.with_npcs
        (foldl (λ d n, dict_set (NPC.npc_id n) n d) (Fixed.npcs self) ns) self).
Proof.
  intros Hrows. revert self.
  induction Hrows as [|row n rows ns Hrow _ IH]; intros self; simpl.
  - by destruct self.
  - rewrite Hrow. simpl. rewrite IH. by destruct self.
Qed.


(** X4. When every row of the NPC file decodes, [_load_npcs] of the
    fixed variant succeeds, and what it leaves under an id is the last
    row with that id, or what was there when no row has it: of two rows
    with the same [npc_id] the later one replaces the earlier one. *)
Theorem fixed_later_row_replaces_earlier
    (dir : folder) (self : Fixed.mapper) (key : string) (rows : list json)
    (rest : list (string * json)) (ns : list NPC.t) :
  dir npc_file = Some (Json (JDict ((key, JList rows) :: rest))) →
  Forall2 (λ row n, Fixed.npc_of_json row = Ok n) rows ns →
  ∃ self', Fixed._load_npcs dir self = Ok self' ∧
    ∀ k, dict_get k (Fixed.npcs self') =
         match last (filter (λ n, NPC.npc_id n = k) ns) with
         | Some n => Some n
         | None => dict_get k (Fixed.npcs self)
         end.
Proof.
  intros Hfile Hrows. unfold Fixed._load_npcs, open_json. fold npc_file.
  rewrite Hfile. simpl. rewrite (for_each_npcs rows ns self Hrows).
  eexists. split; [done|]. intros k. simpl.
  apply (dict_get_foldl_set NPC.npc_id id).
Qed.






(** ** The export format of each variant *)

(** What the fixed variant reads is a JSON object with a first value. *)
Lemma values_first_Ok dir name data v :
  open_json dir name = Ok data → values_first data = Ok v →
  ∃ k rest, dir name = Some (Json (JDict ((k, v) :: rest))).
Proof.
  unfold open_json. destruct (dir name) as [[|j]|]; try done.
  intros [= ->]. destruct data as [| | | | |[|[k v'] rest]]; try done.
  intros [= ->]. eauto.
Qed.

(** The loaders of the original variant read nothing from such a
    document: [data[0]] raises [KeyError], and the handler prints it. *)
Lemma load_records_object dir name not_found empty add self k v rest :
  dir name = Some (Json (JDict ((k, v) :: rest))) →
  Original.load_records dir name not_found empty add self = self.
Proof.
  intros Hfile. unfold Original.load_records, exists_, open_json. by rewrite Hfile.
Qed.

(** [_load_dialogs] of the original variant iterates over the keys of
    the object, and no key is a dialog. *)
Lemma foldl_add_dialog_keys (keys : list string) self :
  foldl Original.add_dialog self (JStr <$> keys) = self.
Proof. induction keys as [|k keys IH]; [done|]. exact IH. Qed.

Lemma original_load_dialogs_object dir self k v rest :
  dir dialog_file = Some (Json (JDict ((k, v) :: rest))) →
  Original._load_dialogs dir self = Ok self.
Proof.
  intros Hfile. unfold Original._load_dialogs, exists_, open_json. fold dialog_file.
  rewrite Hfile. simpl. f_equal.
  apply (foldl_add_dialog_keys (k :: rest.*1)).
Qed.

(** X8. The two variants do not read the same export files: from a
    folder that the fixed variant loads in JSON mode, the original
    variant loads without an error and is left with no NPC, no message,
    no reply and no dialog. *)
Theorem variants_read_different_exports `{SetOrder}
    (dir : folder) (xdir : xliff_folder) (xliff_files : list (Xliff.lang_pair * string))
    (loaded : Fixed.mapper) :
  Fixed.load_data dir xdir (Fixed.init false xliff_files) = Ok loaded →
  ∃ loaded',
    Original.load_data dir xdir (Original.init false xliff_files) = Ok loaded' ∧
    Original.npcs loaded' = [] ∧ Original.messages loaded' = [] ∧
    Original.replies loaded' = [] ∧ Original.dialogs loaded' = [].
Proof.
  unfold Fixed.load_data.
  pose proof (load_metadata_keeps dir (Fixed.init false xliff_files)) as (Hux & _).
  cbn zeta in *. rewrite Hux. simpl Fixed.use_xliff. cbn iota.
  intros (pre & Hload & _)%bind_Ok.
  apply bind_Ok in Hload as (s1 & H1 & Hload).
  apply bind_Ok in Hload as (s2 & H2 & Hload).
  apply bind_Ok in Hload as (s3 & H3 & H4).
  unfold Fixed._load_npcs in H1. apply bind_Ok in H1 as (d1 & Ho1 & H1).
  apply bind_Ok in H1 as (v1 & Hv1 & _).
  destruct (values_first_Ok _ _ _ _ Ho1 Hv1) as (k1 & r1 & Hf1).
  unfold Fixed._load_messages in H2. apply bind_Ok in H2 as (d2 & Ho2 & H2).
  apply bind_Ok in H2 as (v2 & Hv2 & _).
  destruct (values_first_Ok _ _ _ _ Ho2 Hv2) as (k2 & r2 & Hf2).
  unfold Fixed._load_replies in H3. apply bind_Ok in H3 as (d3 & Ho3 & H3).
  apply bind_Ok in H3 as (v3 & Hv3 & _).
  destruct (values_first_Ok _ _ _ _ Ho3 Hv3) as (k3 & r3 & Hf3).
  unfold Fixed._load_dialogs in H4. apply bind_Ok in H4 as (d4 & Ho4 & H4).
  apply bind_Ok in H4 as (v4 & Hv4 & _).
  destruct (values_first_Ok _ _ _ _ Ho4 Hv4) as (k4 & r4 & Hf4).
  clear -Hf1 Hf2 Hf3 Hf4.
  unfold Original.load_data.
  set (s0 := Original._load_metadata dir (Original.init false xliff_files)).
  assert (Original.use_xliff s0 = false ∧ Original.npcs s0 = [] ∧
          Original.messages s0 = [] ∧ Original.replies s0 = [] ∧
          Original.dialogs s0 = []) as (Hux0 & Hn0 & Hm0 & Hr0 & Hd0).
  { unfold s0, Original._load_metadata.
    split; [|split; [|split; [|split]]].
    - apply (load_records_keeps Original.use_xliff); [done|].
      intros ??? Hadd. by apply add_metadata_keeps in Hadd as (? & ? & ? & ?).
    - apply (load_records_keeps Original.npcs); [done|].
      intros ??? Hadd. by apply add_metadata_keeps in Hadd as (? & ? & ? & ?).
    - apply (load_records_keeps Original.messages); [done|].
      intros ??? Hadd. by apply add_metadata_keeps in Hadd as (? & ? & ? & ?).
    - apply (load_records_keeps Original.replies); [done|].
      intros ??? Hadd. by apply add_metadata_keeps in Hadd as (? & ? & ? & ?).
    - apply (load_records_keeps Original.dialogs); [done|].
      intros s item s'. unfold Original.add_metadata. destruct item; try done.
      destruct (negb _); [by intros [= ->]|]. intros Hadd. ok_fields Hadd. }
  rewrite Hux0. cbn iota.
  unfold Original._load_npcs, Original._load_messages, Original._load_replies.
  fold npc_file message_file reply_file.
  rewrite (load_records_object _ _ _ _ _ _ _ _ _ Hf1).
  rewrite (load_records_object _ _ _ _ _ _ _ _ _ Hf2).
  rewrite (load_records_object _ _ _ _ _ _ _ _ _ Hf3).
  rewrite (original_load_dialogs_object _ _ _ _ _ Hf4). simpl.
  eexists. split; [done|].
  unfold Original._match_metadata_with_npcs, Original._build_relationships. simpl.
  rewrite Hn0, Hm0, Hr0, Hd0. done.
Qed.

Local Arguments String.append !_ _ : simpl nomatch.

(** ** Text *)

Local Arguments String.append !_ _ : simpl nomatch.


Lemma string_app_assoc (a b c : string) : (a +:+ b) +:+ c = a +:+ b +:+ c.
Proof. induction a as [|x a IH]; simpl; [done|]. by f_equal. Qed.

Lemma chars_app (a b : string) :
  String.list_ascii_of_string (a +:+ b) =
  String.list_ascii_of_string a ++ String.list_ascii_of_string b.
Proof. induction a as [|x a IH]; simpl; [done|]. by f_equal. Qed.

Lemma chars_replace_char old new s :
  String.list_ascii_of_string (replace_char old new s) =
  String.list_ascii_of_string s ≫=
    (λ c, if decide (c = old) then String.list_ascii_of_string new else [c]).
Proof.
  induction s as [|c s IH]; simpl; [done|].
  case_decide; simpl; [rewrite chars_app|]; by rewrite IH.
Qed.

Lemma replace_char_absent old new s :
  old ∉ String.list_ascii_of_string s → replace_char old new s = s.
Proof.
  induction s as [|c s IH]; simpl; [done|].
  rewrite not_elem_of_cons. intros [Hc Hs].
  rewrite decide_False by done. by rewrite IH.
Qed.

(** X9. [_format_text_with_null_check] returns text without a line
    feed and without a carriage return, whatever it is given; [None] and
    the empty string give the [NULL] marker; and text that holds neither
    character is returned as it is. *)
Theorem formatted_text_has_no_line_break (text : option string) :
  (LF ∉ String.list_ascii_of_string (Fixed._format_text_with_null_check text)) ∧
  (CR ∉ String.list_ascii_of_string (Fixed._format_text_with_null_check text)) ∧
  Fixed._format_text_with_null_check None = Fixed.null_value ∧
  Fixed._format_text_with_null_check (Some EmptyString) = Fixed.null_value ∧
  ∀ c s, text = Some (String c s) →
    LF ∉ String.list_ascii_of_string (String c s) →
    CR ∉ String.list_ascii_of_string (String c s) →
    Fixed._format_text_with_null_check text = String c s.
Proof.
  assert (∀ s,
    (LF ∉ String.list_ascii_of_string
       (replace_char "013" EmptyString (replace_char "010" "<br>" s))) ∧
    (CR ∉ String.list_ascii_of_string
       (replace_char "013" EmptyString (replace_char "010" "<br>" s)))) as Hclean.
  { intros s. rewrite !chars_replace_char. split.
    - intros (c & Hc & (d & Hd & _)%list_elem_of_bind)%list_elem_of_bind.
      repeat case_decide; subst; simpl in *; set_solver.
    - intros (c & Hc & _)%list_elem_of_bind.
      case_decide; subst; simpl in *; set_solver. }
  assert ((LF ∉ String.list_ascii_of_string Fixed.null_value) ∧
          (CR ∉ String.list_ascii_of_string Fixed.null_value)) as Hnull.
  { split; apply (bool_decide_unpack _); by vm_compute. }
  split; [|split; [|split; [done|split; [done|]]]].
  - destruct text as [[|c s]|]; [apply Hnull| |apply Hnull]. apply (Hclean (String c s)).
  - destruct text as [[|c s]|]; [apply Hnull| |apply Hnull]. apply (Hclean (String c s)).
  - intros c s -> Hlf Hcr. unfold Fixed._format_text_with_null_check.
    by rewrite (replace_char_absent "010" _ _ Hlf), (replace_char_absent "013" _ _ Hcr).
Qed.

(** *** [strip] *)






(** *** [_clean_source_text] of the fixed variant *)





(** *** [_clean_source_text] of the original variant *)




(** ** The ids of the trans-units *)

(** The digits that [str] writes are read back by [int]. *)
Lemma pretty_N_char_digit d :
  (d < 10)%N →
  is_digit (pretty_N_char d) = true ∧ Z.of_N (byte_of (pretty_N_char d)) - 48 = Z.of_N d.
Proof.
  intros Hd.
  assert (d = 0 ∨ d = 1 ∨ d = 2 ∨ d = 3 ∨ d = 4 ∨ d = 5 ∨ d = 6 ∨ d = 7 ∨ d = 8 ∨ d = 9)%N
    as Hcases by lia.
  destruct Hcases as [->|[->|[->|[->|[->|[->|[->|[->|[->| ->]]]]]]]]]; by vm_compute.
Qed.

Lemma int_digits_pretty_N_go x s :
  ∃ k, ∀ acc after_digit,
    int_digits acc after_digit (pretty_N_go x s) =
    int_digits (acc * k + Z.of_N x) (after_digit || bool_decide (0 < x)%N) s.
Proof.
  revert s. induction (N.lt_wf_0 x) as [x _ IH]; intros s.
  destruct (decide (0 < x)%N) as [Hx|Hx].
  - rewrite pretty_N_go_step by done.
    destruct (IH (x `div` 10)%N (N.div_lt x 10 Hx eq_refl)
                (String (pretty_N_char (x `mod` 10)) s)) as [k Hk].
    exists (k * 10). intros acc after_digit. rewrite Hk. simpl.
    destruct (pretty_N_char_digit (x `mod` 10)%N) as [-> ->]; [by apply N.mod_lt|].
    rewrite bool_decide_eq_true_2 by done. rewrite orb_true_r. f_equal.
    rewrite (N.div_mod x 10) at 3 by done. lia.
  - assert (x = 0%N) as -> by lia. rewrite pretty_N_go_0.
    exists 1. intros acc after_digit. rewrite orb_false_r. f_equal. lia.
Qed.

(** The characters that [str] writes for a natural number are digits. *)
Lemma pretty_N_go_digits x s :
  Forall (λ c, is_digit c = true) (String.list_ascii_of_string s) →
  Forall (λ c, is_digit c = true) (String.list_ascii_of_string (pretty_N_go x s)).
Proof.
  revert s. induction (N.lt_wf_0 x) as [x _ IH]; intros s Hs.
  destruct (decide (0 < x)%N) as [Hx|Hx].
  - rewrite pretty_N_go_step by done. apply IH; [by apply N.div_lt|].
    simpl. constructor; [|done]. apply pretty_N_char_digit. by apply N.mod_lt.
  - assert (x = 0%N) as -> by lia. by rewrite pretty_N_go_0.
Qed.

(** Text without white space is its own [strip]. *)
Lemma strip_no_space s :
  Forall (λ c, is_space c = false) (String.list_ascii_of_string s) → strip s = s.
Proof.
  intros Hs. unfold strip.
  assert (lstrip s = s) as ->.
  { destruct s as [|c s]; [done|]. simpl. apply Forall_cons in Hs as [-> _]. done. }
  induction s as [|c s IH]; [done|]. simpl in *.
  apply Forall_cons in Hs as [Hc Hs]. rewrite IH by done.
  destruct s; [by rewrite Hc|done].
Qed.

Lemma digit_not_space c : is_digit c = true → is_space c = false.
Proof.
  unfold is_digit, is_space. intros Hd%bool_decide_eq_true.
  apply bool_decide_eq_false. lia.
Qed.

Lemma digit_not_sign c : is_digit c = true → c ≠ "+"%char ∧ c ≠ "-"%char.
Proof. intros Hd. split; intros ->; by vm_compute in Hd. Qed.

Lemma digit_not_dot c : is_digit c = true → c ≠ "."%char.
Proof. intros Hd ->. by vm_compute in Hd. Qed.

(** [int] on digits that do not start with a sign. *)
Lemma py_int_digits s :
  Forall (λ c, is_digit c = true) (String.list_ascii_of_string s) →
  py_int s = int_digits 0 false s.
Proof.
  intros Hs. unfold py_int. rewrite strip_no_space.
  - destruct s as [|c s]; [done|]. simpl in Hs. apply Forall_cons in Hs as [Hc _].
    destruct (digit_not_sign c Hc) as [Hplus Hminus].
    destruct c as [[] [] [] [] [] [] [] []]; try done.
  - eapply Forall_impl; [exact Hs|]. apply digit_not_space.
Qed.

Lemma py_int_pretty_pos p : py_int (pretty (N.pos p)) = Some (Z.pos p).
Proof.
  unfold pretty, pretty_N. rewrite decide_False by done.
  rewrite py_int_digits by (by apply pretty_N_go_digits).
  destruct (int_digits_pretty_N_go (N.pos p) EmptyString) as [k ->]. simpl.
  f_equal.
Qed.

(** [int(str(n)) == n] *)
Lemma py_int_str_of_int (n : Z) : py_int (str_of_int n) = Some n.
Proof.
  unfold str_of_int. destruct n as [|p|p].
  - reflexivity.
  - apply py_int_pretty_pos.
  - change (pretty (Z.neg p)) with ("-" +:+ pretty (N.pos p)).
    pose proof (py_int_pretty_pos p) as Hpos.
    unfold pretty, pretty_N in *. rewrite decide_False in * by done.
    rewrite py_int_digits in Hpos by (by apply pretty_N_go_digits).
    unfold py_int. rewrite strip_no_space.
    + simpl. by rewrite Hpos.
    + simpl. constructor; [done|].
      eapply Forall_impl; [by eapply (pretty_N_go_digits (N.pos p) EmptyString)|].
      apply digit_not_space.
Qed.

Lemma str_of_int_no_dot (n : Z) : "."%char ∉ String.list_ascii_of_string (str_of_int n).
Proof.
  assert (∀ p, "."%char ∉ String.list_ascii_of_string (pretty (N.pos p))) as Hpos.
  { intros p Hin. unfold pretty, pretty_N in Hin. rewrite decide_False in Hin by done.
    pose proof (pretty_N_go_digits (N.pos p) EmptyString ltac:(constructor)) as Hd.
    rewrite Forall_forall in Hd. by apply Hd, digit_not_dot in Hin. }
  unfold str_of_int. destruct n as [|p|p].
  - apply (bool_decide_unpack _). by vm_compute.
  - apply Hpos.
  - change (pretty (Z.neg p)) with ("-" +:+ pretty (N.pos p)). simpl.
    rewrite not_elem_of_cons. split; [done|]. apply Hpos.
Qed.

(** [split] cuts at the first separator. *)
Lemma split_on_app sep a b :
  sep ∉ String.list_ascii_of_string a →
  split_on sep (a +:+ String sep b) = a :: split_on sep b.
Proof.
  induction a as [|c a IH]; simpl.
  - intros _. by rewrite decide_True.
  - rewrite not_elem_of_cons. intros [Hc Ha].
    rewrite decide_False by done. by rewrite IH.
Qed.

Lemma split_on_nonempty sep s : split_on sep s ≠ [].
Proof.
  induction s as [|c s IH]; simpl; [done|].
  case_decide; [done|]. by destruct (split_on sep s).
Qed.

(** X12. The id [npc.<id>.<kind>] that names an entry is read back as
    that entry, for every integer id, also a negative one, and each of
    the three kinds: the unit contributes the kind, the id, the cleaned
    source text and the target text, an element without text counting
    as empty text. Segments after the kind are not looked at. *)
Theorem unit_ids_are_read_back
    (clean : string → string) (ty : Xliff.entry_type) (i : Z)
    (source target : option string) (more : string) :
  Xliff.parse_unit clean (mk_unit (unit_id_of ty i) (Some source) (Some target)) =
    Some (ty, i, clean (default EmptyString source), default EmptyString target) ∧
  Xliff.parse_unit clean
    (mk_unit (unit_id_of ty i +:+ "." +:+ more) (Some source) (Some target)) =
    Some (ty, i, clean (default EmptyString source), default EmptyString target).
Proof.
  assert (∀ tail,
    (∃ rest, split_on "." tail = entry_type_name ty :: rest) →
    Xliff.parse_unit clean
      (mk_unit ("npc." +:+ str_of_int i +:+ "." +:+ tail) (Some source) (Some target)) =
    Some (ty, i, clean (default EmptyString source), default EmptyString target)) as Hparse.
  { intros tail [rest Htail]. unfold Xliff.parse_unit.
    cbn [unit_id source_elem target_elem].
    assert (startswith "npc." ("npc." +:+ str_of_int i +:+ "." +:+ tail) = true)
      as -> by done.
    change ("npc." +:+ str_of_int i +:+ "." +:+ tail)
      with ("npc" +:+ String "." (str_of_int i +:+ String "." tail)).
    rewrite split_on_app by (apply (bool_decide_unpack _); by vm_compute).
    rewrite split_on_app by apply str_of_int_no_dot.
    rewrite Htail, py_int_str_of_int.
    assert (Xliff.entry_type_of (entry_type_name ty) = Some ty) as -> by (by destruct ty).
    done. }
  split.
  - apply Hparse. exists []. by destruct ty.
  - unfold unit_id_of. rewrite !string_app_assoc. apply Hparse.
    change ("." +:+ more) with (String "." more).
    destruct (split_on "." more) as [|w ws] eqn:Hmore; [by apply split_on_nonempty in Hmore|].
    exists (w :: ws).
    rewrite (split_on_app "." (entry_type_name ty) more), Hmore; [done|].
    apply (bool_decide_unpack _). by destruct ty; vm_compute.
Qed.

(** ** The cards *)

Lemma dialog_containers_spec messages dialogs :
  ∃ containers,
    mjoin <$> mapM (λ dialog,
      match dict_get (NPCDialog.message_id dialog) messages with
      | Some message =>
          dialog_html ← Fixed.dialog_tree messages message dialog 0 ∅;
          Some [Fixed.mk_container (NPCDialog.dialog_id dialog)
                  (NPCDialog.check_order dialog) dialog_html]
      | None => Some []
      end) dialogs = Some containers ∧
    Forall2 (λ container dialog,
        Fixed.container_dialog_id container = NPCDialog.dialog_id dialog ∧
        Fixed.container_check_order container = NPCDialog.check_order dialog ∧
        ∃ message,
          dict_get (NPCDialog.message_id dialog) messages = Some message ∧
          Fixed.dialog_tree messages message dialog 0 ∅ =
            Some (Fixed.container_tree container))
      containers
      (filter (λ dialog, is_Some (dict_get (NPCDialog.message_id dialog) messages)) dialogs).
Proof.
  induction dialogs as [|d ds (cs & Hcs & Hall)]; [by exists []|].
  apply fmap_Some in Hcs as (css & Hcss & ->).
  rewrite filter_cons. simpl.
  destruct (dict_get (NPCDialog.message_id d) messages) as [m|] eqn:Hm.
  - destruct (dialog_tree_is_Some messages m d 0 ∅) as [h Hh].
    rewrite Hh. simpl. rewrite Hcss. simpl.
    eexists. split; [done|].
    constructor; [|done]. simpl. eauto.
  - simpl. rewrite Hcss. simpl. eexists. split; [done|].
    done.
Qed.

(** X13. A card is produced for every NPC. Its dialog blocks are those
    of the dialogs of the NPC whose message is loaded, in the order of
    [npc.dialogs], each with the id and check order of its dialog and
    the tree of its message rendered from level 0 with nothing visited;
    a dialog whose message is not loaded adds nothing, without an
    error. *)
Theorem card_has_the_dialogs_whose_message_is_loaded
    (self : Fixed.mapper) (npc : NPC.t) :
  ∃ card,
    Fixed._generate_npc_card self npc = Some card ∧
    Fixed.data_npc_id card = NPC.npc_id npc ∧
    Forall2 (λ container dialog,
        Fixed.container_dialog_id container = NPCDialog.dialog_id dialog ∧
        Fixed.container_check_order container = NPCDialog.check_order dialog ∧
        ∃ message,
          dict_get (NPCDialog.message_id dialog) (Fixed.messages self) = Some message ∧
          Fixed.dialog_tree (Fixed.messages self) message dialog 0 ∅ =
            Some (Fixed.container_tree container))
      (Fixed.card_dialogs card)
      (filter (λ dialog,
                 is_Some (dict_get (NPCDialog.message_id dialog) (Fixed.messages self)))
         (NPC.dialogs npc)).
Proof.
  destruct (dialog_containers_spec (Fixed.messages self) (NPC.dialogs npc))
    as (containers & Hcontainers & Hall).
  unfold Fixed._generate_npc_card, Fixed.dialog_containers.
  rewrite Hcontainers. simpl. eauto.
Qed.

(** ** The statistics *)

Lemma count_counts c text :
  let c' := Statistics.count c text in
  Statistics.null c' + Statistics.x c' + Statistics.valid c' =
    Statistics.null c + Statistics.x c + Statistics.valid c + 1 ∧
  Statistics.null c ≤ Statistics.null c' ∧ Statistics.x c ≤ Statistics.x c' ∧
  Statistics.valid c ≤ Statistics.valid c'.
Proof.
  unfold Statistics.count.
  destruct (Statistics.count_null_and_x text) as [[] []]; simpl; lia.
Qed.

Lemma count_loop_adds_up {A} (texts : A → option string * option string * option string)
    (l : list A) (s : Statistics.by_lang) (n : Z) :
  adds_up n s →
  adds_up (n + Z.of_nat (length l))
    (foldl (λ s a,
        let '(text_en, text_es, text_pt) := texts a in
        Statistics.mk_by_lang (Statistics.count (Statistics.stats_en s) text_en)
          (Statistics.count (Statistics.stats_es s) text_es)
          (Statistics.count (Statistics.stats_pt s) text_pt)) s l).
Proof.
  revert s n. induction l as [|a l IH]; intros s n Hs.
  - simpl. by rewrite Z.add_0_r.
  - cbn [foldl length]. rewrite Nat2Z.inj_succ.
    replace (n + Z.succ (Z.of_nat (length l)))
      with ((n + 1) + Z.of_nat (length l)) by lia.
    apply IH. destruct (texts a) as [[text_en text_es] text_pt].
    unfold adds_up in *. simpl in *.
    apply Forall_cons in Hs as [Hen Hs]. apply Forall_cons in Hs as [Hes Hs].
    apply Forall_cons in Hs as [Hpt _].
    pose proof (count_counts (Statistics.stats_en s) text_en).
    pose proof (count_counts (Statistics.stats_es s) text_es).
    pose proof (count_counts (Statistics.stats_pt s) text_pt).
    cbn zeta in *. repeat (apply Forall_cons_2; [simpl; lia|]). apply Forall_nil_2.
Qed.

Lemma count_all_adds_up {A} (texts : A → option string * option string * option string)
    (l : list A) :
  adds_up (Z.of_nat (length l)) (Statistics.count_all texts l).
Proof.
  unfold Statistics.count_all.
  rewrite <-(Z.add_0_l (Z.of_nat (length l))). apply count_loop_adds_up.
  unfold adds_up. simpl. repeat (apply Forall_cons_2; [simpl; lia|]). apply Forall_nil_2.
Qed.

Lemma percentages_adds_up total total' s :
  adds_up total s → adds_up total (Statistics.percentages total' s).
Proof.
  unfold adds_up, Statistics.percentages, Statistics.with_percentages. simpl.
  intros Hs. apply Forall_cons in Hs as [Hen Hs]. apply Forall_cons in Hs as [Hes Hs].
  apply Forall_cons in Hs as [Hpt _].
  repeat (apply Forall_cons_2; [case_decide; simpl; lia|]). apply Forall_nil_2.
Qed.

Lemma length_dict_values {V} (d : dict V) : length (dict_values d) = length d.
Proof. unfold dict_values. apply length_fmap. Qed.

(** X14. In the statistics, for each of the NPC names, the messages and
    the replies, and for each of the languages en, es and pt, the
    [null], [x] and [valid] counters are counts and add up to the number
    of records: every record is counted once, in exactly one of the
    three. *)
Theorem translation_counters_add_up (self : Fixed.mapper) :
  let stats := Statistics.analyze_statistics self in
  let quality := Statistics.stats_translation_quality stats in
  adds_up (Statistics.total_npcs (Statistics.stats_basic stats))
    (Statistics.npc_names quality) ∧
  adds_up (Statistics.total_messages (Statistics.stats_basic stats))
    (Statistics.messages quality) ∧
  adds_up (Statistics.total_replies (Statistics.stats_basic stats))
    (Statistics.replies quality).
Proof.
  cbn zeta. unfold Statistics.analyze_statistics, Statistics.py_dict_len. simpl.
  rewrite <-!length_dict_values.
  split; [|split]; apply percentages_adds_up, count_all_adds_up.
Qed.

Lemma count_if_le {A} (p q : A → bool) (l : list A) :
  (∀ a, p a = true → q a = true) → Statistics.count_if p l ≤ Statistics.count_if q l.
Proof.
  intros Hpq. unfold Statistics.count_if. apply inj_le.
  induction l as [|a l IH]; [done|]. rewrite !filter_cons.
  destruct (p a) eqn:Hp.
  - rewrite (Hpq a Hp). rewrite !decide_True by done. simpl. lia.
  - rewrite (decide_False (P := false = true)) by done.
    case_decide; simpl; lia.
Qed.

Lemma count_if_length {A} (p : A → bool) (l : list A) :
  0 ≤ Statistics.count_if p l ≤ Z.of_nat (length l).
Proof.
  unfold Statistics.count_if. split; [lia|]. apply inj_le, length_filter.
Qed.

Lemma count_if_or {A} (p q : A → bool) (l : list A) :
  Statistics.count_if (λ a, p a || q a) l ≤ Statistics.count_if p l + Statistics.count_if q l.
Proof.
  unfold Statistics.count_if. rewrite <-Nat2Z.inj_add. apply inj_le.
  induction l as [|a l IH]; [done|]. rewrite !filter_cons.
  destruct (p a), (q a); simpl; lia.
Qed.

(** X15. In the statistics the counts of NPCs are consistent with each
    other: the NPCs with images and the NPCs with a gender are among the
    NPCs with metadata, which are no more than the two together and no
    more than all NPCs; and the NPCs with dialogs are no more than all
    NPCs. *)
Theorem npc_counts_are_consistent (self : Fixed.mapper) :
  let stats := Statistics.analyze_statistics self in
  let basic := Statistics.stats_basic stats in
  let metadata := Statistics.stats_metadata stats in
  0 ≤ Statistics.npcs_with_images metadata ≤ Statistics.npcs_with_metadata metadata ∧
  0 ≤ Statistics.npcs_with_gender metadata ≤ Statistics.npcs_with_metadata metadata ∧
  Statistics.npcs_with_metadata metadata ≤
    Statistics.npcs_with_images metadata + Statistics.npcs_with_gender metadata ∧
  Statistics.npcs_with_metadata metadata ≤ Statistics.total_npcs basic ∧
  0 ≤ Statistics.npcs_with_dialogs basic ≤ Statistics.total_npcs basic.
Proof.
  cbn zeta. unfold Statistics.analyze_statistics, Statistics.py_dict_len. simpl.
  rewrite <-!length_dict_values.
  set (l := dict_values (Fixed.npcs self)).
  pose proof (count_if_length (λ npc, Statistics.nonempty (NPC.img_urls npc)) l).
  pose proof (count_if_length (λ npc, Statistics.nonempty (NPC.genders npc)) l).
  pose proof (count_if_length (λ npc, Statistics.nonempty (NPC.dialogs npc)) l).
  pose proof (count_if_length
    (λ npc, Statistics.nonempty (NPC.genders npc) || Statistics.nonempty (NPC.img_urls npc)) l).
  pose proof (count_if_or (λ npc, Statistics.nonempty (NPC.genders npc))
                (λ npc, Statistics.nonempty (NPC.img_urls npc)) l).
  pose proof (count_if_le (λ npc, Statistics.nonempty (NPC.img_urls npc))
    (λ npc, Statistics.nonempty (NPC.genders npc) || Statistics.nonempty (NPC.img_urls npc)) l
    ltac:(intros a Ha; simpl in *; rewrite Ha; apply orb_true_r)).
  pose proof (count_if_le (λ npc, Statistics.nonempty (NPC.genders npc))
    (λ npc, Statistics.nonempty (NPC.genders npc) || Statistics.nonempty (NPC.img_urls npc)) l
    ltac:(intros a Ha; simpl in *; by rewrite Ha)).
  cbv beta in *. lia.
Qed.






Section Matched.
Context `{SetOrder}.




End Matched.

(** *** The translation files and the loaded records *)

(** A loop of [d[key] = value] over entries of distinct keys, from an
    empty dictionary, leaves their keys, in their order. *)
Lemma dict_keys_foldl_set {V W} (value : Z * W → V) (l : list (Z * W)) (d : dict V) :
  NoDup (dict_keys d ++ l.*1) →
  dict_keys (foldl (λ d kv, dict_set kv.1 (value kv) d) d l) = dict_keys d ++ l.*1.
Proof.
  revert d. induction l as [|[k w] l IH]; intros d Hnd; simpl.
  - by rewrite app_nil_r.
  - rewrite fmap_cons in Hnd. simpl in Hnd.
    assert (dict_mem k d = false) as Hk.
    { unfold dict_mem. destruct (dict_get k d) eqn:Hget; [|done].
      apply NoDup_app in Hnd as (_ & Hdisj & _).
      exfalso. apply (Hdisj k); [|left].
      apply dict_get_Some_elem_of in Hget. apply list_elem_of_fmap. by exists (k, v). }
    rewrite IH; rewrite dict_keys_set, Hk, <-?app_assoc; done.
Qed.

Lemma length_foldl_set {V W} (value : Z * W → V) (l : list (Z * W)) :
  NoDup l.*1 →
  length (foldl (λ d kv, dict_set kv.1 (value kv) d) [] l) = length l.
Proof.
  intros Hl.
  pose proof (dict_keys_foldl_set value l [] Hl) as Hkeys.
  apply (f_equal length) in Hkeys. unfold dict_keys in Hkeys.
  rewrite length_app, !length_fmap in Hkeys. exact Hkeys.
Qed.

Lemma length_link_replies messages replies :
  length (foldl Fixed.link_reply messages replies) = length messages.
Proof.
  revert messages. induction replies as [|r rs IH]; intros messages; simpl; [done|].
  rewrite IH. unfold Fixed.link_reply. destruct (dict_mem _ _); [|done].
  rewrite <-!(length_fmap fst). fold (dict_keys (dict_update (NPCReply.parent_message_id r)
    (NPCMessage.append_reply r) messages)). by rewrite dict_keys_update.
Qed.

Lemma mapped_bounds {V} (used : gset Z) (d : dict V) :
  NoDup (dict_keys d) →
  0 ≤ Statistics.mapped used d ≤ Statistics.py_dict_len d.
Proof.
  intros Hd. unfold Statistics.mapped, Statistics.py_dict_len. split; [lia|].
  apply inj_le.
  etrans; [apply (subseteq_size (used ∩ list_to_set (dict_keys d))
                    (list_to_set (dict_keys d))); set_solver|].
  rewrite size_list_to_set by done. unfold dict_keys. by rewrite length_fmap.
Qed.

Section Mapping.
Context `{SetOrder}.

(** X17. After [load_data] in XLIFF mode on a new mapper, the
    statistics have their [xliff_mapping] part; the entries of the
    translation files are as many as the loaded messages and replies;
    the mapped entries are no more than the entries, and the unmapped
    ones are the others. *)
Theorem xliff_mapping_counts_after_load
    (dir : folder) (xdir : xliff_folder)
    (xliff_files : list (Xliff.lang_pair * string)) (loaded : Fixed.mapper) :
  Fixed.load_data dir xdir (Fixed.init true xliff_files) = Ok loaded →
  let stats := Statistics.analyze_statistics loaded in
  ∃ mapping,
    Statistics.stats_xliff_mapping stats = Some mapping ∧
    Statistics.total_xliff_messages mapping =
      Statistics.total_messages (Statistics.stats_basic stats) ∧
    Statistics.total_xliff_replies mapping =
      Statistics.total_replies (Statistics.stats_basic stats) ∧
    0 ≤ Statistics.mapped_messages mapping ≤ Statistics.total_xliff_messages mapping ∧
    Statistics.mapped_messages mapping + Statistics.unmapped_messages mapping =
      Statistics.total_xliff_messages mapping ∧
    0 ≤ Statistics.mapped_replies mapping ≤ Statistics.total_xliff_replies mapping ∧
    Statistics.mapped_replies mapping + Statistics.unmapped_replies mapping =
      Statistics.total_xliff_replies mapping.
Proof.
  unfold Fixed.load_data.
  pose proof (load_metadata_keeps dir (Fixed.init true xliff_files))
    as (Hux & Hxf & Hn & Hm & Hr & Ht).
  cbn zeta in *. set (self1 := Fixed._load_metadata dir _) in *.
  rewrite Hux. simpl Fixed.use_xliff. cbn iota.
  intros Hload. apply bind_Ok in Hload as (merged & Hload & [= <-]).
  apply bind_Ok in Hload as (self3 & Hstruct & Hmerge).
  pose proof Hstruct as Hux3.
  apply load_structure_from_json_keeps in Hstruct
    as (Hn3 & Hm3 & Hr3 & Ht3 & rels & Hrels).
  rewrite (merge_xliff_with_structure_eq _ _ Hrels) in Hmerge.
  injection Hmerge as <-.
  assert (Fixed.use_xliff self3 = true) as Hux3'.
  { clear -Hux3 Hux. unfold Fixed._load_structure_from_json in Hux3.
    repeat (apply bind_Ok in Hux3 as (? & ? & Hux3)). injection Hux3 as <-. simpl.
    match goal with
    | Hd : for_each Fixed.append_dialog _ _ = Ok _ |- _ =>
        revert Hd; apply (for_each_inv (λ s, Fixed.use_xliff s = true)); [|exact Hux]
    end.
    intros s a s' Hs (d & _ & [= <-])%bind_Ok. done. }
  set (tables := Fixed.xliff_translations self3).
  assert (∀ ty, NoDup (dict_keys (Xliff.table ty tables))) as Hkeys.
  { intros ty. unfold tables. rewrite Ht3.
    unfold Fixed._load_xliff_translations. simpl Fixed.xliff_translations.
    apply load_NoDup. rewrite Ht. simpl. intros []; apply NoDup_nil_2. }
  unfold Statistics.analyze_statistics.
  unfold Fixed._match_metadata_with_npcs, Fixed._build_relationships.
  simpl. rewrite Hux3'. fold tables.
  eexists. split; [done|]. simpl.
  unfold Statistics.py_dict_len at 1 2 3 4.
  rewrite length_link_replies.
  assert (length (merged_messages self3) = length (Xliff.messages tables)) as Hlm.
  { unfold merged_messages. rewrite Hm3. simpl Fixed.messages. rewrite Hm. fold tables.
    apply (length_foldl_set (λ kv, Fixed.message_of_translations kv.1 kv.2)).
    apply (Hkeys Xliff.message). }
  assert (length (merged_replies rels self3) = length (Xliff.replies tables)) as Hlr.
  { unfold merged_replies. rewrite Hr3. simpl Fixed.replies. rewrite Hr. fold tables.
    apply (length_foldl_set (λ kv, Fixed.reply_of_translations rels kv.1 kv.2)).
    apply (Hkeys Xliff.reply). }
  rewrite Hlm, Hlr.
  split; [done|]. split; [done|].
  split; [apply mapped_bounds, (Hkeys Xliff.message)|].
  split; [unfold Statistics.py_dict_len; lia|].
  split; [apply mapped_bounds, (Hkeys Xliff.reply)|].
  unfold Statistics.py_dict_len; lia.
Qed.

End Mapping.

(** ** The window *)

(** A sequence of pieces ends without an exception exactly when each
    piece does. *)
Lemma steps_passes (l : list Gui.run) :
  (Gui.steps l).2 = None ↔ Forall (λ r, r.2 = None) l.
Proof.
  induction l as [|[lines [e|]] l IH]; simpl.
  - split; [constructor|done].
  - split; [done|]. by intros [? _]%Forall_cons.
  - destruct (Gui.steps l) as [lines' r]. simpl in *.
    rewrite Forall_cons. simpl. tauto.
Qed.

Lemma steps_fmap_passes {A} (f : A → Gui.run) (l : list A) :
  (Gui.steps (f <$> l)).2 = None ↔ Forall (λ a, (f a).2 = None) l.
Proof. by rewrite steps_passes, Forall_fmap. Qed.

Lemma check_json_file_passes o json_folder filename :
  (Gui.check_json_file o json_folder filename).2 = None ↔
  Gui.path_exists o (Gui.path_join o json_folder filename) = true.
Proof.
  unfold Gui.check_json_file. cbn zeta.
  destruct (Gui.path_exists o _); simpl; by split.
Qed.

Lemma check_xliff_file_passes o xliff_folder entry :
  (Gui.check_xliff_file o xliff_folder entry).2 = None ↔
  Gui.path_exists o (Gui.path_join o xliff_folder entry.2) = true.
Proof.
  unfold Gui.check_xliff_file. cbn zeta.
  destruct (Gui.path_exists o _); simpl; by split.
Qed.

(** What [validate_inputs] has checked when it returns. *)
Lemma validate_inputs_passes (o : Gui.os) (v : Gui.vars) :
  (Gui.validate_inputs o v).2 = None ↔
  Gui.nonempty (Gui.json_folder_var v) = true ∧
  Gui.path_exists o (Gui.json_folder_var v) = true ∧
  Forall (λ name, Gui.path_exists o (Gui.path_join o (Gui.json_folder_var v) name) = true)
    (Gui.required_json_files v) ∧
  (Gui.use_xliff v = true →
     Gui.nonempty (Gui.xliff_folder_var v) = true ∧
     Gui.path_exists o (Gui.xliff_folder_var v) = true ∧
     Forall (λ entry,
         Gui.path_exists o (Gui.path_join o (Gui.xliff_folder_var v) entry.2) = true)
       (Gui.xliff_files v)) ∧
  Gui.nonempty (Gui.output_folder_var v) = true ∧
  Gui.makedirs o (Gui.output_folder_var v) = true.
Proof.
  unfold Gui.validate_inputs. cbn zeta. rewrite steps_passes.
  rewrite !Forall_cons, Forall_nil. cbn [snd Gui.log_message].
  rewrite steps_fmap_passes.
  setoid_rewrite check_json_file_passes.
  assert (∀ b1 b2 msg,
    (if negb b1 || negb b2 then Gui.raise (Gui.ValueError msg) else Gui.steps []).2 = None
    ↔ b1 = true ∧ b2 = true) as Hfolder.
  { intros [] [] msg; simpl; split; (done || by intros [? ?]). }
  rewrite Hfolder.
  assert ((if negb (Gui.nonempty (Gui.output_folder_var v))
           then Gui.raise (Gui.ValueError "Output folder is required.")
           else Gui.steps []).2 = None
          ↔ Gui.nonempty (Gui.output_folder_var v) = true) as ->.
  { destruct (Gui.nonempty _); simpl; by split. }
  assert ((if Gui.makedirs o (Gui.output_folder_var v) then Gui.steps []
           else Gui.raise Gui.OSError).2 = None
          ↔ Gui.makedirs o (Gui.output_folder_var v) = true) as ->.
  { destruct (Gui.makedirs _ _); simpl; by split. }
  destruct (Gui.use_xliff v).
  - rewrite steps_passes, !Forall_cons, Forall_nil. cbn [snd Gui.log_message].
    rewrite Hfolder.
    destruct (Gui.xliff_files v) as [|entry files].
    { cbn [snd Gui.log_message]. rewrite Forall_nil. tauto. }
    rewrite steps_passes, !Forall_cons, Forall_nil. cbn [snd Gui.log_message].
    rewrite steps_fmap_passes. setoid_rewrite check_xliff_file_passes.
    rewrite Forall_cons.
    tauto.
  - simpl. split; [|tauto]. intros Hall. repeat split; try tauto; done.
Qed.

(** X18. [validate_inputs] returns, rather than raise, exactly when the
    JSON folder is given and exists, each required file of the mode
    exists in it, in XLIFF mode the XLIFF folder is given and exists and
    each translation file that is chosen exists in it, the output folder
    is given, and it can be created. A translation file that is not
    chosen is not looked for, and XLIFF mode passes with none chosen. *)
Theorem validate_inputs_returns_iff (o : Gui.os) (v : Gui.vars) :
  (∃ lines, Gui.validate_inputs o v = (lines, None)) ↔
  Gui.json_folder_var v ≠ EmptyString ∧
  Gui.path_exists o (Gui.json_folder_var v) = true ∧
  (∀ name, name ∈ Gui.required_json_files v →
     Gui.path_exists o (Gui.path_join o (Gui.json_folder_var v) name) = true) ∧
  (Gui.data_source_var v = "xliff" →
     Gui.xliff_folder_var v ≠ EmptyString ∧
     Gui.path_exists o (Gui.xliff_folder_var v) = true ∧
     ∀ name, name ∈ [Gui.xliff_fr_en_var v; Gui.xliff_fr_es_var v; Gui.xliff_fr_pt_var v] →
       name ≠ EmptyString →
       Gui.path_exists o (Gui.path_join o (Gui.xliff_folder_var v) name) = true) ∧
  Gui.output_folder_var v ≠ EmptyString ∧
  Gui.makedirs o (Gui.output_folder_var v) = true.
Proof.
  assert (∀ s, Gui.nonempty s = true ↔ s ≠ EmptyString) as Hne
    by (intros []; simpl; split; done).
  assert ((∃ lines, Gui.validate_inputs o v = (lines, None)) ↔
          (Gui.validate_inputs o v).2 = None) as ->.
  { split; [by intros [lines ->]|].
    destruct (Gui.validate_inputs o v) as [lines r]. simpl. intros ->. by exists lines. }
  rewrite validate_inputs_passes, !Hne, Forall_forall.
  assert (Gui.use_xliff v = true ↔ Gui.data_source_var v = "xliff") as ->
    by (unfold Gui.use_xliff; apply bool_decide_eq_true).
  assert (Forall (λ entry,
              Gui.path_exists o (Gui.path_join o (Gui.xliff_folder_var v) entry.2) = true)
            (Gui.xliff_files v) ↔
          ∀ name,
            name ∈ [Gui.xliff_fr_en_var v; Gui.xliff_fr_es_var v; Gui.xliff_fr_pt_var v] →
            name ≠ EmptyString →
            Gui.path_exists o (Gui.path_join o (Gui.xliff_folder_var v) name) = true) as ->.
  { unfold Gui.xliff_files. rewrite Forall_forall. split.
    - intros Hall name Hname Hnonempty.
      assert (∃ p, (p, name) ∈ [(Xliff.fr_en, Gui.xliff_fr_en_var v);
                                 (Xliff.fr_es, Gui.xliff_fr_es_var v);
                                 (Xliff.fr_pt, Gui.xliff_fr_pt_var v)]) as [p Hp].
      { rewrite !elem_of_cons in Hname. destruct Hname as [->|[->|[->|[]%elem_of_nil]]];
          eexists; rewrite !elem_of_cons; eauto. }
      apply (Hall (p, name)). apply list_elem_of_filter. split; [|done]. simpl.
      by apply Hne.
    - intros Hall [p name] [Hnonempty Hin]%list_elem_of_filter. simpl in *.
      apply Hall; [|by apply Hne].
      rewrite !elem_of_cons in Hin. rewrite !elem_of_cons.
      destruct Hin as [[= _ ->]|[[= _ ->]|[[= _ ->]|[]%elem_of_nil]]]; eauto. }
  tauto.
Qed.

(** *** Validation and loading *)

Lemma bind_not_raise {A B} (e : exn) (r : result A) (k : A → result B) :
  r ≠ Raise e → (∀ a, r = Ok a → k a ≠ Raise e) → r ≫= k ≠ Raise e.
Proof.
  destruct r as [a|e']; unfold mbind, result_bind.
  - intros _ Hk. by apply Hk.
  - intros Hr _ [= ->]. by apply Hr.
Qed.

Lemma for_each_not_raise {A S} (e : exn) (body : S → A → result S) (l : list A) (s : S) :
  (∀ s a, body s a ≠ Raise e) → for_each body l s ≠ Raise e.
Proof.
  intros Hbody. revert s. induction l as [|a l IH]; intros s; simpl; [done|].
  apply bind_not_raise; [apply Hbody|]. intros s' _. apply IH.
Qed.

Lemma getitem_finds item key : getitem item key ≠ Raise FileNotFoundError.
Proof. unfold getitem. destruct item; try done. by destruct (assoc _ _). Qed.

(** Reading a row never raises [FileNotFoundError]. *)
Ltac row_finds :=
  repeat (apply bind_not_raise; [|intros ? _]);
  first [ apply getitem_finds
        | done
        | match goal with |- ?f ?x ≠ _ => by destruct x end ].

Lemma append_dialog_finds self dialog :
  Fixed.append_dialog self dialog ≠ Raise FileNotFoundError.
Proof. unfold Fixed.append_dialog, Fixed.dialog_of_json. row_finds. Qed.

Lemma add_relationship_finds rels reply :
  Fixed.add_relationship rels reply ≠ Raise FileNotFoundError.
Proof. unfold Fixed.add_relationship. row_finds. Qed.

Lemma open_json_finds dir name :
  is_Some (dir name) → open_json dir name ≠ Raise FileNotFoundError.
Proof. unfold open_json. intros [f ->]. by destruct f. Qed.

(** A loader that opens one file, takes the first value of the document
    and loops over its rows. *)
Lemma loader_finds {S} dir name (check : json → result Z) (body : S → json → result S) s :
  is_Some (dir name) →
  (∀ x, check x ≠ Raise FileNotFoundError) →
  (∀ s a, body s a ≠ Raise FileNotFoundError) →
  (data ← open_json dir name;
   rows ← values_first data;
   _ ← check rows;
   items ← py_iter rows;
   for_each body items s) ≠ Raise FileNotFoundError.
Proof.
  intros Hfile Hcheck Hbody.
  apply bind_not_raise; [by apply open_json_finds|]. intros data _.
  apply bind_not_raise; [by destruct data as [| | | | |[|[]]]|]. intros rows _.
  apply bind_not_raise; [apply Hcheck|]. intros _ _.
  apply bind_not_raise; [by destruct rows|]. intros items _.
  by apply for_each_not_raise.
Qed.

Lemma py_len_finds x : py_len x ≠ Raise FileNotFoundError.
Proof. by destruct x. Qed.

Section Validated.
Context `{SetOrder}.

(** X19. When [validate_inputs] has returned, [load_data] of the fixed
    variant, on the mapper that [generate_html_threaded] builds from
    the same variables, does not raise [FileNotFoundError], in either
    mode: the files that are checked include those that are opened
    without a check. [dir] is the JSON folder: it holds the names that
    exist under that folder. *)
Theorem validated_load_finds_its_files
    (o : Gui.os) (v : Gui.vars) (dir : folder) (xdir : xliff_folder) (lines : list string) :
  (∀ name, Gui.path_exists o (Gui.path_join o (Gui.json_folder_var v) name) = true →
           is_Some (dir name)) →
  Gui.validate_inputs o v = (lines, None) →
  Fixed.load_data dir xdir (Fixed.init (Gui.use_xliff v) (Gui.xliff_files v))
    ≠ Raise FileNotFoundError.
Proof.
  intros Hdir Hvalid.
  assert ((Gui.validate_inputs o v).2 = None) as Hpasses by (by rewrite Hvalid).
  apply validate_inputs_passes in Hpasses as (_ & _ & Hfiles & _).
  assert (Forall (λ name, is_Some (dir name)) (Gui.required_json_files v)) as Hthere.
  { eapply Forall_impl; [exact Hfiles|]. apply Hdir. }
  clear -Hthere. unfold Gui.required_json_files in Hthere.
  unfold Fixed.load_data.
  pose proof (load_metadata_keeps dir (Fixed.init (Gui.use_xliff v) (Gui.xliff_files v)))
    as (Hux & _).
  cbn zeta in *. rewrite Hux. simpl Fixed.use_xliff.
  apply bind_not_raise; [|done].
  destruct (Gui.use_xliff v).
  - simpl in Hthere. rewrite !Forall_cons in Hthere.
    destruct Hthere as (Hdialog & _ & Hreply & _).
    apply bind_not_raise.
    + unfold Fixed._load_structure_from_json.
      apply bind_not_raise; [by apply open_json_finds|]. intros data _.
      apply bind_not_raise; [by destruct data as [| | | | |[|[]]]|]. intros rows _.
      apply bind_not_raise; [by destruct rows|]. intros items _.
      apply bind_not_raise; [apply for_each_not_raise, append_dialog_finds|]. intros self _.
      apply bind_not_raise; [by apply open_json_finds|]. intros data' _.
      apply bind_not_raise; [by destruct data' as [| | | | |[|[]]]|]. intros rows' _.
      apply bind_not_raise; [by destruct rows'|]. intros items' _.
      apply bind_not_raise; [apply for_each_not_raise, add_relationship_finds|]. done.
    + intros self _. unfold Fixed._merge_xliff_with_structure. cbn zeta.
      by destruct (Fixed._reply_relationships _).
  - simpl in Hthere. rewrite !Forall_cons in Hthere.
    destruct Hthere as (Hdialog & _ & Hnpc & Hmessage & Hreply & _).
    apply bind_not_raise.
    { apply (loader_finds dir _ py_len); [done|apply py_len_finds|].
      intros s a. unfold Fixed.npc_of_json. row_finds. }
    intros s1 _. apply bind_not_raise.
    { apply (loader_finds dir _ py_len); [done|apply py_len_finds|].
      intros s a. unfold Fixed.message_of_json. row_finds. }
    intros s2 _. apply bind_not_raise.
    { apply (loader_finds dir _ py_len); [done|apply py_len_finds|].
      intros s a. unfold Fixed.reply_of_json. row_finds. }
    intros s3 _.
    apply (loader_finds dir _ py_len); [done|apply py_len_finds|].
    apply append_dialog_finds.
Qed.

End Validated.

(** *** [auto_load_xliff_files] *)

Lemma pattern_match_elem_of xliff_files file_patterns f :
  Gui.pattern_match xliff_files file_patterns = Some f → f ∈ xliff_files.
Proof.
  induction file_patterns as [|pattern file_patterns IH]; simpl; [done|].
  destruct (filter _ xliff_files) as [|f' fs] eqn:Hfilter; [done|].
  intros [= <-].
  assert (f' ∈ filter (λ f, includes pattern (lower f) = true) xliff_files) as Hin
    by (rewrite Hfilter; left).
  by apply list_elem_of_filter in Hin as [_ Hin].
Qed.

Lemma find_file_elem_of xliff_files lang_pair file_patterns f :
  Gui.find_file xliff_files lang_pair file_patterns = Some f → f ∈ xliff_files.
Proof.
  unfold Gui.find_file. cbn zeta. destruct (negb _).
  - unfold Gui.fuzzy_match. intros Hhead.
    apply head_Some in Hhead as [fs Hfilter].
    assert (f ∈ filter (λ f, forallb (λ code, includes code (lower f))
                               (Gui.lang_codes lang_pair) = true) xliff_files) as Hin
      by (rewrite Hfilter; left).
    by apply list_elem_of_filter in Hin as [_ Hin].
  - apply pattern_match_elem_of.
Qed.

(** The loop assigns names out of the list, to the three file variables
    only. *)
Lemma assign_found_spec (xliff_files : list string) (v : Gui.vars) :
  let v' := Gui.assign_found xliff_files v in
  Gui.data_source_var v' = Gui.data_source_var v ∧
  Gui.json_folder_var v' = Gui.json_folder_var v ∧
  Gui.xliff_folder_var v' = Gui.xliff_folder_var v ∧
  Gui.output_folder_var v' = Gui.output_folder_var v ∧
  ∀ lang_pair,
    Gui.get_var lang_pair v' = Gui.get_var lang_pair v ∨
    (Gui.get_var lang_pair v' ∈ xliff_files ∧ Gui.get_var lang_pair v' ≠ EmptyString).
Proof.
  cbn zeta. unfold Gui.assign_found, Gui.patterns. cbn [foldl fst snd].
  repeat match goal with
  | |- context [Gui.find_file xliff_files ?p ?ps] =>
      let Hf := fresh "Hfind" in
      destruct (Gui.find_file xliff_files p ps) as [[|? ?]|] eqn:Hf;
        [| apply find_file_elem_of in Hf |]
  end; cbn [Gui.nonempty Gui.set_var Gui.data_source_var Gui.json_folder_var
            Gui.xliff_folder_var Gui.output_folder_var Gui.xliff_fr_en_var
            Gui.xliff_fr_es_var Gui.xliff_fr_pt_var].
  all: repeat split; try done.
  all: intros []; simpl; auto.
Qed.

(** X20. [auto_load_xliff_files] changes the three file variables only.
    Each of them either keeps its value or gets a name that
    [os.listdir] returned for the folder and that ends in [.xliff] in
    any case of the letters; a variable is never emptied. Without a
    folder, or when the folder does not exist, nothing changes and
    nothing is logged. *)
Theorem auto_load_assigns_listed_xliff_names
    (o : Gui.os) (folder_path : string) (v : Gui.vars) :
  let v' := (Gui.auto_load_xliff_files o folder_path v).1 in
  Gui.data_source_var v' = Gui.data_source_var v ∧
  Gui.json_folder_var v' = Gui.json_folder_var v ∧
  Gui.xliff_folder_var v' = Gui.xliff_folder_var v ∧
  Gui.output_folder_var v' = Gui.output_folder_var v ∧
  (∀ lang_pair,
     Gui.get_var lang_pair v' = Gui.get_var lang_pair v ∨
     ∃ names,
       Gui.listdir o folder_path = Some names ∧
       Gui.get_var lang_pair v' ∈ names ∧
       Gui.endswith ".xliff" (lower (Gui.get_var lang_pair v')) = true ∧
       Gui.get_var lang_pair v' ≠ EmptyString) ∧
  (folder_path = EmptyString ∨ Gui.path_exists o folder_path = false →
     Gui.auto_load_xliff_files o folder_path v = (v, ([], None))).
Proof.
  cbn zeta. unfold Gui.auto_load_xliff_files.
  destruct (negb (Gui.nonempty folder_path) || negb (Gui.path_exists o folder_path))
    eqn:Hskip.
  { simpl. repeat split; auto. }
  apply orb_false_elim in Hskip as [Hgiven%negb_false_iff Hexists%negb_false_iff].
  destruct (Gui.listdir o folder_path) as [names|] eqn:Hlist.
  - cbn [fst].
    destruct (assign_found_spec
                (filter (λ f, Gui.endswith ".xliff" (lower f) = true) names) v)
      as (Hsource & Hjson & Hxliff & Houtput & Hfiles).
    repeat split; try done.
    + intros lang_pair. destruct (Hfiles lang_pair) as [Hsame|[Hin Hnonempty]]; [by left|].
      right. exists names. apply list_elem_of_filter in Hin as [Hends Hin]. done.
    + intros [->|Hnone]; [done|]. by rewrite Hnone in Hexists.
  - simpl. repeat split; auto.
    intros [->|Hnone]; [done|]. by rewrite Hnone in Hexists.
Qed.

(** ** The search script *)

(** A match is not longer than what is left of the text. *)
Lemma match_length_le re prev s n :
  Search.match_length re prev s = Some n → (n ≤ String.length s)%nat.
Proof.
  revert prev s n. induction re as [|a re IH]; intros prev s n; simpl.
  { intros [= <-]. lia. }
  destruct a as [c| |].
  - destruct s as [|d s']; [done|]. destruct (Search.same_letter c d); [|done].
    intros (k & Hk & ->)%fmap_Some. apply IH in Hk. simpl. lia.
  - revert prev n. induction s as [|d s' IHs]; intros prev n.
    + apply IH.
    + simpl. destruct (Search.js_space d).
      * intros Hn. by apply IH in Hn.
      * match goal with |- context [S <$> ?more] => destruct more as [k|] eqn:Hmore end.
        -- simpl. intros [= <-]. apply IHs in Hmore. lia.
        -- simpl. intros Hn. by apply IH in Hn.
  - destruct (negb _); [apply IH|done].
Qed.

Lemma highlighted_refl text : highlighted text text.
Proof. induction text; by constructor. Qed.

(** The copy of [re] over [s]: at a place outside a match, and with
    [S k] characters of a match left to copy. *)
Lemma replace_matches_highlighted re s :
  ∀ prev,
    highlighted s (Search.replace_matches re prev 0 s) ∧
    ∀ k, (k < String.length s)%nat →
      ∃ stretch rest out,
        s = stretch +:+ rest ∧
        Search.replace_matches re prev (S k) s = stretch +:+ "</span>" +:+ out ∧
        highlighted rest out.
Proof.
  induction s as [|d s' IH]; intros prev.
  - split; [|simpl; lia]. simpl.
    destruct (Search.match_length re prev EmptyString); [|constructor].
    apply (highlighted_span EmptyString EmptyString EmptyString). constructor.
  - assert (∀ k, (k < String.length (String d s'))%nat →
      ∃ stretch rest out,
        String d s' = stretch +:+ rest ∧
        Search.replace_matches re prev (S k) (String d s') = stretch +:+ "</span>" +:+ out ∧
        highlighted rest out) as Hinside.
    { intros k Hk. destruct k as [|k].
      - exists (String d EmptyString), s', (Search.replace_matches re (Some d) 0 s').
        split; [done|]. split; [done|]. apply IH.
      - simpl in Hk.
        destruct (proj2 (IH (Some d)) k ltac:(lia)) as (stretch & rest & out & Hs & Hr & Hout).
        exists (String d stretch), rest, out.
        split; [by rewrite Hs|]. split; [|done].
        cbn [Search.replace_matches]. by rewrite Hr. }
    split; [|exact Hinside].
    cbn [Search.replace_matches].
    destruct (Search.match_length re prev (String d s')) as [[|[|k]]|] eqn:Hlen.
    + apply (highlighted_span EmptyString (String d s')). constructor. apply IH.
    + apply (highlighted_span (String d EmptyString) s'). apply IH.
    + apply match_length_le in Hlen. simpl in Hlen.
      destruct (proj2 (IH (Some d)) k ltac:(lia)) as (stretch & rest & out & Hs & Hr & Hout).
      rewrite Hr, Hs.
      by apply (highlighted_span (String d stretch) rest).
    + constructor. apply IH.
Qed.

Section Highlight.
Context `{Search.Normalizer}.

(** X21. [highlightText] returns the text with highlights and nothing
    else: every character of the text is there, in its order and its
    own case, each highlight is opened and closed, and none is inside
    another. This holds for every search term and every setting of the
    three options. *)
Theorem highlight_keeps_the_text
    (text searchTerm : string) (ignoreDiacritics useWildcards exactMatch : bool) :
  highlighted text
    (Search.highlightText text searchTerm ignoreDiacritics useWildcards exactMatch).
Proof.
  unfold Search.highlightText.
  destruct (_ || _); [apply highlighted_refl|].
  cbn zeta. apply replace_matches_highlighted.
Qed.

End Highlight.

(** *** Exact match *)

Lemma lower_char_idemp c : lower_char (lower_char c) = lower_char c.
Proof. destruct c as [[] [] [] [] [] [] [] []]; by vm_compute. Qed.

Lemma lower_idemp s : lower (lower s) = lower s.
Proof. induction s as [|c s IH]; simpl; [done|]. by rewrite lower_char_idemp, IH. Qed.







Section Exact.
Context `{Search.Normalizer}.




End Exact.

(** ** The page of the original variant *)

Lemma written_dialogs_elem_of messages npc dialog message :
  (dialog, message) ∈ OriginalPage.written_dialogs messages npc ↔
  dialog ∈ NPC.dialogs npc ∧ dict_get (NPCDialog.message_id dialog) messages = Some message.
Proof.
  unfold OriginalPage.written_dialogs. rewrite list_elem_of_omap. split.
  - intros (d & Hd & Hm). apply fmap_Some in Hm as (m & Hm & [= -> ->]).
    split; [|done]. by rewrite (sorted_Permutation Z.ltb NPCDialog.check_order) in Hd.
  - intros [Hd Hm]. exists dialog. split.
    + by rewrite (sorted_Permutation Z.ltb NPCDialog.check_order).
    + by rewrite Hm.
Qed.

Lemma written_dialogs_sorted messages npc :
  StronglySorted (λ a b, NPCDialog.check_order a.1 ≤ NPCDialog.check_order b.1)
    (OriginalPage.written_dialogs messages npc).
Proof.
  unfold OriginalPage.written_dialogs.
  pose proof (sorted_StronglySorted Z.ltb Z.le NPCDialog.check_order Z_ltb_false
                (NPC.dialogs npc)) as Hsorted.
  induction Hsorted as [|d l Hl IH Hd]; [constructor|].
  cbn [omap list_omap]. destruct (dict_get (NPCDialog.message_id d) messages) as [m|]; [|done].
  cbn [fmap option_fmap option_map]. constructor; [done|].
  apply Forall_forall. intros [d' m'] (d'' & Hin & Hm)%list_elem_of_omap.
  apply fmap_Some in Hm as (m'' & _ & [= -> ->]).
  rewrite Forall_forall in Hd. simpl. by apply Hd.
Qed.

(** X23. The page of the original variant has a card for each NPC with
    at least one dialog and for no other, in ascending order of the
    French name as it is stored, upper case before lower case. In a
    card, the dialogs are those of the NPC whose message is loaded, in
    ascending check order; under a message, the replies are those of
    the message, in ascending id. *)
Theorem original_page_is_ordered (self : Original.mapper) :
  OriginalPage._generate_npc_cards self =
    string_concat (OriginalPage.card_text self <$> OriginalPage.card_npcs self) ∧
  StronglySorted (λ a b, String.le (NPC.name_fr a) (NPC.name_fr b))
    (OriginalPage.card_npcs self) ∧
  OriginalPage.card_npcs self ≡ₚ
    filter (λ npc, NPC.dialogs npc ≠ []) (dict_values (Original.npcs self)) ∧
  (∀ npc,
     OriginalPage._generate_dialog_tree self npc =
       string_concat (uncurry OriginalPage.dialog_text <$>
                      OriginalPage.written_dialogs (Original.messages self) npc) ∧
     StronglySorted (λ a b, NPCDialog.check_order a.1 ≤ NPCDialog.check_order b.1)
       (OriginalPage.written_dialogs (Original.messages self) npc) ∧
     ∀ dialog message,
       (dialog, message) ∈ OriginalPage.written_dialogs (Original.messages self) npc ↔
       dialog ∈ NPC.dialogs npc ∧
       dict_get (NPCDialog.message_id dialog) (Original.messages self) = Some message) ∧
  (∀ replies,
     StronglySorted (λ a b, NPCReply.reply_id a ≤ NPCReply.reply_id b)
       (OriginalPage.written_replies replies) ∧
     OriginalPage.written_replies replies ≡ₚ replies).
Proof.
  split; [done|]. split; [|split; [|split]].
  - unfold OriginalPage.card_npcs. apply filter_StronglySorted.
    apply (sorted_StronglySorted Fixed.str_lt String.le NPC.name_fr str_lt_false).
  - unfold OriginalPage.card_npcs.
    by rewrite (sorted_Permutation Fixed.str_lt NPC.name_fr).
  - intros npc. split; [done|]. split; [apply written_dialogs_sorted|].
    intros dialog message. apply written_dialogs_elem_of.
  - intros replies. unfold OriginalPage.written_replies. split.
    + apply (sorted_StronglySorted Z.ltb Z.le NPCReply.reply_id Z_ltb_false).
    + apply (sorted_Permutation Z.ltb NPCReply.reply_id).
Qed.

(** *** What the page reads *)

Lemma written_dialogs_ext messages1 messages2 npc :
  (∀ dialog, dialog ∈ NPC.dialogs npc →
     dict_get (NPCDialog.message_id dialog) messages1 =
     dict_get (NPCDialog.message_id dialog) messages2) →
  OriginalPage.written_dialogs messages1 npc = OriginalPage.written_dialogs messages2 npc.
Proof.
  intros Hsame. unfold OriginalPage.written_dialogs.
  assert (Forall (λ dialog, dialog ∈ NPC.dialogs npc)
            (sorted Z.ltb NPCDialog.check_order (NPC.dialogs npc))) as Hin.
  { apply Forall_forall. intros dialog.
    by rewrite (sorted_Permutation Z.ltb NPCDialog.check_order). }
  induction Hin as [|d l Hd _ IH]; [done|].
  cbn [omap list_omap]. by rewrite (Hsame d Hd), IH.
Qed.

(** X24. The page of the original variant shows, of the messages, only
    those that open a dialog of an NPC: two mappers with the same NPCs,
    the same mode and as many messages and replies, whose dictionaries
    of messages agree on the messages of the dialogs of the NPCs, yield
    the same page, whatever else the dictionaries hold. The message
    that a reply leads to is not read. *)
Theorem original_page_reads_opening_messages_only (self1 self2 : Original.mapper) :
  Original.use_xliff self1 = Original.use_xliff self2 →
  Original.npcs self1 = Original.npcs self2 →
  length (Original.messages self1) = length (Original.messages self2) →
  length (Original.replies self1) = length (Original.replies self2) →
  (∀ npc dialog,
     npc ∈ dict_values (Original.npcs self1) → dialog ∈ NPC.dialogs npc →
     dict_get (NPCDialog.message_id dialog) (Original.messages self1) =
     dict_get (NPCDialog.message_id dialog) (Original.messages self2)) →
  OriginalPage._generate_html_content self1 = OriginalPage._generate_html_content self2.
Proof.
  intros Hmode Hnpcs Hmessages Hreplies Hopening.
  assert (OriginalPage._generate_npc_cards self1 = OriginalPage._generate_npc_cards self2)
    as Hcards.
  { unfold OriginalPage._generate_npc_cards, OriginalPage.card_npcs. rewrite <-Hnpcs.
    f_equal. apply list_fmap_ext. intros _ npc Hnpc%list_elem_of_lookup_2.
    apply list_elem_of_filter in Hnpc as [_ Hnpc].
    rewrite (sorted_Permutation Fixed.str_lt NPC.name_fr) in Hnpc.
    unfold OriginalPage.card_text, OriginalPage._generate_dialog_tree.
    by rewrite (written_dialogs_ext _ (Original.messages self2) npc
                  (λ dialog, Hopening npc dialog Hnpc)). }
  unfold OriginalPage._generate_html_content.
  by rewrite Hcards, Hmode, Hnpcs, Hmessages, Hreplies.
Qed.

(** ** The theorems at the inputs of further examples *)

Lemma loaded_replies_are_grouped_by_parent_witness :
  ∃ loaded,
    @Fixed.load_data first_occurrence scenario_folder no_xliff (Fixed.init false [])
      = Ok loaded ∧
    dict_get 100 (Fixed.messages loaded) = Some halte ∧
    NPCMessage.replies halte =
      filter (λ r, NPCReply.parent_message_id r = 100) (dict_values (Fixed.replies loaded)).
Proof.
  eexists. split; [reflexivity|]. split; [reflexivity|].
  exact (@loaded_replies_are_grouped_by_parent first_occurrence scenario_folder no_xliff
           false [] _ 100 halte eq_refl eq_refl).
Defined.


Lemma loaded_records_are_keyed_by_id_witness :
  ∃ loaded,
    @Fixed.load_data first_occurrence scenario_folder no_xliff (Fixed.init false [])
      = Ok loaded ∧
    keyed NPCMessage.message_id (Fixed.messages loaded).
Proof.
  eexists. split; [reflexivity|].
  exact (proj1 (proj2 (@loaded_records_are_keyed_by_id first_occurrence scenario_folder
                         no_xliff false [] _ eq_refl))).
Defined.

Lemma fixed_later_row_replaces_earlier_witness :
  ∃ self', Fixed._load_npcs two_gardes_folder (Fixed.init false []) = Ok self' ∧
           NPC.name_fr <$> dict_get 7 (Fixed.npcs self') = Some "Garde royal".
Proof.
  destruct (fixed_later_row_replaces_earlier two_gardes_folder (Fixed.init false [])
              "rows" [garde_row "Garde"; garde_row "Garde royal"] []
              [NPC.mk 7 "Garde" None None None None [] [] [];
               NPC.mk 7 "Garde royal" None None None None [] [] []]
              eq_refl ltac:(repeat constructor)) as (self' & Hload & Hget).
  exists self'. split; [exact Hload|]. by rewrite Hget.
Defined.




Lemma variants_read_different_exports_witness :
  ∃ loaded',
    Original.load_data scenario_folder no_xliff (Original.init false []) = Ok loaded' ∧
    Original.npcs loaded' = [] ∧ Original.messages loaded' = [] ∧
    Original.replies loaded' = [] ∧ Original.dialogs loaded' = [].
Proof.
  exact (@variants_read_different_exports first_occurrence scenario_folder no_xliff [] _
           eq_refl).
Defined.

Lemma formatted_text_has_no_line_break_witness :
  Fixed._format_text_with_null_check (Some "Halte!") = "Halte!".
Proof.
  refine (proj2 (proj2 (proj2 (proj2 (formatted_text_has_no_line_break (Some "Halte!")))))
            _ _ eq_refl _ _).
  all: apply (bool_decide_unpack _); by vm_compute.
Defined.




Lemma xliff_mapping_counts_after_load_witness :
  ∃ loaded,
    @Fixed.load_data first_occurrence structure_folder bonjour_xliff
      (Fixed.init true bonjour_files) = Ok loaded ∧
    ∃ mapping,
      Statistics.stats_xliff_mapping (Statistics.analyze_statistics loaded) = Some mapping ∧
      Statistics.mapped_messages mapping + Statistics.unmapped_messages mapping =
        Statistics.total_xliff_messages mapping.
Proof.
  eexists. split; [reflexivity|].
  destruct (@xliff_mapping_counts_after_load first_occurrence structure_folder bonjour_xliff
              bonjour_files _ eq_refl) as (mapping & Hmapping & _ & _ & _ & Hsum & _).
  exists mapping. split; [exact Hmapping|exact Hsum].
Defined.

Lemma validated_load_finds_its_files_witness :
  @Fixed.load_data first_occurrence complete_folder no_xliff
    (Fixed.init (Gui.use_xliff json_vars) (Gui.xliff_files json_vars))
    ≠ Raise FileNotFoundError.
Proof.
  refine (@validated_load_finds_its_files first_occurrence (os_of complete_folder) json_vars
            complete_folder no_xliff _ _ eq_refl).
  intros name. simpl. unfold exists_. by destruct (complete_folder name).
Defined.


Lemma original_page_reads_opening_messages_only_witness :
  OriginalPage._generate_html_content
    (Original.mk_mapper false [] [(7, garde)] [(100, halte); (101, un_ami)] [] [] []
       Xliff.empty []) =
  OriginalPage._generate_html_content
    (Original.mk_mapper false [] [(7, garde)] [(100, halte); (102, un_ami)] [] [] []
       Xliff.empty []).
Proof.
  apply original_page_reads_opening_messages_only; try reflexivity.
  intros npc dialog Hnpc Hdialog. simpl in Hnpc.
  apply list_elem_of_singleton in Hnpc as ->.
  simpl in Hdialog. apply list_elem_of_singleton in Hdialog as ->. reflexivity.
Defined.
